(** * PubMed search proxy: the NCBI client and the citation formatter

    A shallow embedding of [client.py] (class [NCBIClient]) and
    [schemas.py] (class [Article]) together with the Python built-ins and
    library calls they rely on, followed by the properties of the
    specification that were checked against it.

    Conventions.
    - A Python [str] is a [string]; every [ascii] stands for the code point
      of the same number.
    - A value decoded from JSON (and every value stored in a request
      parameter mapping) is a [JSON]; a Python [dict] keeps its insertion
      order and is an association list with pairwise distinct keys.
    - Everything outside the source (the HTTP transport, the Redis backend,
      the configured credential, the XML and JSON decoders of the standard
      library) is gathered in one record [Env]; the client is a function of
      it.
    - Effects (cache reads and writes, HTTP attempts, back-off sleeps, log
      records, in-place updates of a parameter mapping) are threaded through
      a state-and-exception monad [M]. *)

From Stdlib Require Import String Ascii List ZArith NArith Arith Bool Lia.
From Stdlib Require Import Permutation DecimalString.
Import ListNotations.
Local Open Scope list_scope.
Local Open Scope string_scope.

Set Implicit Arguments.
Set Warnings "-register-all".

(* ===================================================================== *)
(** * Python built-ins on [str] and [list]                               *)
(* ===================================================================== *)

Module Py.

(** [c.isspace()] for a one-character string: the white-space code points
    below 256 (TAB..CR, FS..US, SPACE, NEL, NBSP). *)
Definition isspace (c : ascii) : bool :=
  let n := N_of_ascii c in
  ((9 <=? n) && (n <=? 13) || (28 <=? n) && (n <=? 32)
   || (n =? 133) || (n =? 160))%N.

(** [s.lstrip()] *)
Fixpoint lstrip (s : string) : string :=
  match s with
  | String c s' => if isspace c then lstrip s' else s
  | EmptyString => EmptyString
  end.

(** [s.rstrip()]: a trailing run of white space is dropped. *)
Fixpoint rstrip (s : string) : string :=
  match s with
  | String c s' =>
      match rstrip s' with
      | EmptyString => if isspace c then EmptyString else String c EmptyString
      | r => String c r
      end
  | EmptyString => EmptyString
  end.

(** [s.strip()] *)
Definition strip (s : string) : string := rstrip (lstrip s).

(** [s.replace(c, new)] for a one-character pattern [c]. *)
Fixpoint replace (c : ascii) (new : string) (s : string) : string :=
  match s with
  | String d s' =>
      if Ascii.eqb c d then new ++ replace c new s'
      else String d (replace c new s')
  | EmptyString => EmptyString
  end.

(** [s.endswith(c)] for a one-character suffix [c]. *)
Fixpoint endswith (s : string) (c : ascii) : bool :=
  match s with
  | String d EmptyString => Ascii.eqb d c
  | String _ s' => endswith s' c
  | EmptyString => false
  end.

(** [c.lower()] on one code point below 256: A-Z, and the Latin-1 capitals
    (U+00C0..U+00DE without the multiplication sign) move up by 32. *)
Definition lower_char (c : ascii) : ascii :=
  let n := N_of_ascii c in
  if ((65 <=? n) && (n <=? 90)
      || (192 <=? n) && (n <=? 222) && negb (n =? 215))%N
  then ascii_of_N (n + 32) else c.

(** [s.lower()] *)
Fixpoint lower (s : string) : string :=
  match s with
  | String c s' => String (lower_char c) (lower s')
  | EmptyString => EmptyString
  end.

(** [sep.join(parts)] *)
Definition join (sep : string) (parts : list string) : string :=
  String.concat sep parts.

(** Truth value of a [str]: non-empty. *)
Definition truthy (s : string) : bool :=
  match s with EmptyString => false | _ => true end.

(** Truth value of an [Optional[str]]: neither [None] nor empty. *)
Definition truthy_opt (o : option string) : bool :=
  match o with Some s => truthy s | None => false end.

(** [xs[:n]] *)
Definition take {A} (n : nat) (xs : list A) : list A := firstn n xs.

(** [a or b] on strings. *)
Definition or_else (a b : string) : string := if truthy a then a else b.

End Py.

(* ===================================================================== *)
(** * schemas.py                                                         *)
(* ===================================================================== *)

(** [pydantic.HttpUrl(s)]: the URL object built from the text [s]. *)
Inductive Url : Type := HttpUrl (s : string).

(** class ArticleSummary(BaseModel) *)
Record ArticleSummary : Type := mkArticleSummary {
  s_pmid : string;
  s_title : string;
  s_pub_date : string;
  s_journal : string;
  s_authors : list string
}.

(** class Article(ArticleSummary) *)
Record Article : Type := mkArticle {
  pmid : string;
  title : string;
  pub_date : string;
  journal : string;
  authors : list string;
  abstract : string;
  mesh_terms : list string;
  doi : option string;
  link : Url;
  volume : option string;
  issue : option string;
  pages : option string
}.

(** class SpellCheckResponse(BaseModel) *)
Record SpellCheckResponse : Type := mkSpellCheckResponse {
  original_query : string;
  corrected_query : option string;
  has_correction : bool
}.

(** The author part of [Article.to_ama_citation]. *)
Definition authors_str (a : Article) : string :=
  match authors a with
  | [] => ""
  | _ =>
      if (6 <? List.length (authors a))%nat
      then Py.join ", " (Py.take 3 (authors a)) ++ ", et al"
      else Py.join ", " (authors a)
  end.

(** The [Volume(Issue):Pages.] part of [Article.to_ama_citation]: four
    guarded [+=] on [cit_details]. *)
Definition cit_details (a : Article) : string :=
  let c0 := "" in
  let c1 := if Py.truthy_opt (volume a)
            then c0 ++ match volume a with Some v => v | None => "" end
            else c0 in
  let c2 := if Py.truthy_opt (issue a)
            then c1 ++ "(" ++ match issue a with Some i => i | None => "" end ++ ")"
            else c1 in
  let c3 := if Py.truthy_opt (pages a)
            then c2 ++ ":" ++ match pages a with Some p => p | None => "" end
            else c2 in
  if Py.truthy c3 then c3 ++ "." else c3.

(** [Article.to_ama_citation] *)
Definition to_ama_citation (a : Article) : string :=
  let authors_str := authors_str a in
  let title0 := Py.strip (Py.replace "*" "" (title a)) in
  let title1 := if Py.endswith title0 "." then title0 else title0 ++ "." in
  let journal1 :=
    if Py.truthy (journal a) then "*" ++ Py.strip (journal a) ++ "*." else "" in
  let year := if Py.truthy (pub_date a) then pub_date a ++ ";" else "" in
  let cit := cit_details a in
  let parts := filter Py.truthy [authors_str; title1; journal1; year; cit] in
  Py.join " " parts.

(* ===================================================================== *)
(** * hashlib.md5 (RFC 1321)                                             *)
(* ===================================================================== *)

Module Hashlib.
Local Open Scope Z_scope.

Definition mask32 : Z := 0xffffffff.
Definition add32 (x y : Z) : Z := Z.land (x + y) mask32.
Definition not32 (x : Z) : Z := Z.lxor x mask32.
Definition rotl32 (x : Z) (c : Z) : Z :=
  Z.land (Z.lor (Z.shiftl x c) (Z.shiftr x (32 - c))) mask32.

(** Per-round shift amounts. *)
Definition shifts : list Z :=
  [7; 12; 17; 22; 7; 12; 17; 22; 7; 12; 17; 22; 7; 12; 17; 22;
   5; 9; 14; 20; 5; 9; 14; 20; 5; 9; 14; 20; 5; 9; 14; 20;
   4; 11; 16; 23; 4; 11; 16; 23; 4; 11; 16; 23; 4; 11; 16; 23;
   6; 10; 15; 21; 6; 10; 15; 21; 6; 10; 15; 21; 6; 10; 15; 21].

(** [floor(2^32 * abs(sin(i + 1)))] for [i] in 0..63. *)
Definition sines : list Z :=
  [0xd76aa478; 0xe8c7b756; 0x242070db; 0xc1bdceee;
   0xf57c0faf; 0x4787c62a; 0xa8304613; 0xfd469501;
   0x698098d8; 0x8b44f7af; 0xffff5bb1; 0x895cd7be;
   0x6b901122; 0xfd987193; 0xa679438e; 0x49b40821;
   0xf61e2562; 0xc040b340; 0x265e5a51; 0xe9b6c7aa;
   0xd62f105d; 0x02441453; 0xd8a1e681; 0xe7d3fbc8;
   0x21e1cde6; 0xc33707d6; 0xf4d50d87; 0x455a14ed;
   0xa9e3e905; 0xfcefa3f8; 0x676f02d9; 0x8d2a4c8a;
   0xfffa3942; 0x8771f681; 0x6d9d6122; 0xfde5380c;
   0xa4beea44; 0x4bdecfa9; 0xf6bb4b60; 0xbebfbc70;
   0x289b7ec6; 0xeaa127fa; 0xd4ef3085; 0x04881d05;
   0xd9d4d039; 0xe6db99e5; 0x1fa27cf8; 0xc4ac5665;
   0xf4292244; 0x432aff97; 0xab9423a7; 0xfc93a039;
   0x655b59c3; 0x8f0ccc92; 0xffeff47d; 0x85845dd1;
   0x6fa87e4f; 0xfe2ce6e0; 0xa3014314; 0x4e0811a1;
   0xf7537e82; 0xbd3af235; 0x2ad7d2bb; 0xeb86d391].

(** The chaining value: four 32-bit words. *)
Record digest_state : Type := mkDigest { dA : Z; dB : Z; dC : Z; dD : Z }.

Definition initial : digest_state :=
  mkDigest 0x67452301 0xefcdab89 0x98badcfe 0x10325476.

(** One of the 64 operations on a block [m] of sixteen words. *)
Definition operation (m : list Z) (st : digest_state) (i : nat) : digest_state :=
  let '(mkDigest a b c d) := st in
  let iz := Z.of_nat i in
  let '(f, g) :=
    if iz <? 16 then (Z.lor (Z.land b c) (Z.land (not32 b) d), iz)
    else if iz <? 32 then (Z.lor (Z.land d b) (Z.land (not32 d) c), (5 * iz + 1) mod 16)
    else if iz <? 48 then (Z.lxor (Z.lxor b c) d, (3 * iz + 5) mod 16)
    else (Z.lxor c (Z.lor b (not32 d)), (7 * iz) mod 16) in
  let f' := add32 (add32 (add32 f a) (nth i sines 0)) (nth (Z.to_nat g) m 0) in
  mkDigest d (add32 b (rotl32 f' (nth i shifts 0))) b c.

(** Compression of one block into the chaining value. *)
Definition compress (st : digest_state) (m : list Z) : digest_state :=
  let r := fold_left (operation m) (seq 0 64) st in
  mkDigest (add32 (dA st) (dA r)) (add32 (dB st) (dB r))
           (add32 (dC st) (dC r)) (add32 (dD st) (dD r)).

(** Little-endian bytes of a word and back. *)
Definition le_bytes (n : nat) (w : Z) : list Z :=
  map (fun k => Z.land (Z.shiftr w (8 * Z.of_nat k)) 0xff) (seq 0 n).

Definition le_word (bs : list Z) : Z :=
  fold_right (fun b acc => Z.lor b (Z.shiftl acc 8)) 0 bs.

(** Padding: a 1 bit, zeros up to 56 mod 64, the bit length on 8 bytes. *)
Definition pad (msg : list Z) : list Z :=
  let len := Z.of_nat (List.length msg) in
  let zeros := Z.to_nat ((55 - len) mod 64) in
  (msg ++ [0x80] ++ repeat 0 zeros ++ le_bytes 8 (Z.land (8 * len) 0xffffffffffffffff))%list.

(** Cut a list into consecutive chunks of [n] elements; [fuel] bounds the
    number of chunks. *)
Fixpoint chunks {A} (fuel n : nat) (l : list A) : list (list A) :=
  match fuel, l with
  | O, _ | _, [] => []
  | S fuel', _ => firstn n l :: chunks fuel' n (skipn n l)
  end.

Definition blocks (bytes : list Z) : list (list Z) :=
  map (fun blk => map le_word (chunks 16 4 blk))
      (chunks (S (List.length bytes)) 64 bytes).

(** [hashlib.md5(msg).digest()] as sixteen bytes. *)
Definition md5_digest (msg : list Z) : list Z :=
  let r := fold_left compress (blocks (pad msg)) initial in
  (le_bytes 4 (dA r) ++ le_bytes 4 (dB r) ++ le_bytes 4 (dC r) ++ le_bytes 4 (dD r))%list.

Definition hex_digit (n : Z) : ascii :=
  if n <? 10 then ascii_of_N (Z.to_N (48 + n)) else ascii_of_N (Z.to_N (87 + n)).

Definition hex_byte (b : Z) : string :=
  String (hex_digit (Z.shiftr b 4)) (String (hex_digit (Z.land b 0xf)) EmptyString).

(** [hashlib.md5(msg).hexdigest()] *)
Definition md5_hexdigest (msg : list Z) : string :=
  String.concat "" (map hex_byte (md5_digest msg)).

(** [s.encode()]: UTF-8 of a string of code points below 256. *)
Fixpoint encode (s : string) : list Z :=
  match s with
  | String c s' =>
      let n := Z.of_N (N_of_ascii c) in
      if n <? 128 then n :: encode s'
      else Z.lor 0xc0 (Z.shiftr n 6) :: Z.lor 0x80 (Z.land n 0x3f) :: encode s'
  | EmptyString => []
  end.

End Hashlib.

(* ===================================================================== *)
(** * JSON values, Python dicts and json.dumps                           *)
(* ===================================================================== *)

(** The values [json.loads] produces: [None], [bool], numbers, [str],
    [list], [dict].  A number is modelled by an integer: the source only
    tests numbers for truth and never computes with them. *)
Inductive JSON : Type :=
| JNull
| JBool (b : bool)
| JNum (z : Z)
| JStr (s : string)
| JList (l : list JSON)
| JDict (d : list (string * JSON)).

(** A Python [dict] with [str] keys, in insertion order. *)
Definition dict : Type := list (string * JSON).

Module Dict.

(** [d.get(k)] as an option ([None] when the key is absent). *)
Fixpoint lookup (d : dict) (k : string) : option JSON :=
  match d with
  | [] => None
  | (k', v) :: d' => if String.eqb k' k then Some v else lookup d' k
  end.

(** [k in d] *)
Definition mem (d : dict) (k : string) : bool :=
  match lookup d k with Some _ => true | None => false end.

(** [d[k] = v]: an existing key keeps its position, a new key goes last. *)
Fixpoint setitem (d : dict) (k : string) (v : JSON) : dict :=
  match d with
  | [] => [(k, v)]
  | (k', v') :: d' =>
      if String.eqb k' k then (k', v) :: d' else (k', v') :: setitem d' k v
  end.

(** [d.update(items)], also the dict display [{**d, k1: v1, ...}]. *)
Definition update (d : dict) (items : list (string * JSON)) : dict :=
  fold_left (fun acc kv => setitem acc (fst kv) (snd kv)) items d.

(** The keys of a dict. *)
Definition keys (d : dict) : list string := map fst d.

End Dict.

Module Json.

Definition hex4 (n : N) : string :=
  let z := Z.of_N n in
  String (Hashlib.hex_digit (Z.land (Z.shiftr z 12) 15))
    (String (Hashlib.hex_digit (Z.land (Z.shiftr z 8) 15))
       (String (Hashlib.hex_digit (Z.land (Z.shiftr z 4) 15))
          (String (Hashlib.hex_digit (Z.land z 15)) EmptyString))).

Definition backslash : string := String (ascii_of_N 92) EmptyString.
Definition dquote : string := String (ascii_of_N 34) EmptyString.

(** One character of [py_encode_basestring_ascii]. *)
Definition escape_char (c : ascii) : string :=
  let n := N_of_ascii c in
  if (n =? 92)%N then backslash ++ backslash
  else if (n =? 34)%N then backslash ++ dquote
  else if (n =? 8)%N then backslash ++ "b"
  else if (n =? 12)%N then backslash ++ "f"
  else if (n =? 10)%N then backslash ++ "n"
  else if (n =? 13)%N then backslash ++ "r"
  else if (n =? 9)%N then backslash ++ "t"
  else if ((32 <=? n) && (n <=? 126))%N then String c EmptyString
  else backslash ++ "u" ++ hex4 n.

Fixpoint escape (s : string) : string :=
  match s with
  | String c s' => escape_char c ++ escape s'
  | EmptyString => EmptyString
  end.

(** A string literal of the output. *)
Definition quote (s : string) : string := dquote ++ escape s ++ dquote.

(** [str(n)] for an [int]. *)
Definition str_of_int (z : Z) : string := NilZero.string_of_int (Z.to_int z).

(** Insertion of one item into a list of items ordered by key. *)
Fixpoint insert_item {A} (kv : string * A) (l : list (string * A)) : list (string * A) :=
  match l with
  | [] => [kv]
  | kv' :: l' =>
      if String.leb (fst kv) (fst kv') then kv :: l else kv' :: insert_item kv l'
  end.

(** [sorted(items)] for items with pairwise distinct keys: the order of
    the keys decides. *)
Definition sorted_items {A} (l : list (string * A)) : list (string * A) :=
  fold_right insert_item [] l.

(** [json.dumps(v, sort_keys=sort_keys)] with the default separators and
    [ensure_ascii=True]. *)
Fixpoint dumps (sort_keys : bool) (v : JSON) : string :=
  match v with
  | JNull => "null"
  | JBool true => "true"
  | JBool false => "false"
  | JNum z => str_of_int z
  | JStr s => quote s
  | JList l => "[" ++ String.concat ", " (map (dumps sort_keys) l) ++ "]"
  | JDict d =>
      let rendered :=
        map (fun kv => match kv with (k, x) => (k, dumps sort_keys x) end) d in
      let items := if sort_keys then sorted_items rendered else rendered in
      "{" ++ String.concat ", "
               (map (fun kv => quote (fst kv) ++ ": " ++ snd kv) items) ++ "}"
  end.

End Json.

(* ===================================================================== *)
(** * config.py                                                          *)
(* ===================================================================== *)

Module settings.
Definition EUTILS_BASE_URL : string := "https://eutils.ncbi.nlm.nih.gov/entrez/eutils/".
Definition CONCURRENCY_LIMIT_WITH_KEY : Z := 10.
Definition CONCURRENCY_LIMIT_WITHOUT_KEY : Z := 3.
Definition CACHE_TTL : Z := 3600.
End settings.

(* ===================================================================== *)
(** * client.py: the cache key                                           *)
(* ===================================================================== *)

(** The text that is hashed: [f"{url}?{json.dumps(params, sort_keys=True)}"]. *)
Definition key_string (url : string) (params : dict) : string :=
  url ++ "?" ++ Json.dumps true (JDict params).

(** [NCBIClient._generate_cache_key] *)
Definition _generate_cache_key (url : string) (params : dict) : string :=
  "pubmed_cache:" ++ Hashlib.md5_hexdigest (Hashlib.encode (key_string url params)).

(* ===================================================================== *)
(** * re: the one pattern of the source                                  *)
(* ===================================================================== *)

Module Re.

(** The fragment of regular expressions the source uses: a literal
    character, a character class given by its ranges, concatenation and
    bounded repetition [{lo,hi}]. *)
Inductive regex : Type :=
| Lit (c : ascii)
| Class (ranges : list (ascii * ascii))
| Cat (r1 r2 : regex)
| Repeat (lo hi : nat) (r : regex).

Definition in_range (c : ascii) (r : ascii * ascii) : bool :=
  (N_of_ascii (fst r) <=? N_of_ascii c)%N && (N_of_ascii c <=? N_of_ascii (snd r))%N.

(** [k] successive matches of [step], from every string of [starts]. *)
Fixpoint iterate (step : string -> list string) (k : nat) (starts : list string)
  : list string :=
  match k with
  | O => starts
  | S k' => iterate step k' (flat_map step starts)
  end.

(** The remainders of [s] after each way of matching [r] at its start. *)
Fixpoint rmatch (r : regex) (s : string) : list string :=
  match r with
  | Lit c =>
      match s with
      | String d s' => if Ascii.eqb c d then [s'] else []
      | EmptyString => []
      end
  | Class ranges =>
      match s with
      | String d s' => if existsb (in_range d) ranges then [s'] else []
      | EmptyString => []
      end
  | Cat r1 r2 => flat_map (rmatch r2) (rmatch r1 s)
  | Repeat lo hi r' =>
      flat_map (fun k => iterate (rmatch r') k [s]) (seq lo (S hi - lo))
  end.

(** [re.search(r, s) is not None]: a match starting at some position. *)
Fixpoint search (r : regex) (s : string) : bool :=
  match rmatch r s with
  | _ :: _ => true
  | [] =>
      match s with
      | String _ s' => search r s'
      | EmptyString => false
      end
  end.

(** The pattern [\[[A-Za-z]{2,4}\]]. *)
Definition field_tag : regex :=
  Cat (Lit "[") (Cat (Repeat 2 4 (Class [("A", "Z"); ("a", "z")])) (Lit "]"))%char.

End Re.

(* ===================================================================== *)
(** * xml.etree.ElementTree                                              *)
(* ===================================================================== *)

Module ElementTree.

(** An element: tag, attributes, text before the first child, children,
    text after the end tag. *)
Inductive Element : Type :=
| mkElement (tag : string) (attrib : list (string * string))
            (text : option string) (children : list Element)
            (tail : option string).

Definition tag (e : Element) : string := let '(mkElement t _ _ _ _) := e in t.
Definition attrib (e : Element) : list (string * string) :=
  let '(mkElement _ a _ _ _) := e in a.
Definition text (e : Element) : option string := let '(mkElement _ _ t _ _) := e in t.
Definition children (e : Element) : list Element := let '(mkElement _ _ _ c _) := e in c.
Definition tail (e : Element) : option string := let '(mkElement _ _ _ _ t) := e in t.

(** [e.get(key)] *)
Fixpoint get_attr (a : list (string * string)) (key : string) : option string :=
  match a with
  | [] => None
  | (k, v) :: a' => if String.eqb k key then Some v else get_attr a' key
  end.

Definition get (e : Element) (key : string) : option string := get_attr (attrib e) key.

(** [e.iter()]: the element and its descendants in document order. *)
Fixpoint iter (e : Element) : list Element :=
  match e with
  | mkElement _ _ _ cs _ => e :: flat_map iter cs
  end.

(** What [itertext] yields for a text or tail slot: nothing when it is
    [None] or empty. *)
Definition slot (t : option string) : list string :=
  match t with
  | Some s => if Py.truthy s then [s] else []
  | None => []
  end.

(** [e.itertext()] *)
Fixpoint itertext (e : Element) : list string :=
  match e with
  | mkElement _ _ t cs _ =>
      (slot t ++ flat_map (fun c => itertext c ++ slot (tail c)) cs)%list
  end.

(** The steps of the ElementPath expressions of the source. *)
Inductive step : Type :=
| Descendant (t : string)          (* [.//t] : descendants with tag [t] *)
| Child (t : string)               (* [/t] or a leading [t] : children with tag [t] *)
| AttrEq (key value : string).     (* [[@key='value']] *)

Definition select (s : step) (context : list Element) : list Element :=
  match s with
  | Descendant t =>
      flat_map (fun e => filter (fun x => String.eqb (tag x) t)
                                (flat_map iter (children e))) context
  | Child t =>
      flat_map (fun e => filter (fun x => String.eqb (tag x) t) (children e)) context
  | AttrEq key value =>
      filter (fun e => match get e key with
                       | Some v => String.eqb v value
                       | None => false
                       end) context
  end.

(** [e.findall(path)] *)
Definition findall (e : Element) (path : list step) : list Element :=
  fold_left (fun context s => select s context) path [e].

(** [e.find(path)] *)
Definition find (e : Element) (path : list step) : option Element :=
  hd_error (findall e path).

(** [e.findtext(path, default)]; a match without text gives the empty
    string. *)
Definition findtext (e : Element) (path : list step) (default : option string)
  : option string :=
  match find e path with
  | Some x => match text x with Some t => Some t | None => Some "" end
  | None => default
  end.

End ElementTree.

(* ===================================================================== *)
(** * client.py: the article parser of [fetch_article_details]            *)
(* ===================================================================== *)

Module Parser.
Import ElementTree.

(** The ElementPath expressions of the source. *)
Definition p_PubmedArticle := [Descendant "PubmedArticle"].          (* .//PubmedArticle *)
Definition p_ArticleTitle := [Descendant "ArticleTitle"].            (* .//ArticleTitle *)
Definition p_Author := [Descendant "AuthorList"; Child "Author"].    (* .//AuthorList/Author *)
Definition p_LastName := [Child "LastName"].                         (* LastName *)
Definition p_Initials := [Child "Initials"].                         (* Initials *)
Definition p_JournalTitle := [Descendant "Journal"; Child "Title"].  (* .//Journal/Title *)
Definition p_Year := [Descendant "PubDate"; Child "Year"].           (* .//PubDate/Year *)
Definition p_Volume :=
  [Descendant "Journal"; Child "JournalIssue"; Child "Volume"].      (* .//Journal/JournalIssue/Volume *)
Definition p_Issue :=
  [Descendant "Journal"; Child "JournalIssue"; Child "Issue"].       (* .//Journal/JournalIssue/Issue *)
Definition p_Pages := [Descendant "Pagination"; Child "MedlinePgn"]. (* .//Pagination/MedlinePgn *)
Definition p_Mesh :=
  [Descendant "MeshHeadingList"; Child "MeshHeading"; Child "DescriptorName"].
Definition p_doi :=
  [Descendant "ArticleIdList"; Child "ArticleId"; AttrEq "IdType" "doi"].
Definition p_AbstractText := [Descendant "Abstract"; Child "AbstractText"].

Definition or_empty (o : option string) : string :=
  match o with Some s => s | None => "" end.

(** The title of lines 170-171. *)
Definition parse_title (article_node : Element) : string :=
  match find article_node p_ArticleTitle with
  | Some title_node => Py.strip (Py.join "" (itertext title_node))
  | None => "No Title Found"
  end.

(** The list comprehension of line 173. *)
Definition parse_authors (article_node : Element) : list string :=
  map (fun a => Py.strip (or_empty (findtext a p_LastName (Some "")) ++ " "
                          ++ or_empty (findtext a p_Initials (Some ""))))
      (findall article_node p_Author).

(** The list comprehension of line 180. *)
Definition parse_mesh_terms (article_node : Element) : list string :=
  flat_map (fun term => match text term with
                        | Some t => if Py.truthy t then [t] else []
                        | None => []
                        end)
           (findall article_node p_Mesh).

(** Lines 182-183. *)
Definition parse_doi (article_node : Element) : option string :=
  match find article_node p_doi with
  | Some doi_node => text doi_node
  | None => None
  end.

(** The loop of lines 186-196 over the nodes still to visit;
    [abstract_parts] is the list built so far. *)
Fixpoint abstract_loop (nodes : list Element) (abstract_parts : list string)
  : list string :=
  match nodes with
  | [] => abstract_parts
  | node :: rest =>
      let full_text := Py.strip (Py.join "" (itertext node)) in
      if negb (Py.truthy full_text) then abstract_loop rest abstract_parts
      else
        let label := get node "Label" in
        let part :=
          if Py.truthy_opt label
          then "**" ++ Py.strip (or_empty label) ++ ":** " ++ full_text
          else full_text in
        abstract_loop rest (abstract_parts ++ [part])%list
  end.

Definition newline : string := String (ascii_of_N 10) EmptyString.

(** Lines 185-197. *)
Definition parse_abstract (article_node : Element) : string :=
  let abstract_parts := abstract_loop (findall article_node p_AbstractText) [] in
  Py.or_else (Py.join (newline ++ newline) abstract_parts) "Abstract not available.".

End Parser.


(* ===================================================================== *)
(** * Exceptions, effects and the world outside the source               *)
(* ===================================================================== *)

(** The exception classes that can occur.  [aiohttp.ClientError] is the base
    of [ClientResponseError] (raised by [raise_for_status], also the base of
    [ContentTypeError]) and of the transport errors, represented by
    [ClientConnectionError]; [asyncio.TimeoutError], raised when the total
    timeout of a request elapses, is not one. *)
Inductive exn : Type :=
| ClientResponseError (status : Z)
| ClientConnectionError
| TimeoutError
| RedisError
| JSONDecodeError
| ParseError
| ValidationError
| AttributeError
| KeyError
| IndexError
| TypeError.

(** [isinstance(e, aiohttp.ClientError)] *)
Definition is_ClientError (e : exn) : bool :=
  match e with
  | ClientResponseError _ | ClientConnectionError => true
  | _ => false
  end.

(** [isinstance(e, aioredis.RedisError)] *)
Definition is_RedisError (e : exn) : bool :=
  match e with RedisError => true | _ => false end.

(** [isinstance(e, (ElementTree.ParseError, ValidationError))] *)
Definition is_ParseError_or_ValidationError (e : exn) : bool :=
  match e with ParseError | ValidationError => true | _ => false end.

(** [isinstance(e, ValidationError)] *)
Definition is_ValidationError (e : exn) : bool :=
  match e with ValidationError => true | _ => false end.

(** The outcome of an expression: a value, or an exception raised. *)
Inductive Result (A : Type) : Type :=
| Ok (a : A)
| Raise (e : exn).
Arguments Ok {A} a.
Arguments Raise {A} e.

Inductive log_level : Type := INFO | WARNING | ERROR.

(** What the client does to the world, in order. *)
Inductive event : Type :=
| EvRedisGet (key : string)
| EvRedisSet (key : string) (value : string) (ex : Z)
| EvHttpGet (url : string) (params : dict) (timeout : Z)
| EvSleep (delay : Z)
| EvLog (level : log_level).

(** A response of the transport: its status, and what [await
    response.json()] and [await response.text()] give. *)
Record response : Type := mkResponse {
  status : Z;
  json : Result JSON;
  text : Result string
}.

(** The Redis client: the outcome of the n-th [get] and of the n-th [set]. *)
Record Redis : Type := mkRedis {
  redis_get : nat -> string -> Result (option string);
  redis_set : nat -> string -> string -> Z -> Result unit
}.

(** Everything the client receives from outside. *)
Record Env : Type := mkEnv {
  NCBI_API_KEY : option string;              (* settings.NCBI_API_KEY *)
  redis_client : option Redis;               (* None: caching disabled *)
  session_get : nat -> string -> dict -> Result response;
                                             (* the n-th self._session.get *)
  json_loads : string -> option JSON;        (* None: JSONDecodeError *)
  fromstring : string -> option ElementTree.Element;
                                             (* None: ParseError *)
  url_valid : string -> bool                 (* false: HttpUrl raises ValidationError *)
}.

(** A reference to a dict object. *)
Definition loc : Type := nat.

(** The state threaded through the client: the events so far (latest
    first) and the dict objects allocated so far. *)
Record State : Type := mkState {
  trace : list event;
  heap : list dict
}.

Definition M (A : Type) : Type := State -> Result A * State.

Definition ret {A} (a : A) : M A := fun st => (Ok a, st).
Definition raise {A} (e : exn) : M A := fun st => (Raise e, st).
Definition bind {A B} (m : M A) (f : A -> M B) : M B :=
  fun st => match m st with
            | (Ok a, st') => f a st'
            | (Raise e, st') => (Raise e, st')
            end.

(** [try: m  except <class>: handler] *)
Definition try_except {A} (m : M A) (class : exn -> bool) (handler : exn -> M A) : M A :=
  fun st => match m st with
            | (Ok a, st') => (Ok a, st')
            | (Raise e, st') => if class e then handler e st' else (Raise e, st')
            end.

Definition lift {A} (r : Result A) : M A := fun st => (r, st).

Declare Scope py_scope.
Delimit Scope py_scope with py.
Notation "x <- m ;; k" := (bind m (fun x => k))
  (at level 61, m at next level, right associativity) : py_scope.
Notation "m ;;; k" := (bind m (fun _ => k))
  (at level 61, right associativity) : py_scope.
Local Open Scope py_scope.

Definition emit (e : event) : M unit :=
  fun st => (Ok tt, mkState (e :: trace st) (heap st)).

Definition log (l : log_level) : M unit := emit (EvLog l).

Definition is_http (e : event) : bool :=
  match e with EvHttpGet _ _ _ => true | _ => false end.
Definition is_redis_get (e : event) : bool :=
  match e with EvRedisGet _ => true | _ => false end.
Definition is_redis_set (e : event) : bool :=
  match e with EvRedisSet _ _ _ => true | _ => false end.
Definition is_warning (e : event) : bool :=
  match e with EvLog WARNING => true | _ => false end.

Definition count (p : event -> bool) (t : list event) : nat :=
  List.length (filter p t).

(** The delays slept so far, earliest first. *)
Definition sleeps (t : list event) : list Z :=
  flat_map (fun e => match e with EvSleep d => [d] | _ => [] end) (rev t).

(** The requests sent so far, earliest first. *)
Definition requests (t : list event) : list (string * dict) :=
  flat_map (fun e => match e with EvHttpGet u p _ => [(u, p)] | _ => [] end) (rev t).

(** A new dict object. *)
Definition alloc (d : dict) : M loc :=
  fun st => (Ok (List.length (heap st)), mkState (trace st) (heap st ++ [d])%list).

(** The contents of a dict object. *)
Definition deref (p : loc) : M dict :=
  fun st => (Ok (nth p (heap st) []), st).

Fixpoint list_set {A} (l : list A) (i : nat) (x : A) : list A :=
  match l, i with
  | [], _ => []
  | _ :: l', O => x :: l'
  | y :: l', S i' => y :: list_set l' i' x
  end.

(** [p[k] = v] on the dict object [p]. *)
Definition setitem (p : loc) (k : string) (v : JSON) : M unit :=
  fun st => (Ok tt, mkState (trace st)
                      (list_set (heap st) p (Dict.setitem (nth p (heap st) []) k v))).

(* ===================================================================== *)
(** * Python operations on decoded values                                *)
(* ===================================================================== *)

Module Dyn.

(** [bool(v)] *)
Definition truthy (v : JSON) : bool :=
  match v with
  | JNull => false
  | JBool b => b
  | JNum z => negb (z =? 0)%Z
  | JStr s => Py.truthy s
  | JList l => match l with [] => false | _ => true end
  | JDict d => match d with [] => false | _ => true end
  end.

(** [v.get(k, default)]: only a dict has the method. *)
Definition get (v : JSON) (k : string) (default : JSON) : Result JSON :=
  match v with
  | JDict d => Ok (match Dict.lookup d k with Some x => x | None => default end)
  | _ => Raise AttributeError
  end.

(** [v[k]] for a string subscript. *)
Definition getitem_str (v : JSON) (k : string) : Result JSON :=
  match v with
  | JDict d => match Dict.lookup d k with Some x => Ok x | None => Raise KeyError end
  | _ => Raise TypeError
  end.

(** [v[0]] *)
Definition getitem_0 (v : JSON) : Result JSON :=
  match v with
  | JList (x :: _) => Ok x
  | JList [] => Raise IndexError
  | JStr (String c _) => Ok (JStr (String c EmptyString))
  | JStr EmptyString => Raise IndexError
  | JDict _ => Raise KeyError
  | _ => Raise TypeError
  end.

(** Whether [sub] occurs in [s]. *)
Fixpoint substring_of (sub s : string) : bool :=
  String.prefix sub s ||
  match s with
  | String _ s' => substring_of sub s'
  | EmptyString => false
  end.

Definition eqb_str (v : JSON) (k : string) : bool :=
  match v with JStr s => String.eqb s k | _ => false end.

(** [k in v] for a string [k]. *)
Definition contains_str (v : JSON) (k : string) : Result bool :=
  match v with
  | JDict d => Ok (Dict.mem d k)
  | JList l => Ok (existsb (fun x => eqb_str x k) l)
  | JStr s => Ok (substring_of k s)
  | _ => Raise TypeError
  end.

(** The items a [for] loop or a comprehension visits. *)
Definition iterate (v : JSON) : Result (list JSON) :=
  match v with
  | JList l => Ok l
  | JDict d => Ok (map JStr (Dict.keys d))
  | JStr s => Ok (map (fun c => JStr (String c EmptyString)) (list_ascii_of_string s))
  | _ => Raise TypeError
  end.

(** [k in d] for a dict [d] and any value [k]: a list or a dict is not
    hashable, a key of a decoded dict is always a string. *)
Definition dict_contains (d : dict) (k : JSON) : Result bool :=
  match k with
  | JStr s => Ok (Dict.mem d s)
  | JList _ | JDict _ => Raise TypeError
  | _ => Ok false
  end.

(** Validation of a [str] field by pydantic 2 (the source depends on
    [pydantic_settings] and builds [HttpUrl] objects directly): a string
    passes, nothing is coerced. *)
Definition as_str (v : JSON) : Result string :=
  match v with JStr s => Ok s | _ => Raise ValidationError end.

(** Validation of an [Optional[str]] field. *)
Definition as_opt_str (v : JSON) : Result (option string) :=
  match v with
  | JStr s => Ok (Some s)
  | JNull => Ok None
  | _ => Raise ValidationError
  end.

(** Validation of a [List[str]] field given a list. *)
Fixpoint as_str_list (l : list JSON) : Result (list string) :=
  match l with
  | [] => Ok []
  | v :: l' =>
      match as_str v, as_str_list l' with
      | Ok s, Ok r => Ok (s :: r)
      | _, _ => Raise ValidationError
      end
  end.

End Dyn.


(* ===================================================================== *)
(** * client.py: class NCBIClient                                        *)
(* ===================================================================== *)

Definition BASE_PARAMS : dict := [("db", JStr "pubmed")].
Definition MAX_RETRIES : nat := 4.
(** [RETRY_DELAY = 2.0]; its powers up to [MAX_RETRIES] are exact. *)
Definition RETRY_DELAY : Z := 2.

Section Client.

Variable env : Env.

(** [await self._redis.get(cache_key)] *)
Definition do_redis_get (r : Redis) (cache_key : string) : M (option string) :=
  fun st => (redis_get r (count is_redis_get (trace st)) cache_key,
             mkState (EvRedisGet cache_key :: trace st) (heap st)).

(** [await self._redis.set(cache_key, value, ex=ttl)] *)
Definition do_redis_set (r : Redis) (cache_key value : string) (ttl : Z) : M unit :=
  fun st => (redis_set r (count is_redis_set (trace st)) cache_key value ttl,
             mkState (EvRedisSet cache_key value ttl :: trace st) (heap st)).

(** [self._session.get(url, params=params, timeout=timeout)] entered as a
    context manager. *)
Definition do_session_get (url : string) (params : dict) (timeout : Z) : M response :=
  fun st => (session_get env (count is_http (trace st)) url params,
             mkState (EvHttpGet url params timeout :: trace st) (heap st)).

(** [json.loads(s)] *)
Definition loads (s : string) : M JSON :=
  match json_loads env s with
  | Some v => ret v
  | None => raise JSONDecodeError
  end.

(** [response.raise_for_status()] *)
Definition raise_for_status (resp : response) : M unit :=
  if (400 <=? status resp)%Z then raise (ClientResponseError (status resp)) else ret tt.

(** Lines 50-57: [Some v] when the function returns the cached [v]. *)
Definition cache_lookup (cache_key : string) : M (option JSON) :=
  match redis_client env with
  | Some r =>
      try_except
        (cached_result <- do_redis_get r cache_key ;;
         if Py.truthy_opt cached_result then
           log INFO ;;;
           v <- loads (match cached_result with Some s => s | None => "" end) ;;
           ret (Some v)
         else ret None)
        is_RedisError
        (fun _ => log ERROR ;;; ret None)
  | None => ret None
  end.

(** Lines 64-78: the body of the [try] of one attempt; its value is what
    the function returns.  The semaphore of line 64 only delays the attempt
    and is not represented. *)
Definition attempt_body (url : string) (params : loc) (response_type cache_key : string)
  : M JSON :=
  d <- deref params ;;
  resp <- do_session_get url d 30 ;;
  raise_for_status resp ;;;
  result <- (if String.eqb response_type "json" then lift (json resp)
             else (t <- lift (text resp) ;; ret (JStr t))) ;;
  match redis_client env with
  | Some r =>
      try_except
        (do_redis_set r cache_key (Json.dumps false result) settings.CACHE_TTL ;;;
         log INFO)
        is_RedisError
        (fun _ => log ERROR)
  | None => ret tt
  end ;;;
  ret result.

(** How one iteration of the retry loop ends. *)
Inductive flow : Type :=
| Return (v : JSON)
| Continue
| Break.

(** [e.status == 429 or e.status >= 500] on a [ClientResponseError]. *)
Definition retryable (e : exn) : bool :=
  match e with
  | ClientResponseError s => ((s =? 429) || (500 <=? s))%Z
  | _ => false
  end.

(** Lines 63-89: one iteration of the loop, for the index [attempt]. *)
Definition attempt_once (url : string) (params : loc) (response_type cache_key : string)
           (attempt : nat) : M flow :=
  try_except
    (v <- attempt_body url params response_type cache_key ;; ret (Return v))
    is_ClientError
    (fun e =>
       if retryable e then
         let delay := (RETRY_DELAY ^ Z.of_nat attempt)%Z in
         log WARNING ;;;
         (if (attempt <? MAX_RETRIES - 1)%nat then emit (EvSleep delay) else ret tt) ;;;
         ret Continue
       else
         log ERROR ;;; ret Break).

(** Lines 91-92. *)
Definition after_loop : M JSON := log ERROR ;;; ret JNull.

(** Lines 62-92: the loop over the remaining indices [attempts]. *)
Fixpoint retry_loop (url : string) (params : loc) (response_type cache_key : string)
         (attempts : list nat) : M JSON :=
  match attempts with
  | [] => after_loop
  | attempt :: rest =>
      f <- attempt_once url params response_type cache_key attempt ;;
      match f with
      | Return v => ret v
      | Continue => retry_loop url params response_type cache_key rest
      | Break => after_loop
      end
  end.

(** Lines 46-47. *)
Definition inject_api_key (params : loc) : M unit :=
  if Py.truthy_opt (NCBI_API_KEY env)
  then setitem params "api_key"
         (JStr (match NCBI_API_KEY env with Some k => k | None => "" end))
  else ret tt.

(** [NCBIClient._make_request]; [JNull] is Python's [None]. *)
Definition _make_request (url : string) (params : loc) (response_type : string) : M JSON :=
  inject_api_key params ;;;
  d <- deref params ;;
  let cache_key := _generate_cache_key url d in
  hit <- cache_lookup cache_key ;;
  match hit with
  | Some v => ret v
  | None =>
      log INFO ;;;
      retry_loop url params response_type cache_key (seq 0 MAX_RETRIES)
  end.

(** [params.update(items)] on the dict object [params]. *)
Fixpoint update (params : loc) (items : list (string * JSON)) : M unit :=
  match items with
  | [] => ret tt
  | (k, v) :: rest => setitem params k v ;;; update params rest
  end.

(** Line 96. *)
Definition final_query (query : string) (search_field : option string) : string :=
  if Py.truthy_opt search_field && negb (Re.search Re.field_tag query)
  then "(" ++ query ++ ")" ++ Parser.or_empty search_field
  else query.

(** [data.get("esearchresult", {}).get("idlist", []) if data else []] *)
Definition idlist_of (data : JSON) : M JSON :=
  if Dyn.truthy data then
    r <- lift (Dyn.get data "esearchresult" (JDict [])) ;;
    lift (Dyn.get r "idlist" (JList []))
  else ret (JList []).

(** [NCBIClient.search_pubmed_ids] *)
Definition search_pubmed_ids (query : string) (search_field : option string)
           (max_results : Z) (start_date end_date : option string) : M JSON :=
  params <- alloc (Dict.update BASE_PARAMS
                     [("term", JStr (final_query query search_field));
                      ("retmode", JStr "json");
                      ("retmax", JStr (Json.str_of_int max_results));
                      ("sort", JStr "date")]) ;;
  (if Py.truthy_opt start_date
   then update params [("datetype", JStr "pdat");
                       ("mindate", JStr (Parser.or_empty start_date))]
   else ret tt) ;;;
  (if Py.truthy_opt end_date
   then update params [("datetype", JStr "pdat");
                       ("maxdate", JStr (Parser.or_empty end_date))]
   else ret tt) ;;;
  data <- _make_request (settings.EUTILS_BASE_URL ++ "esearch.fcgi") params "json" ;;
  idlist_of data.

(** [NCBIClient.check_spelling] *)
Definition check_spelling (query : string) : M SpellCheckResponse :=
  params <- alloc (Dict.update BASE_PARAMS
                     [("term", JStr query); ("retmode", JStr "json")]) ;;
  data <- _make_request (settings.EUTILS_BASE_URL ++ "espell.fcgi") params "json" ;;
  if negb (Dyn.truthy data) then ret (mkSpellCheckResponse query None false)
  else
    es <- lift (Dyn.get data "es-result" (JDict [])) ;;
    corrected <- lift (Dyn.get es "corrected" JNull) ;;
    differs <- (if Dyn.truthy corrected then
                  match corrected with
                  | JStr c => ret (negb (String.eqb (Py.lower c) (Py.lower query)))
                  | _ => raise AttributeError
                  end
                else ret false) ;;
    corrected_query <- lift (Dyn.as_opt_str corrected) ;;
    ret (mkSpellCheckResponse query corrected_query differs).

(** Evaluation of a comprehension [[f(a) for a in l]]. *)
Fixpoint map_result {A B} (f : A -> Result B) (l : list A) : Result (list B) :=
  match l with
  | [] => Ok []
  | a :: l' =>
      match f a with
      | Ok b => match map_result f l' with
                | Ok r => Ok (b :: r)
                | Raise e => Raise e
                end
      | Raise e => Raise e
      end
  end.

(** Lines 129-135: the arguments are evaluated in order, then the model
    validates them. *)
Definition build_summary (info : JSON) : M ArticleSummary :=
  uid <- lift (Dyn.get info "uid" (JStr "")) ;;
  title <- lift (Dyn.get info "title" (JStr "No Title")) ;;
  pubdate <- lift (Dyn.get info "pubdate" (JStr "")) ;;
  source <- lift (Dyn.get info "source" (JStr "")) ;;
  auths <- lift (Dyn.get info "authors" (JList [])) ;;
  items <- lift (Dyn.iterate auths) ;;
  names <- lift (map_result (fun a => Dyn.get a "name" (JStr "")) items) ;;
  match Dyn.as_str uid, Dyn.as_str title, Dyn.as_str pubdate, Dyn.as_str source,
        Dyn.as_str_list names with
  | Ok p, Ok t, Ok d, Ok j, Ok a => ret (mkArticleSummary p t d j a)
  | _, _, _, _, _ => raise ValidationError
  end.

(** Lines 125-138: the loop over the uids still to visit. *)
Fixpoint summaries_loop (result : dict) (uids : list JSON)
         (summaries : list ArticleSummary) : M (list ArticleSummary) :=
  match uids with
  | [] => ret summaries
  | pmid :: rest =>
      present <- lift (Dyn.dict_contains result pmid) ;;
      if present : bool then
        info <- lift (Dyn.getitem_str (JDict result)
                        (match pmid with JStr s => s | _ => "" end)) ;;
        made <- try_except
                  (summary <- build_summary info ;; ret (Some summary))
                  is_ValidationError
                  (fun _ => log WARNING ;;; ret None) ;;
        summaries_loop result rest
          (match made with
           | Some summary => (summaries ++ [summary])%list
           | None => summaries
           end)
      else summaries_loop result rest summaries
  end.

(** [NCBIClient.get_summaries] *)
Definition get_summaries (pmids : list string) : M (list ArticleSummary) :=
  match pmids with
  | [] => ret []
  | _ =>
      params <- alloc (Dict.update BASE_PARAMS
                         [("id", JStr (Py.join "," pmids)); ("retmode", JStr "json")]) ;;
      data <- _make_request (settings.EUTILS_BASE_URL ++ "esummary.fcgi") params "json" ;;
      has_result <- (if Dyn.truthy data then lift (Dyn.contains_str data "result")
                     else ret false) ;;
      if negb has_result then ret []
      else
        result <- lift (Dyn.getitem_str data "result") ;;
        uids <- lift (Dyn.get result "uids" (JList [])) ;;
        items <- lift (Dyn.iterate uids) ;;
        match result with
        | JDict d => summaries_loop d items []
        | _ => raise AttributeError   (* not reached: [result.get] has raised *)
        end
  end.

(** [NCBIClient.find_related_ids] *)
Definition find_related_ids (source_pmid : string) (max_results : Z) : M JSON :=
  params <- alloc (Dict.update BASE_PARAMS
                     [("id", JStr source_pmid);
                      ("linkname", JStr "pubmed_pubmed");
                      ("cmd", JStr "neighbor_history")]) ;;
  data <- _make_request (settings.EUTILS_BASE_URL ++ "elink.fcgi") params "json" ;;
  has_linksets <- (if Dyn.truthy data then
                     ls <- lift (Dyn.get data "linksets" JNull) ;;
                     ret (Dyn.truthy ls)
                   else ret false) ;;
  if negb has_linksets then ret (JList [])
  else
    linksets <- lift (Dyn.getitem_str data "linksets") ;;
    linkset <- lift (Dyn.getitem_0 linksets) ;;
    webenv <- lift (Dyn.get linkset "webenv" JNull) ;;
    linksetdbs <- lift (Dyn.getitem_str linkset "linksetdbs") ;;
    linksetdb <- lift (Dyn.getitem_0 linksetdbs) ;;
    query_key <- lift (Dyn.get linksetdb "querykey" JNull) ;;
    fetch_params <- alloc (Dict.update BASE_PARAMS
                             [("query_key", query_key);
                              ("WebEnv", webenv);
                              ("retmode", JStr "json");
                              ("retmax", JStr (Json.str_of_int max_results))]) ;;
    fetch_data <- _make_request (settings.EUTILS_BASE_URL ++ "esearch.fcgi")
                    fetch_params "json" ;;
    idlist_of fetch_data.

(** [ElementTree.fromstring(xml_data)] *)
Definition parse_xml (xml_data : JSON) : M ElementTree.Element :=
  match xml_data with
  | JStr s => match fromstring env s with
              | Some root => ret root
              | None => raise ParseError
              end
  | _ => raise TypeError
  end.

(** [HttpUrl(s)] *)
Definition make_url (s : string) : M Url :=
  if url_valid env s then ret (HttpUrl s) else raise ValidationError.

(** [NCBIClient.fetch_article_details] *)
Definition fetch_article_details (pmid : string) : M (option Article) :=
  params <- alloc (Dict.update BASE_PARAMS
                     [("id", JStr pmid); ("retmode", JStr "xml");
                      ("rettype", JStr "abstract")]) ;;
  let url := settings.EUTILS_BASE_URL ++ "efetch.fcgi" in
  try_except
    (xml_data <- _make_request url params "text" ;;
     if negb (Dyn.truthy xml_data) then ret None
     else
       root <- parse_xml xml_data ;;
       match ElementTree.find root Parser.p_PubmedArticle with
       | None => ret None
       | Some article_node =>
           let title := Parser.parse_title article_node in
           let authors := Parser.parse_authors article_node in
           let journal :=
             Parser.or_empty (ElementTree.findtext article_node Parser.p_JournalTitle (Some "N/A")) in
           let pub_date :=
             Parser.or_empty (ElementTree.findtext article_node Parser.p_Year (Some "N/A")) in
           let volume := ElementTree.findtext article_node Parser.p_Volume None in
           let issue := ElementTree.findtext article_node Parser.p_Issue None in
           let pages := ElementTree.findtext article_node Parser.p_Pages None in
           let mesh_terms := Parser.parse_mesh_terms article_node in
           let doi := Parser.parse_doi article_node in
           let abstract := Parser.parse_abstract article_node in
           link <- make_url ("https://pubmed.ncbi.nlm.nih.gov/" ++ pmid ++ "/") ;;
           ret (Some (mkArticle pmid (Py.strip title) pub_date journal authors
                        abstract mesh_terms doi link volume issue pages))
       end)
    is_ParseError_or_ValidationError
    (fun _ => log ERROR ;;; ret None).

End Client.

(** The state before the first call. *)
Definition initial_state : State := mkState [] [].


(* ===================================================================== *)
(** * The specification's wording, for comparison with the source        *)
(* ===================================================================== *)

Module Spec.
Import ElementTree.

(** The text of an abstract section: all its text, trimmed. *)
Definition section_text (node : Element) : string :=
  Py.strip (Py.join "" (itertext node)).

(** A labelled section renders as [**Label:** text], an unlabelled one as
    its text; the label is trimmed, an empty label counts as none. *)
Definition render_section (node : Element) : string :=
  match get node "Label" with
  | Some (String c l) => "**" ++ Py.strip (String c l) ++ ":** " ++ section_text node
  | _ => section_text node
  end.

(** The abstract as the specification words it: sections with empty text
    are skipped, the others are rendered and joined with a blank line;
    [sentinel] stands in when none remains. *)
Definition abstract_of (sentinel : string) (article_node : Element) : string :=
  match filter (fun n => Py.truthy (section_text n))
               (findall article_node Parser.p_AbstractText) with
  | [] => sentinel
  | sections => Py.join (Parser.newline ++ Parser.newline) (map render_section sections)
  end.

End Spec.


(* ===================================================================== *)
(** * Concrete worlds used in examples                                   *)
(* ===================================================================== *)

Module Examples.
Import ElementTree.

(** A transport that never answers with JSON or text. *)
Definition no_payload (status : Z) : response :=
  mkResponse status (Raise JSONDecodeError) (Raise JSONDecodeError).

(** A 200 response carrying the decoded JSON [v]. *)
Definition ok_json (v : JSON) : response := mkResponse 200 (Ok v) (Raise JSONDecodeError).

(** A 200 response carrying the text [t]. *)
Definition ok_text (t : string) : response := mkResponse 200 (Raise JSONDecodeError) (Ok t).

(** No credential, no cache; the transport answers the n-th request with
    [answers n]. *)
Definition env_of (answers : nat -> Result response) : Env :=
  mkEnv None None (fun n _ _ => answers n) (fun _ => None) (fun _ => None)
        (fun _ => true).

(** No credential, no cache; every request is answered 200 with a text
    that parses to [root]. *)
Definition env_xml (root : Element) : Env :=
  mkEnv None None (fun _ _ _ => Ok (ok_text "<PubmedArticleSet/>"))
        (fun _ => None) (fun _ => Some root) (fun _ => true).

Definition leaf (t : string) (txt : string) : Element :=
  mkElement t [] (Some txt) [] None.

(** An article without abstract. *)
Definition bare_article : Element :=
  mkElement "PubmedArticle" [] None [leaf "ArticleTitle" "T"] None.

Definition bare_doc : Element :=
  mkElement "PubmedArticleSet" [] None [bare_article] None.

(** An article whose abstract has a section labelled Methods and an
    unlabelled one. *)
Definition methods_article : Element :=
  mkElement "PubmedArticle" [] None
    [leaf "ArticleTitle" "T";
     mkElement "Abstract" [] None
       [mkElement "AbstractText" [("Label", "Methods")] (Some "We did X") [] None;
        leaf "AbstractText" "Y"] None] None.

Definition methods_doc : Element :=
  mkElement "PubmedArticleSet" [] None [methods_article] None.

(** The record [fetch_article_details] builds from [methods_doc]. *)
Definition methods_record (pmid : string) : Article :=
  mkArticle pmid "T" "N/A" "N/A" []
    ("**Methods:** We did X" ++ Parser.newline ++ Parser.newline ++ "Y")
    [] None (HttpUrl ("https://pubmed.ncbi.nlm.nih.gov/" ++ pmid ++ "/"))
    None None None.

End Examples.


(* ===================================================================== *)
(** * Relating the state before and after a call                         *)
(* ===================================================================== *)

(** [grows P t t']: the trace [t'] is [t] with further events in front, each
    satisfying [P]. *)
Inductive grows (P : event -> Prop) (t : list event) : list event -> Prop :=
| grows_refl : grows P t t
| grows_step : forall e t', P e -> grows P t t' -> grows P t (e :: t').

(** What [_make_request url params ..] may do when the dict object holds [d]
    and the cache key is [key]: requests go to [url] with the parameters
    [d]; cache reads and writes use [key]. *)
Definition request_event (url : string) (d : dict) (key : string) (e : event) : Prop :=
  match e with
  | EvHttpGet u d' t => u = url /\ d' = d /\ t = 30%Z
  | EvRedisGet k => k = key
  | EvRedisSet k _ ttl => k = key /\ ttl = settings.CACHE_TTL
  | EvSleep _ | EvLog _ => True
  end.

(** The value a computation returns, if it returns. *)
Definition returned {A} (r : Result A * State) : option A :=
  match fst r with Ok a => Some a | Raise _ => None end.


(** [preserves I m]: every run of [m] relates the state before to the state
    after by [I], whether it returns or raises. *)
Definition preserves (I : State -> State -> Prop) {A} (m : M A) : Prop :=
  forall st, I st (snd (m st)).

(** The relation [_make_request] keeps once the credential is in place,
    started in a state where the dict object [params] holds [d]: no dict
    object changes, and the new events are those of a request to [url] with
    the parameters [d] under the cache key [key]. *)
Definition request_frame (url : string) (params : loc) (d : dict) (key : string)
           (st st' : State) : Prop :=
  nth params (heap st) [] = d ->
  heap st' = heap st /\ grows (request_event url d key) (trace st) (trace st').

(** The contents of the dict object after lines 46-47, when it held [d]. *)
Definition with_api_key (env : Env) (d : dict) : dict :=
  match NCBI_API_KEY env with
  | Some (String c k) => Dict.setitem d "api_key" (JStr (String c k))
  | _ => d
  end.

(** The dict objects after lines 46-47. *)
Definition heap_with_api_key (env : Env) (params : loc) (h : list dict) : list dict :=
  match NCBI_API_KEY env with
  | Some (String c k) => list_set h params (with_api_key env (nth params h []))
  | _ => h
  end.

Module Examples2.
(** A credential, no cache, a transport that answers every request 200
    with the JSON value [v]. *)
Definition env_with_key (k : string) (v : JSON) : Env :=
  mkEnv (Some k) None (fun _ _ _ => Ok (Examples.ok_json v))
        (fun _ => None) (fun _ => None) (fun _ => true).

(** A state in which one dict object, [BASE_PARAMS], is allocated. *)
Definition one_object : State := mkState [] [BASE_PARAMS].
End Examples2.


Module SpecSearch.

(** An ASCII letter. *)
Definition is_letter (c : ascii) : bool :=
  let n := N_of_ascii c in
  ((65 <=? n) && (n <=? 90) || (97 <=? n) && (n <=? 122))%N.

Fixpoint all_chars (p : ascii -> bool) (s : string) : bool :=
  match s with
  | String c s' => p c && all_chars p s'
  | EmptyString => true
  end.

(** A recognised bracketed field tag: two to four ASCII letters between
    square brackets. *)
Definition is_field_tag (tag : string) : Prop :=
  exists letters,
    tag = "[" ++ letters ++ "]"
    /\ (2 <= String.length letters <= 4)%nat
    /\ all_chars is_letter letters = true.

(** The query embeds a recognised field tag. *)
Definition embeds_field_tag (query : string) : Prop :=
  exists before tag after, query = before ++ tag ++ after /\ is_field_tag tag.

End SpecSearch.


(** The contents of the parameter mapping [search_pubmed_ids] hands to
    [_make_request] (lines 97-101). *)
Definition search_params (term : string) (max_results : Z)
           (start_date end_date : option string) : dict :=
  let d0 := Dict.update BASE_PARAMS
              [("term", JStr term); ("retmode", JStr "json");
               ("retmax", JStr (Json.str_of_int max_results)); ("sort", JStr "date")] in
  let d1 := if Py.truthy_opt start_date
            then Dict.update d0 [("datetype", JStr "pdat");
                                 ("mindate", JStr (Parser.or_empty start_date))]
            else d0 in
  if Py.truthy_opt end_date
  then Dict.update d1 [("datetype", JStr "pdat");
                       ("maxdate", JStr (Parser.or_empty end_date))]
  else d1.

(** An event that, if it is a request, carries [term] as its search term. *)
Definition carries_term (term : string) (e : event) : Prop :=
  match e with
  | EvHttpGet _ d _ => Dict.lookup d "term" = Some (JStr term)
  | _ => True
  end.


#[global] Arguments _generate_cache_key : simpl never.
#[global] Arguments Hashlib.md5_hexdigest : simpl never.

Module Examples3.

(** The answer of elink for an id without neighbours: a link set that has
    no [linksetdbs] entry. *)
Definition linkset_without_dbs : JSON :=
  JDict [("linksets", JList [JDict [("dbfrom", JStr "pubmed");
                                    ("ids", JList [JStr "1"])]])].

(** The same with an empty [linksetdbs] list. *)
Definition linkset_with_empty_dbs : JSON :=
  JDict [("linksets", JList [JDict [("dbfrom", JStr "pubmed");
                                    ("linksetdbs", JList [])]])].

(** An esummary record. *)
Definition record (uid title : string) : JSON :=
  JDict [("uid", JStr uid); ("pubdate", JStr "2020"); ("source", JStr "J");
         ("authors", JList [JDict [("name", JStr "A B")]]); ("title", JStr title)].

(** An esummary record without title. *)
Definition record_without_title (uid : string) : JSON :=
  JDict [("uid", JStr uid); ("pubdate", JStr "2020"); ("source", JStr "J");
         ("authors", JList [JDict [("name", JStr "A B")]])].

(** An esummary record whose title is a number. *)
Definition record_with_bad_title (uid : string) : JSON :=
  JDict [("uid", JStr uid); ("pubdate", JStr "2020"); ("source", JStr "J");
         ("authors", JList [JDict [("name", JStr "A B")]]); ("title", JNum 7)].

(** An esummary record whose [authors] is null. *)
Definition record_with_null_authors (uid : string) : JSON :=
  JDict [("uid", JStr uid); ("pubdate", JStr "2020"); ("source", JStr "J");
         ("authors", JNull); ("title", JStr "T")].

(** An esummary record whose [authors] lists bare names. *)
Definition record_with_bare_authors (uid : string) : JSON :=
  JDict [("uid", JStr uid); ("pubdate", JStr "2020"); ("source", JStr "J");
         ("authors", JList [JStr "A B"]); ("title", JStr "T")].

(** An esummary answer for the ids 1..4 with [fourth] as fourth record. *)
Definition esummary_result (fourth : JSON) : dict :=
  [("uids", JList [JStr "1"; JStr "2"; JStr "3"; JStr "4"]);
   ("1", record "1" "T1"); ("2", record "2" "T2"); ("3", record "3" "T3");
   ("4", fourth)].

Definition esummary_answer (fourth : JSON) : JSON :=
  JDict [("result", JDict (esummary_result fourth))].

Definition summary (uid title : string) : ArticleSummary :=
  mkArticleSummary uid title "2020" "J" ["A B"].

(** No credential, no cache, every request answered 200 with [v]. *)
Definition env_answering (v : JSON) : Env :=
  Examples.env_of (fun _ => Ok (Examples.ok_json v)).

End Examples3.

Module SpecSummaries.

(** A string field of a record: the default when absent, nothing when the
    value is not a string. *)
Definition str_field (info : dict) (k default : string) : option string :=
  match Dict.lookup info k with
  | None => Some default
  | Some (JStr s) => Some s
  | Some _ => None
  end.

(** The names of a list of author objects. *)
Fixpoint names (l : list JSON) : option (list string) :=
  match l with
  | [] => Some []
  | JDict a :: l' =>
      match str_field a "name" "", names l' with
      | Some n, Some r => Some (n :: r)
      | _, _ => None
      end
  | _ :: _ => None
  end.

Definition author_names (info : dict) : option (list string) :=
  match Dict.lookup info "authors" with
  | None => Some []
  | Some (JList l) => names l
  | Some _ => None
  end.

(** The summary of a record that passes validation. *)
Definition summary_of (info : dict) : option ArticleSummary :=
  match str_field info "uid" "", str_field info "title" "No Title",
        str_field info "pubdate" "", str_field info "source" "",
        author_names info with
  | Some p, Some t, Some d, Some j, Some a => Some (mkArticleSummary p t d j a)
  | _, _, _, _, _ => None
  end.

Definition is_dict (v : JSON) : bool :=
  match v with JDict _ => true | _ => false end.

(** A record is an object whose [authors], when present, is a list of
    objects. *)
Definition record_shape (info : JSON) : bool :=
  match info with
  | JDict i =>
      match Dict.lookup i "authors" with
      | None => true
      | Some (JList l) => forallb is_dict l
      | Some _ => false
      end
  | _ => false
  end.

(** A uid is a scalar, and the record it names (if any) has the shape of a
    record. *)
Definition uid_shape (result : dict) (uid : JSON) : bool :=
  match uid with
  | JStr s => match Dict.lookup result s with
              | Some info => record_shape info
              | None => true
              end
  | JList _ | JDict _ => false
  | _ => true
  end.

(** The record a uid names, when there is one. *)
Definition record_of (result : dict) (uid : JSON) : option dict :=
  match uid with
  | JStr s => match Dict.lookup result s with
              | Some (JDict info) => Some info
              | _ => None
              end
  | _ => None
  end.

(** The summaries of the listed records that pass validation, in the order
    of the uids. *)
Definition summaries_of (result : dict) (uids : list JSON) : list ArticleSummary :=
  flat_map (fun uid => match record_of result uid with
                       | Some info => match summary_of info with
                                      | Some s => [s]
                                      | None => []
                                      end
                       | None => []
                       end) uids.

(** The listed records that fail validation. *)
Definition skipped (result : dict) (uids : list JSON) : list JSON :=
  filter (fun uid => match record_of result uid with
                     | Some info => match summary_of info with
                                    | Some _ => false
                                    | None => true
                                    end
                     | None => false
                     end) uids.

(** What reading the [authors] of a record raises, before validation:
    [for a in authors] needs an iterable, and [a.get] an object. *)
Definition authors_crash (auths : JSON) : option exn :=
  match auths with
  | JNull | JBool _ | JNum _ => Some TypeError
  | JList l => if forallb is_dict l then None else Some AttributeError
  | JStr EmptyString => None
  | JStr _ => Some AttributeError
  | JDict [] => None
  | JDict _ => Some AttributeError
  end.

(** What reading a record raises: [info.get] needs an object. *)
Definition record_crash (info : JSON) : option exn :=
  match info with
  | JDict i => match Dict.lookup i "authors" with
               | None => None
               | Some auths => authors_crash auths
               end
  | _ => Some AttributeError
  end.

(** What visiting a uid raises: a list or an object is not hashable, and
    the record the uid names is read. *)
Definition uid_crash (result : dict) (uid : JSON) : option exn :=
  match uid with
  | JStr s => match Dict.lookup result s with
              | Some info => record_crash info
              | None => None
              end
  | JList _ | JDict _ => Some TypeError
  | _ => None
  end.

(** What the loop over the uids raises: what the first uid raises whose
    visit raises at all. *)
Fixpoint first_crash (result : dict) (uids : list JSON) : option exn :=
  match uids with
  | [] => None
  | uid :: rest =>
      match uid_crash result uid with
      | Some e => Some e
      | None => first_crash result rest
      end
  end.

End SpecSummaries.


(** The parameters of the first request of [find_related_ids]. *)
Definition elink_params (source_pmid : string) : dict :=
  Dict.update BASE_PARAMS
    [("id", JStr source_pmid); ("linkname", JStr "pubmed_pubmed");
     ("cmd", JStr "neighbor_history")].

(** The answer to the first request names no link set: it is empty or
    [None], or an object whose [linksets] is absent, empty or [None]. *)
Definition without_linksets (data : JSON) : Prop :=
  Dyn.truthy data = false
  \/ exists d, data = JDict d
               /\ match Dict.lookup d "linksets" with
                  | Some ls => Dyn.truthy ls = false
                  | None => True
                  end.


(** The parameters of the request of [get_summaries]. *)
Definition esummary_params (pmids : list string) : dict :=
  Dict.update BASE_PARAMS [("id", JStr (Py.join "," pmids)); ("retmode", JStr "json")].


(* ===================================================================== *)
(** * Vocabulary of the retry policy                                     *)
(* ===================================================================== *)

(** The cache stays out of the way: none is configured, or every look-up
    finds nothing (or fails with a [RedisError]) and every write succeeds
    or fails with a [RedisError]. *)
Definition cache_silent (env : Env) : Prop :=
  match redis_client env with
  | None => True
  | Some r =>
      (forall n key, match redis_get r n key with
                     | Ok (Some s) => s = ""
                     | Ok None => True
                     | Raise e => is_RedisError e = true
                     end)
      /\ (forall n key v ttl, match redis_set r n key v ttl with
                              | Ok _ => True
                              | Raise e => is_RedisError e = true
                              end)
  end.

(** A status the source retries. *)
Definition retry_status (s : Z) : Prop := (s = 429 \/ 500 <= s)%Z.

(** The answer is a response with a status the source retries. *)
Definition transient (answer : Result response) : Prop :=
  exists r, answer = Ok r /\ retry_status (status r).

(** The answer is an error the source does not retry: a response with
    another error status, or a client error raised by the transport. *)
Definition fatal (answer : Result response) : Prop :=
  (exists r, answer = Ok r /\ (400 <= status r)%Z /\ ~ retry_status (status r))
  \/ (exists e, answer = Raise e /\ is_ClientError e = true /\ retryable e = false).

(** What [_make_request] returns for a successful response. *)
Definition decoded (response_type : string) (r : response) : Result JSON :=
  if String.eqb response_type "json" then json r
  else match text r with Ok t => Ok (JStr t) | Raise e => Raise e end.

(** The sleep, if any, after the failed attempt [attempt]. *)
Definition delay_events (attempt : nat) : list event :=
  if (attempt <? MAX_RETRIES - 1)%nat
  then [EvSleep (RETRY_DELAY ^ Z.of_nat attempt)] else [].

(** The events (latest first) of [n] failed attempts to reach [url] with
    the parameters [d], the first of them with index [attempt]. *)
Fixpoint failure_events (url : string) (d : dict) (attempt n : nat) : list event :=
  match n with
  | O => []
  | S n' =>
      (failure_events url d (S attempt) n'
       ++ delay_events attempt ++ [EvLog WARNING; EvHttpGet url d 30])%list
  end.

(** The back-off delays after the attempts [0 .. n-1]. *)
Definition backoff (n : nat) : list Z :=
  map (fun k => (RETRY_DELAY ^ Z.of_nat k)%Z) (seq 0 n).


Module Examples4.

(** No credential, no cache; the first [n] requests are answered with
    status 500, the later ones 200 with the JSON string [ok]. *)
Definition failing_then_ok (n : nat) : Env :=
  Examples.env_of (fun k => if (k <? n)%nat then Ok (Examples.no_payload 500)
                            else Ok (Examples.ok_json (JStr "ok"))).

(** The first request fails in the transport, the later ones are answered
    200 with the JSON string [ok]. *)
Definition disconnect_then_ok : Env :=
  Examples.env_of (fun k => if (k <? 1)%nat then Raise ClientConnectionError
                            else Ok (Examples.ok_json (JStr "ok"))).

(** Every request times out. *)
Definition timing_out : Env :=
  Examples.env_of (fun _ => Raise TimeoutError).

End Examples4.


(* ===================================================================== *)
(** * Vocabulary of the no-raise boundary                                *)
(* ===================================================================== *)

(** A value the transport accepts in a parameter mapping: a string or a
    number.  For [None], a bool, a list or a dict, [session.get] raises
    [TypeError] while it builds the URL, before anything is sent. *)
Definition query_value (v : JSON) : bool :=
  match v with JStr _ | JNum _ => true | _ => false end.

(** A parameter mapping the transport accepts. *)
Definition sendable (d : dict) : bool :=
  forallb (fun kv => query_value (snd kv)) d.

(** The world fails only in the ways the source catches: asked with a
    parameter mapping it accepts, the transport raises nothing but
    [aiohttp.ClientError], and so does the decoding of a successful
    response; the cache raises nothing but [RedisError], and what the cache
    holds is valid JSON. *)
Definition civil (env : Env) : Prop :=
  (forall n url d e,
      sendable d = true -> session_get env n url d = Raise e -> is_ClientError e = true)
  /\ (forall n url d r e,
         sendable d = true ->
         session_get env n url d = Ok r -> (status r < 400)%Z ->
         json r = Raise e \/ text r = Raise e -> is_ClientError e = true)
  /\ match redis_client env with
     | None => True
     | Some r =>
         (forall n key e, redis_get r n key = Raise e -> is_RedisError e = true)
         /\ (forall n key v ttl e,
                redis_set r n key v ttl = Raise e -> is_RedisError e = true)
         /\ (forall n key s,
                redis_get r n key = Ok (Some s) -> s <> "" -> json_loads env s <> None)
     end.

(** The values [_make_request] can hand to its caller for the request of
    [url] with the parameters [d]: [None], the payload of a successful
    response to that request decoded as asked, or the decoded entry the
    cache holds under the key of that request. *)
Inductive delivers (env : Env) (url : string) (d : dict) (response_type : string)
  : JSON -> Prop :=
| delivers_none : delivers env url d response_type JNull
| delivers_json : forall n r v,
    String.eqb response_type "json" = true ->
    session_get env n url d = Ok r -> (status r < 400)%Z -> json r = Ok v ->
    delivers env url d response_type v
| delivers_text : forall n r t,
    String.eqb response_type "json" = false ->
    session_get env n url d = Ok r -> (status r < 400)%Z -> text r = Ok t ->
    delivers env url d response_type (JStr t)
| delivers_cached : forall c n s v,
    redis_client env = Some c ->
    redis_get c n (_generate_cache_key url d) = Ok (Some s) -> s <> "" ->
    json_loads env s = Some v ->
    delivers env url d response_type v.

(** [returns_or C Q m]: every run of [m] returns a value satisfying [Q] or
    raises an exception of the class [C]. *)
Definition returns_or {A} (C : exn -> bool) (Q : A -> Prop) (m : M A) : Prop :=
  forall st,
    (exists a st', m st = (Ok a, st') /\ Q a)
    \/ (exists e st', m st = (Raise e, st') /\ C e = true).

(** No exception at all. *)
Definition never (e : exn) : bool := false.

Module Shape.

Definition falsy (v : JSON) : bool := negb (Dyn.truthy v).

(** An esearch answer: nothing, or an object whose [esearchresult], if any,
    is an object. *)
Definition esearch (v : JSON) : bool :=
  falsy v ||
  match v with
  | JDict d => match Dict.lookup d "esearchresult" with
               | None | Some (JDict _) => true
               | Some _ => false
               end
  | _ => false
  end.

(** An espell answer: nothing, or an object whose [es-result], if any, is
    an object whose [corrected], if any, is a string or null. *)
Definition espell (v : JSON) : bool :=
  falsy v ||
  match v with
  | JDict d => match Dict.lookup d "es-result" with
               | None => true
               | Some (JDict e) => match Dict.lookup e "corrected" with
                                   | None | Some JNull | Some (JStr _) => true
                                   | Some _ => false
                                   end
               | Some _ => false
               end
  | _ => false
  end.

(** An esummary answer: nothing, or an object whose [result], if any, is an
    object whose [uids], if any, is a list of uids of the right shape. *)
Definition esummary (v : JSON) : bool :=
  falsy v ||
  match v with
  | JDict d => match Dict.lookup d "result" with
               | None => true
               | Some (JDict res) =>
                   match Dict.lookup res "uids" with
                   | None => true
                   | Some (JList us) => forallb (SpecSummaries.uid_shape res) us
                   | Some _ => false
                   end
               | Some _ => false
               end
  | _ => false
  end.

(** An elink answer: nothing, or an object without link sets, or one whose
    first link set is an object with a [webenv] and a non-empty list of
    objects as [linksetdbs], the first of which has a [querykey]; both are
    strings or numbers, as the second request needs them. *)
Definition elink (v : JSON) : bool :=
  falsy v ||
  match v with
  | JDict d => match Dict.lookup d "linksets" with
               | None => true
               | Some ls =>
                   falsy ls ||
                   match ls with
                   | JList (JDict linkset :: _) =>
                       match Dict.lookup linkset "webenv",
                             Dict.lookup linkset "linksetdbs" with
                       | Some webenv, Some (JList (JDict db :: _)) =>
                           query_value webenv
                           && match Dict.lookup db "querykey" with
                              | Some query_key => query_value query_key
                              | None => false
                              end
                       | _, _ => false
                       end
                   | _ => false
                   end
               end
  | _ => false
  end.

(** An efetch answer: nothing, or a text. *)
Definition efetch (v : JSON) : bool :=
  falsy v || match v with JStr _ => true | _ => false end.

End Shape.

Module Examples5.

(** A 200 response whose payload decodes either way. *)
Definition ok_both (v : JSON) (t : string) : response := mkResponse 200 (Ok v) (Ok t).

(** No credential, no cache; the first request is answered 503, the later
    ones 200 with an esearch result. *)
Definition busy_then_ok : Env :=
  Examples.env_of
    (fun k => if (k <? 1)%nat then Ok (Examples.no_payload 503)
              else Ok (ok_both (JDict [("esearchresult",
                                        JDict [("idlist", JList [JStr "1"; JStr "2"])])])
                               "text")).

End Examples5.


Module Examples6.

(** Every request is answered 200 with a JSON array. *)
Definition answering_array : Env :=
  Examples3.env_answering (JList [JNum 1]).

End Examples6.


(** The value of a lower-case hexadecimal digit. *)
Definition unhex (c : ascii) : Z :=
  let n := Z.of_N (N_of_ascii c) in
  if (n <? 58)%Z then (n - 48)%Z else (n - 87)%Z.


Module Flat.

(** A parameter mapping whose values are all strings, as the gateway
    operations build them. *)
Definition flat (p : dict) : bool :=
  forallb (fun kv => match snd kv with JStr _ => true | _ => false end) p.

(** Its items as pairs of strings. *)
Definition strings_of (p : dict) : list (string * string) :=
  flat_map (fun kv => match snd kv with JStr s => [(fst kv, s)] | _ => [] end) p.

(** The text of one item in the output of [json.dumps]. *)
Definition item_text (kv : string * string) : string :=
  Json.quote (fst kv) ++ ": " ++ Json.quote (snd kv).

(** The first character of an escaped string and what follows it: the
    inverse of [Json.escape_char].  Nothing at a double quote. *)
Definition unescape1 (s : string) : option (ascii * string) :=
  match s with
  | String c rest =>
      if (N_of_ascii c =? 92)%N then
        match rest with
        | String e rest' =>
            let m := N_of_ascii e in
            if (m =? 92)%N then Some (ascii_of_N 92, rest')
            else if (m =? 34)%N then Some (ascii_of_N 34, rest')
            else if (m =? 98)%N then Some (ascii_of_N 8, rest')
            else if (m =? 102)%N then Some (ascii_of_N 12, rest')
            else if (m =? 110)%N then Some (ascii_of_N 10, rest')
            else if (m =? 114)%N then Some (ascii_of_N 13, rest')
            else if (m =? 116)%N then Some (ascii_of_N 9, rest')
            else if (m =? 117)%N then
              match rest' with
              | String h1 (String h2 (String h3 (String h4 rest''))) =>
                  Some (ascii_of_N
                          (Z.to_N (((unhex h1 * 16 + unhex h2) * 16 + unhex h3) * 16
                                   + unhex h4)%Z),
                        rest'')
              | _ => None
              end
            else None
        | EmptyString => None
        end
      else if (N_of_ascii c =? 34)%N then None
      else Some (c, rest)
  | EmptyString => None
  end.

(** The code point encoded by a two-byte UTF-8 sequence. *)
Definition utf8_decode2 (b1 b2 : Z) : Z :=
  (Z.land b1 0x1f * 64 + Z.land b2 0x3f)%Z.

End Flat.


(* ===================================================================== *)
(** * Vocabulary of the attempts of [_make_request]                      *)
(* ===================================================================== *)

(** [quiet st st']: from [st] to [st'] no request was sent, nothing slept
    and no dict object changed. *)
Definition quiet (st st' : State) : Prop :=
  requests (trace st') = requests (trace st)
  /\ sleeps (trace st') = sleeps (trace st)
  /\ count is_http (trace st') = count is_http (trace st)
  /\ heap st' = heap st.

(** The seconds a list of delays adds up to. *)
Definition total (delays : list Z) : Z := fold_right Z.add 0%Z delays.

(** Lines 79-89: how the handler ends an attempt in which [e] was raised.
    An exception that is no [aiohttp.ClientError] is not handled and leaves
    the function. *)
Definition on_error (e : exn) : Result flow :=
  if is_ClientError e then Ok (if retryable e then Continue else Break) else Raise e.

(** Lines 66-69: what the body of an attempt obtains from the [answer] of
    the transport. *)
Definition reply (response_type : string) (answer : Result response) : Result JSON :=
  match answer with
  | Raise e => Raise e
  | Ok r =>
      if (400 <=? status r)%Z then Raise (ClientResponseError (status r))
      else decoded response_type r
  end.

(** Lines 63-89: how an attempt ends when the transport gives [answer] and
    the cache does not interfere. *)
Definition judge (response_type : string) (answer : Result response) : Result flow :=
  match reply response_type answer with
  | Ok v => Ok (Return v)
  | Raise e => on_error e
  end.

(** Lines 62-92: the payload the loop obtains, if any, when [n] attempts
    remain and the transport gives [answer k], [answer (k + 1)], ... to
    them. *)
Fixpoint policy (response_type : string) (answer : nat -> Result response)
         (k n : nat) : Result (option JSON) :=
  match n with
  | O => Ok None
  | S n' =>
      match judge response_type (answer k) with
      | Ok (Return v) => Ok (Some v)
      | Ok Continue => policy response_type answer (S k) n'
      | Ok Break => Ok None
      | Raise e => Raise e
      end
  end.

(** What [_make_request] returns then: the payload, or [None]. *)
Definition result_of (o : Result (option JSON)) : Result JSON :=
  match o with
  | Ok (Some v) => Ok v
  | Ok None => Ok JNull
  | Raise e => Raise e
  end.

(** The cache writes so far. *)
Definition writes (t : list event) : list (string * string * Z) :=
  flat_map (fun e => match e with EvRedisSet k v ttl => [(k, v, ttl)] | _ => [] end) (rev t).


(** What a successful attempt writes to the cache, when there is a cache:
    lines 71-73. *)
Definition stored (env : Env) (key : string) (v : JSON) : list (string * string * Z) :=
  match redis_client env with
  | Some _ => [(key, Json.dumps false v, settings.CACHE_TTL)]
  | None => []
  end.


(** Lines 62-92: how many attempts in a row end with [continue], when [n]
    attempts remain and the transport gives [answer k], [answer (k + 1)],
    ... to them. *)
Fixpoint retries (response_type : string) (answer : nat -> Result response)
         (k n : nat) : nat :=
  match n with
  | O => O
  | S n' =>
      match judge response_type (answer k) with
      | Ok Continue => S (retries response_type answer (S k) n')
      | _ => O
      end
  end.


Module Examples7.

(** A cache that is down: every look-up and every write fails with a
    [RedisError]. *)
Definition cache_down : Redis :=
  mkRedis (fun _ _ => Raise RedisError) (fun _ _ _ _ => Raise RedisError).

(** A cache that holds nothing and accepts every write. *)
Definition cache_empty : Redis :=
  mkRedis (fun _ _ => Ok None) (fun _ _ _ _ => Ok tt).

(** A cache that answers every look-up with the text [s]. *)
Definition cache_holding (s : string) : Redis :=
  mkRedis (fun _ _ => Ok (Some s)) (fun _ _ _ _ => Ok tt).

(** A cache that is empty at the first look-up and holds the text [s]
    afterwards. *)
Definition cache_filling (s : string) : Redis :=
  mkRedis (fun n _ => if (n <? 1)%nat then Ok None else Ok (Some s))
          (fun _ _ _ _ => Ok tt).

(** No credential, the cache [r]; the transport answers the n-th request
    with [answers n], and [json.loads] decodes exactly the text [true]. *)
Definition env_with_cache (r : Redis) (answers : nat -> Result response) : Env :=
  mkEnv None (Some r) (fun n _ _ => answers n)
        (fun s => if String.eqb s "true" then Some (JBool true) else None)
        (fun _ => None) (fun _ => true).

(** The first request is answered 503, the later ones 200 with the JSON
    string [ok]. *)
Definition busy_once (k : nat) : Result response :=
  if (k <? 1)%nat then Ok (Examples.no_payload 503) else Ok (Examples.ok_json (JStr "ok")).

End Examples7.


(* ===================================================================== *)
(** * Vocabulary of the gateway operations                               *)
(* ===================================================================== *)

(** The parameters of the request of [check_spelling] (line 108). *)
Definition espell_params (query : string) : dict :=
  Dict.update BASE_PARAMS [("term", JStr query); ("retmode", JStr "json")].

(** The parameters of the request of [fetch_article_details] (line 158). *)
Definition efetch_params (pmid : string) : dict :=
  Dict.update BASE_PARAMS
    [("id", JStr pmid); ("retmode", JStr "xml"); ("rettype", JStr "abstract")].

(** The parameters of the second request of [find_related_ids] (line 152). *)
Definition history_params (query_key webenv : JSON) (max_results : Z) : dict :=
  Dict.update BASE_PARAMS
    [("query_key", query_key); ("WebEnv", webenv); ("retmode", JStr "json");
     ("retmax", JStr (Json.str_of_int max_results))].

(** The state in which a gateway operation calls [_make_request]: the
    parameter mapping [d] is a new dict object. *)
Definition with_params (st : State) (d : dict) : State :=
  mkState (trace st) (heap st ++ [d])%list.


Module Examples8.

(** The answer of elink with a history entry: the key [1] on the history
    server [W]. *)
Definition linkset_with_history : JSON :=
  JDict [("linksets",
          JList [JDict [("dbfrom", JStr "pubmed");
                        ("linksetdbhistories", JList []);
                        ("linksetdbs", JList [JDict [("querykey", JStr "1")]]);
                        ("webenv", JStr "W")]])].

(** The answer of esearch with the ids [2] and [3]. *)
Definition idlist_2_3 : JSON :=
  JDict [("esearchresult", JDict [("idlist", JList [JStr "2"; JStr "3"])])].

(** No credential, no cache; the first request is answered with
    [first], the later ones with [later]. *)
Definition env_answering_twice (first later : JSON) : Env :=
  Examples.env_of (fun k => if (k <? 1)%nat then Ok (Examples.ok_json first)
                            else Ok (Examples.ok_json later)).

End Examples8.


(* ===================================================================== *)
(** * Vocabulary of the article record and the citation                  *)
(* ===================================================================== *)

(** The text begins with white space. *)
Definition starts_with_space (s : string) : bool :=
  match s with
  | String c _ => Py.isspace c
  | EmptyString => false
  end.

(** The text ends with white space. *)
Fixpoint ends_with_space (s : string) : bool :=
  match s with
  | String c EmptyString => Py.isspace c
  | String _ s' => ends_with_space s'
  | EmptyString => false
  end.

(** No white space at either end. *)
Definition trimmed (s : string) : Prop :=
  starts_with_space s = false /\ ends_with_space s = false.

(** The record [fetch_article_details] builds from the first
    [PubmedArticle] node (lines 170-212). *)
Definition article_of (pmid : string) (article_node : ElementTree.Element) : Article :=
  mkArticle pmid
    (Py.strip (Parser.parse_title article_node))
    (Parser.or_empty (ElementTree.findtext article_node Parser.p_Year (Some "N/A")))
    (Parser.or_empty (ElementTree.findtext article_node Parser.p_JournalTitle (Some "N/A")))
    (Parser.parse_authors article_node)
    (Parser.parse_abstract article_node)
    (Parser.parse_mesh_terms article_node)
    (Parser.parse_doi article_node)
    (HttpUrl ("https://pubmed.ncbi.nlm.nih.gov/" ++ pmid ++ "/"))
    (ElementTree.findtext article_node Parser.p_Volume None)
    (ElementTree.findtext article_node Parser.p_Issue None)
    (ElementTree.findtext article_node Parser.p_Pages None).


(** The character occurs in the text. *)
Fixpoint contains_char (c : ascii) (s : string) : bool :=
  match s with
  | String d s' => Ascii.eqb c d || contains_char c s'
  | EmptyString => false
  end.

(** The title part of [Article.to_ama_citation] (lines 35-37). *)
Definition ama_title (title : string) : string :=
  let title0 := Py.strip (Py.replace "*" "" title) in
  if Py.endswith title0 "." then title0 else title0 ++ ".".

(** The article with its list of authors emptied. *)
Definition without_authors (a : Article) : Article :=
  mkArticle (pmid a) (title a) (pub_date a) (journal a) [] (abstract a)
            (mesh_terms a) (doi a) (link a) (volume a) (issue a) (pages a).

Module Examples9.
Import ElementTree.

(** An article whose title has markup and surrounding white space, whose
    second author has no last name and whose second MeSH heading has an
    empty descriptor. *)
Definition article : Element :=
  mkElement "PubmedArticle" [] None
    [mkElement "ArticleTitle" [] (Some "  A ")
       [mkElement "i" [] (Some "b") [] (Some " c ")] None;
     mkElement "AuthorList" [] None
       [mkElement "Author" [] None
          [Examples.leaf "LastName" "Doe"; Examples.leaf "Initials" "J"] None;
        mkElement "Author" [] None [Examples.leaf "Initials" "K"] None] None;
     mkElement "MeshHeadingList" [] None
       [mkElement "MeshHeading" [] None [Examples.leaf "DescriptorName" "Humans"] None;
        mkElement "MeshHeading" [] None [Examples.leaf "DescriptorName" ""] None] None]
    None.

Definition doc : Element := mkElement "PubmedArticleSet" [] None [article] None.

(** The article of the specification's citation example, with [n] authors
    named [A]. *)
Definition cited (n : nat) : Article :=
  mkArticle "1" "Foo" "2020" "J" (repeat "A" n) "" [] None (HttpUrl "")
            (Some "5") (Some "2") (Some "10-20").

End Examples9.


(* ===================================================================== *)
(** * main.py: the routes that only sequence the client                  *)
(* ===================================================================== *)

Module Main.

(** [client.get_summaries(pmids)] on the value [search_pubmed_ids]
    returned: line 116 of the client tests it for truth, line 118 joins its
    items, which [str.join] requires to be strings. *)
Definition get_summaries_of (env : Env) (pmids : JSON) : M (list ArticleSummary) :=
  if negb (Dyn.truthy pmids) then ret []
  else
    items <- lift (Dyn.iterate pmids) ;;
    strs <- lift (map_result (fun v => match v with
                                       | JStr s => Ok s
                                       | _ => Raise TypeError
                                       end) items) ;;
    get_summaries env strs.

(** The route [search_summaries] (lines 143-144). *)
Definition search_summaries (env : Env) (query : string) (search_field : option string)
           (max_results : Z) (start_date end_date : option string)
  : M (list ArticleSummary) :=
  pmids <- search_pubmed_ids env query search_field max_results start_date end_date ;;
  get_summaries_of env pmids.

(** [xs[:n]] for any integer [n]: a negative [n] counts from the end. *)
Definition slice_to {A} (n : Z) (xs : list A) : list A :=
  if (n <? 0)%Z then firstn (List.length xs - Z.to_nat (- n)) xs
  else firstn (Z.to_nat n) xs.

(** Line 214 of the route [semantic_search]: the related ids other than
    the source id, cut to [max_results]. *)
Definition similar_pmids (similar : JSON) (pmid : string) (max_results : Z)
  : Result (list JSON) :=
  match Dyn.iterate similar with
  | Ok items =>
      Ok (slice_to max_results (filter (fun rel_pmid => negb (Dyn.eqb_str rel_pmid pmid)) items))
  | Raise e => Raise e
  end.

End Main.


(** A lower-case hexadecimal digit. *)
Definition is_hex_digit (c : ascii) : bool :=
  let n := N_of_ascii c in
  ((48 <=? n) && (n <=? 57) || (97 <=? n) && (n <=? 102))%N.


Module Examples10.

(** A 200 response with a JSON body. *)
Definition json_page (v : JSON) : response :=
  mkResponse 200 (Ok v) (Ok (Json.dumps false v)).

(** A 200 response with an XML body: [response.json()] rejects its content
    type with [ContentTypeError], a [ClientResponseError]. *)
Definition xml_page (t : string) : response :=
  mkResponse 200 (Raise (ClientResponseError 200)) (Ok t).

(** The answer of espell with a correction. *)
Definition espell_answer : JSON :=
  JDict [("es-result", JDict [("corrected", JStr "cancer")])].

(** The answer of elink with a history entry whose link set names no
    history server. *)
Definition linkset_without_webenv : JSON :=
  JDict [("linksets",
          JList [JDict [("dbfrom", JStr "pubmed");
                        ("linksetdbs", JList [JDict [("querykey", JStr "1")]])]])].

(** What each endpoint answers, [links] being the answer of elink. *)
Definition page (links : JSON) (url : string) : response :=
  if String.eqb url (settings.EUTILS_BASE_URL ++ "esearch.fcgi")
  then json_page Examples8.idlist_2_3
  else if String.eqb url (settings.EUTILS_BASE_URL ++ "espell.fcgi")
  then json_page espell_answer
  else if String.eqb url (settings.EUTILS_BASE_URL ++ "esummary.fcgi")
  then json_page (Examples3.esummary_answer (Examples3.record_with_bad_title "4"))
  else if String.eqb url (settings.EUTILS_BASE_URL ++ "elink.fcgi")
  then json_page links
  else if String.eqb url (settings.EUTILS_BASE_URL ++ "efetch.fcgi")
  then xml_page "<PubmedArticleSet/>"
  else Examples.no_payload 404.

(** A cache that is empty at the first look-up, holds an empty object
    afterwards and refuses every write. *)
Definition cache : Redis :=
  mkRedis (fun n _ => if (n <? 1)%nat then Ok None else Ok (Some "{}"))
          (fun _ _ _ _ => Raise RedisError).

(** A world with a credential.  The transport rejects a parameter mapping
    it cannot send with [TypeError], is busy at the first request (503) and
    answers every endpoint with its page afterwards; [json.loads] decodes
    the empty object and the array [[1]]; every text parses to the document
    of [Examples9]. *)
Definition world_of (redis : option Redis) (links : JSON) : Env :=
  mkEnv (Some "KEY") redis
        (fun n url d =>
           if sendable d then
             if (n <? 1)%nat then Ok (Examples.no_payload 503) else Ok (page links url)
           else Raise TypeError)
        (fun s => if String.eqb s "{}" then Some (JDict [])
                  else if String.eqb s "[1]" then Some (JList [JNum 1])
                  else None)
        (fun _ => Some Examples9.doc) (fun _ => true).

(** That world with the cache above and an elink that names a history. *)
Definition world : Env := world_of (Some cache) Examples8.linkset_with_history.

End Examples10.


(* ===================================================================== *)
(** * Checks of the library models                                       *)
(* ===================================================================== *)

(** The RFC 1321 test suite and block-boundary cases. *)
Example md5_empty :
  Hashlib.md5_hexdigest (Hashlib.encode "") = "d41d8cd98f00b204e9800998ecf8427e".
Proof. vm_compute. reflexivity. Qed.

Example md5_abc :
  Hashlib.md5_hexdigest (Hashlib.encode "abc") = "900150983cd24fb0d6963f7d28e17f72".
Proof. vm_compute. reflexivity. Qed.

Example md5_one_block :
  Hashlib.md5_hexdigest (repeat 97%Z 64) = "014842d480b571495a4a0363793f7367".
Proof. vm_compute. reflexivity. Qed.

Example md5_padding_spills :
  Hashlib.md5_hexdigest (repeat 97%Z 56) = "3b0c8ac703f828b04c6c197006d17218".
Proof. vm_compute. reflexivity. Qed.

Example md5_two_byte_code_point :
  Hashlib.md5_hexdigest (Hashlib.encode (String (ascii_of_N 233) ""))
  = "66ddcd97cfdeabb2f6fb8a999b4bc76f".
Proof. vm_compute. reflexivity. Qed.

(** A key computed by the source for a two-entry mapping given in reverse
    key order, one value holding a double quote and a non-ASCII letter. *)
Example cache_key_sample :
  _generate_cache_key "u"
    [("b", JStr "1");
     ("a", JStr (String "x" (String (ascii_of_N 34) (String "y" (String (ascii_of_N 233) "")))))]
  = "pubmed_cache:159cb5152abbfd16dd8689fce598c024".
Proof. vm_compute. reflexivity. Qed.

(* ===================================================================== *)
(** * Citation formatter                                                 *)
(* ===================================================================== *)

Lemma authors_str_at_most_six (a : Article) :
  (List.length (authors a) <= 6)%nat ->
  authors_str a = Py.join ", " (authors a).
Proof.
  intros H. unfold authors_str.
  destruct (authors a) as [|x l] eqn:E; [reflexivity|].
  destruct (Nat.ltb_spec 6 (List.length (x :: l))); [lia | reflexivity].
Qed.

Lemma authors_str_more_than_six (a : Article) :
  (6 < List.length (authors a))%nat ->
  authors_str a = Py.join ", " (firstn 3 (authors a)) ++ ", et al".
Proof.
  intros H. unfold authors_str.
  destruct (authors a) as [|x l] eqn:E; [simpl in H; lia|].
  destruct (Nat.ltb_spec 6 (List.length (x :: l))); [reflexivity | lia].
Qed.

(** C6. For the article of the specification's example (seven authors A..G,
    title Foo, journal J, year 2020, volume 5, issue 2, pages 10-20, whatever
    its other fields) [to_ama_citation] puts a space between the year part
    [2020;] and the volume part [5(2):10-20.]: the parts are joined with
    single spaces.  The result therefore differs from the string the
    specification gives, and from the format of the source's own comment
    ([Year;Volume(Issue):Pages.]). *)
Theorem to_ama_citation_year_volume_space :
  forall (p ab : string) (mesh : list string) (d : option string) (l : Url),
    let a := mkArticle p "Foo" "2020" "J" ["A"; "B"; "C"; "D"; "E"; "F"; "G"]
               ab mesh d l (Some "5") (Some "2") (Some "10-20") in
    to_ama_citation a = "A, B, C, et al Foo. *J*. 2020; 5(2):10-20."
    /\ to_ama_citation a <> "A, B, C, et al Foo. *J*. 2020;5(2):10-20.".
Proof.
  intros p ab mesh d l a. split; [reflexivity | discriminate].
Qed.


(* ===================================================================== *)
(** * Article parser                                                     *)
(* ===================================================================== *)

Lemma append_nonempty (s t : string) : Py.truthy s = true -> Py.truthy (s ++ t) = true.
Proof. destruct s; [discriminate | reflexivity]. Qed.

Lemma join_nonempty (sep x : string) (l : list string) :
  Py.truthy x = true -> Py.truthy (Py.join sep (x :: l)) = true.
Proof.
  intros H. unfold Py.join. simpl. destruct l; [assumption|].
  now apply append_nonempty.
Qed.

(** What the loop of [fetch_article_details] appends for one node. *)
Lemma loop_part_is_render (node : ElementTree.Element) :
  (if Py.truthy_opt (ElementTree.get node "Label")
   then "**" ++ Py.strip (Parser.or_empty (ElementTree.get node "Label")) ++ ":** "
        ++ Spec.section_text node
   else Spec.section_text node) = Spec.render_section node.
Proof.
  unfold Spec.render_section.
  destruct (ElementTree.get node "Label") as [[|c l]|]; reflexivity.
Qed.

Lemma render_section_nonempty (node : ElementTree.Element) :
  Py.truthy (Spec.section_text node) = true ->
  Py.truthy (Spec.render_section node) = true.
Proof.
  intros H. unfold Spec.render_section.
  destruct (ElementTree.get node "Label") as [[|c l]|]; auto.
Qed.

(** The loop, started with [acc], appends the rendering of every node whose
    trimmed text is not empty. *)
Lemma abstract_loop_spec (nodes : list ElementTree.Element) :
  forall acc,
    Parser.abstract_loop nodes acc
    = (acc ++ map Spec.render_section
         (filter (fun n => Py.truthy (Spec.section_text n)) nodes))%list.
Proof.
  induction nodes as [|node rest IH]; intros acc; simpl.
  - now rewrite app_nil_r.
  - fold (Spec.section_text node).
    destruct (Py.truthy (Spec.section_text node)) eqn:E; simpl.
    + rewrite IH, loop_part_is_render, <- app_assoc. reflexivity.
    + apply IH.
Qed.

Lemma parse_abstract_spec (article_node : ElementTree.Element) :
  Parser.parse_abstract article_node
  = Spec.abstract_of "Abstract not available." article_node.
Proof.
  unfold Parser.parse_abstract, Spec.abstract_of.
  rewrite abstract_loop_spec. simpl.
  destruct (filter _ _) as [|n l] eqn:E; [reflexivity|].
  unfold Py.or_else.
  assert (Hn : Py.truthy (Spec.section_text n) = true).
  { assert (In n (n :: l)) as Hin by now left.
    rewrite <- E in Hin. apply filter_In in Hin. tauto. }
  change (map Spec.render_section (n :: l))
    with (Spec.render_section n :: map Spec.render_section l).
  rewrite join_nonempty; [reflexivity|].
  now apply render_section_nonempty.
Qed.

(** How a successful run of [fetch_article_details] came about. *)
Lemma fetch_article_details_inv (env : Env) (pmid : string) (st : State) (a : Article) :
  fst (fetch_article_details env pmid st) = Ok (Some a) ->
  exists xml root article_node,
    fromstring env xml = Some root
    /\ ElementTree.find root Parser.p_PubmedArticle = Some article_node
    /\ abstract a = Parser.parse_abstract article_node
    /\ link a = HttpUrl ("https://pubmed.ncbi.nlm.nih.gov/" ++ pmid ++ "/").
Proof.
  unfold fetch_article_details, bind, try_except, alloc.
  cbv beta iota zeta.
  match goal with |- context [_make_request ?e ?u ?p ?t ?s] =>
    destruct (_make_request e u p t s) as [[xml_data|e1] st1] end.
  2:{ destruct (is_ParseError_or_ValidationError e1); simpl; discriminate. }
  destruct (Dyn.truthy xml_data); simpl; [|discriminate].
  unfold parse_xml.
  destruct xml_data as [| | |xml| |]; simpl; try discriminate.
  destruct (fromstring env xml) as [root|] eqn:Hroot; simpl; [|discriminate].
  destruct (ElementTree.find root Parser.p_PubmedArticle) as [node|] eqn:Hnode;
    simpl; [|discriminate].
  unfold make_url, bind, ret, raise.
  destruct (url_valid env _); simpl; [|discriminate].
  intros H. injection H as <-.
  exists xml, root, node. simpl. auto.
Qed.


(** C5, as stated, fails: for an article without abstract section the
    source yields the sentinel [Abstract not available.] with a capital A,
    not the all-lowercase sentinel of the specification. *)
Lemma abstract_sentinel_is_capitalised :
  match returned (fetch_article_details (Examples.env_xml Examples.bare_doc) "1"
                    initial_state) with
  | Some (Some a) =>
      abstract a = "Abstract not available."
      /\ abstract a <> Spec.abstract_of "abstract not available." Examples.bare_article
  | _ => False
  end.
Proof. vm_compute. split; [reflexivity | discriminate]. Qed.

(** C9. Every article [fetch_article_details] returns carries the link
    [https://pubmed.ncbi.nlm.nih.gov/<id>/] built from the requested id,
    whatever the document and the rest of the world are. *)
Theorem fetch_article_details_link (env : Env) (pmid : string) (st : State) (a : Article) :
  fst (fetch_article_details env pmid st) = Ok (Some a) ->
  link a = HttpUrl ("https://pubmed.ncbi.nlm.nih.gov/" ++ pmid ++ "/").
Proof.
  intros H. apply fetch_article_details_inv in H.
  destruct H as (xml & root & node & _ & _ & _ & H). exact H.
Qed.

Lemma fetch_article_details_link_witness :
  link (Examples.methods_record "31452104")
  = HttpUrl "https://pubmed.ncbi.nlm.nih.gov/31452104/".
Proof.
  apply (fetch_article_details_link
           (Examples.env_xml Examples.methods_doc) "31452104" initial_state).
  vm_compute. reflexivity.
Defined.


(* ===================================================================== *)
(** * Frame properties of [_make_request]                                *)
(* ===================================================================== *)

Lemma grows_trans (P : event -> Prop) (t1 t2 t3 : list event) :
  grows P t1 t2 -> grows P t2 t3 -> grows P t1 t3.
Proof.
  intros H12 H23. induction H23; [assumption|].
  now apply grows_step.
Qed.

Lemma grows_weaken (P Q : event -> Prop) (t t' : list event) :
  (forall e, P e -> Q e) -> grows P t t' -> grows Q t t'.
Proof.
  intros HPQ H. induction H; [apply grows_refl|].
  apply grows_step; auto.
Qed.

Create HintDb frame discriminated.
#[local] Hint Constructors grows : frame.

Section Preserves.
Variable I : State -> State -> Prop.
Hypothesis I_refl : forall st, I st st.
Hypothesis I_trans : forall st1 st2 st3, I st1 st2 -> I st2 st3 -> I st1 st3.

Lemma preserves_ret {A} (a : A) : preserves I (ret a).
Proof. intros st. apply I_refl. Qed.

Lemma preserves_raise {A} (e : exn) : preserves I (@raise A e).
Proof. intros st. apply I_refl. Qed.

Lemma preserves_lift {A} (r : Result A) : preserves I (lift r).
Proof. intros st. apply I_refl. Qed.

Lemma preserves_bind {A B} (m : M A) (f : A -> M B) :
  preserves I m -> (forall a, preserves I (f a)) -> preserves I (bind m f).
Proof.
  intros Hm Hf st. unfold bind. specialize (Hm st).
  destruct (m st) as [[a|e] st1]; cbn in *; [|assumption].
  eapply I_trans; [eassumption | apply Hf].
Qed.

Lemma preserves_try {A} (m : M A) (class : exn -> bool) (h : exn -> M A) :
  preserves I m -> (forall e, preserves I (h e)) -> preserves I (try_except m class h).
Proof.
  intros Hm Hh st. unfold try_except. specialize (Hm st).
  destruct (m st) as [[a|e] st1]; cbn in *; [assumption|].
  destruct (class e); [|assumption].
  eapply I_trans; [eassumption | apply Hh].
Qed.

End Preserves.

Lemma request_frame_refl url params d key st : request_frame url params d key st st.
Proof. intros _. split; [reflexivity | apply grows_refl]. Qed.

Lemma request_frame_trans url params d key st1 st2 st3 :
  request_frame url params d key st1 st2 -> request_frame url params d key st2 st3 ->
  request_frame url params d key st1 st3.
Proof.
  intros F1 F2 Hd. destruct (F1 Hd) as [H1 G1].
  destruct F2 as [H2 G2]; [congruence|].
  split; [congruence | eapply grows_trans; eassumption].
Qed.

Section Frame.
Variable env : Env.
Variables (url : string) (params : loc) (d : dict) (response_type key : string).

#[local] Abbreviation I := (request_frame url params d key).

Ltac frame_step :=
  first
    [ apply preserves_ret; apply request_frame_refl
    | apply preserves_raise; apply request_frame_refl
    | apply preserves_lift; apply request_frame_refl
    | apply preserves_bind; [apply request_frame_trans | | intros ?]
    | apply preserves_try; [apply request_frame_trans | | intros ?] ].

Lemma emit_frame (e : event) : request_event url d key e -> preserves I (emit e).
Proof.
  intros He st _. split; cbn; [reflexivity|].
  apply grows_step; [apply He | apply grows_refl].
Qed.

Lemma log_frame (l : log_level) : preserves I (log l).
Proof. apply emit_frame. exact Logic.I. Qed.

Lemma deref_bind_frame {A} (k : dict -> M A) :
  preserves I (k d) -> preserves I (bind (deref params) k).
Proof.
  intros H st Hd. unfold bind, deref; cbn. rewrite Hd. now apply H.
Qed.

Lemma do_redis_get_frame (r : Redis) : preserves I (do_redis_get r key).
Proof.
  intros st _. split; cbn; [reflexivity|].
  apply grows_step; [reflexivity | apply grows_refl].
Qed.

Lemma do_redis_set_frame (r : Redis) (value : string) :
  preserves I (do_redis_set r key value settings.CACHE_TTL).
Proof.
  intros st _. split; cbn; [reflexivity|].
  apply grows_step; [split; reflexivity | apply grows_refl].
Qed.

Lemma do_session_get_frame : preserves I (do_session_get env url d 30).
Proof.
  intros st _. split; cbn; [reflexivity|].
  apply grows_step; [repeat split | apply grows_refl].
Qed.

Lemma loads_frame (s : string) : preserves I (loads env s).
Proof. unfold loads. destruct (json_loads env s); frame_step. Qed.

Lemma raise_for_status_frame (resp : response) : preserves I (raise_for_status resp).
Proof. unfold raise_for_status. destruct (400 <=? status resp)%Z; frame_step. Qed.

Lemma cache_lookup_frame : preserves I (cache_lookup env key).
Proof.
  unfold cache_lookup. destruct (redis_client env) as [r|]; [|frame_step].
  frame_step.
  - frame_step; [apply do_redis_get_frame|].
    destruct (Py.truthy_opt a); [|frame_step].
    frame_step; [apply log_frame|].
    frame_step; [apply loads_frame | frame_step].
  - frame_step; [apply log_frame | frame_step].
Qed.

Lemma attempt_body_frame : preserves I (attempt_body env url params response_type key).
Proof.
  unfold attempt_body. apply deref_bind_frame.
  frame_step; [apply do_session_get_frame|].
  frame_step; [apply raise_for_status_frame|].
  frame_step.
  { destruct (response_type =? "json")%string; frame_step; frame_step. }
  frame_step; [|frame_step].
  destruct (redis_client env) as [r|]; [|frame_step].
  frame_step.
  - frame_step; [apply do_redis_set_frame | apply log_frame].
  - apply log_frame.
Qed.

Lemma attempt_once_frame (attempt : nat) :
  preserves I (attempt_once env url params response_type key attempt).
Proof.
  unfold attempt_once. frame_step.
  - frame_step; [apply attempt_body_frame | frame_step].
  - destruct (retryable e).
    + frame_step; [apply log_frame|].
      frame_step; [|frame_step].
      destruct (attempt <? MAX_RETRIES - 1)%nat; [|frame_step].
      apply emit_frame. exact Logic.I.
    + frame_step; [apply log_frame | frame_step].
Qed.

Lemma after_loop_frame : preserves I after_loop.
Proof. unfold after_loop. frame_step; [apply log_frame | frame_step]. Qed.

Lemma retry_loop_frame (attempts : list nat) :
  preserves I (retry_loop env url params response_type key attempts).
Proof.
  induction attempts as [|attempt rest IH]; cbn [retry_loop].
  - apply after_loop_frame.
  - frame_step; [apply attempt_once_frame|].
    destruct a; [frame_step | apply IH | apply after_loop_frame].
Qed.

End Frame.

Lemma nth_list_set {A} (l : list A) (i : nat) (x def : A) :
  (i < List.length l)%nat -> nth i (list_set l i x) def = x.
Proof.
  revert i. induction l as [|y l IH]; intros [|i] H; cbn in *; try lia; auto.
  apply IH. lia.
Qed.

Lemma length_list_set {A} (l : list A) (i : nat) (x : A) :
  List.length (list_set l i x) = List.length l.
Proof.
  revert i. induction l as [|y l IH]; intros [|i]; cbn; auto.
Qed.

Lemma inject_api_key_run (env : Env) (params : loc) (st : State) :
  inject_api_key env params st
  = (Ok tt, mkState (trace st) (heap_with_api_key env params (heap st))).
Proof.
  unfold inject_api_key, heap_with_api_key, with_api_key, setitem, ret.
  destruct (NCBI_API_KEY env) as [[|c k]|]; cbn; destruct st; reflexivity.
Qed.

Lemma nth_heap_with_api_key (env : Env) (params : loc) (h : list dict) :
  (params < List.length h)%nat ->
  nth params (heap_with_api_key env params h) [] = with_api_key env (nth params h []).
Proof.
  intros H. unfold heap_with_api_key, with_api_key.
  destruct (NCBI_API_KEY env) as [[|c k]|]; auto.
  now apply nth_list_set.
Qed.

(** [_make_request] after lines 46-49: the rest runs with the parameters
    [d] that hold the credential. *)
Lemma make_request_unfold (env : Env) (url : string) (params : loc)
      (response_type : string) (st : State) :
  (params < List.length (heap st))%nat ->
  let d := with_api_key env (nth params (heap st) []) in
  _make_request env url params response_type st
  = (hit <- cache_lookup env (_generate_cache_key url d) ;;
     match hit with
     | Some v => ret v
     | None =>
         log INFO ;;;
         retry_loop env url params response_type (_generate_cache_key url d)
           (seq 0 MAX_RETRIES)
     end) (mkState (trace st) (heap_with_api_key env params (heap st))).
Proof.
  intros Hp d. unfold _make_request.
  unfold bind at 1. rewrite inject_api_key_run.
  unfold bind at 1. unfold deref at 1. cbn [heap].
  rewrite nth_heap_with_api_key by assumption. reflexivity.
Qed.

(** [_make_request] changes no dict object but its argument, in which it
    puts the credential; all it does afterwards is a request to [url] with
    the resulting parameters, cached under their key. *)
Lemma make_request_frame (env : Env) (url : string) (params : loc)
      (response_type : string) (st : State) :
  (params < List.length (heap st))%nat ->
  let d := with_api_key env (nth params (heap st) []) in
  let st' := snd (_make_request env url params response_type st) in
  heap st' = heap_with_api_key env params (heap st)
  /\ grows (request_event url d (_generate_cache_key url d)) (trace st) (trace st').
Proof.
  intros Hp d st'. subst st'. rewrite make_request_unfold by assumption. fold d.
  match goal with |- context [snd (?m ?s)] =>
    assert (F : preserves (request_frame url params d (_generate_cache_key url d)) m);
    [| apply (F s); cbn [heap]; now apply nth_heap_with_api_key ] end.
  apply preserves_bind; [apply request_frame_trans | apply cache_lookup_frame|].
  intros [v|].
  - apply preserves_ret, request_frame_refl.
  - apply preserves_bind; [apply request_frame_trans | apply log_frame|].
    intros _. apply retry_loop_frame.
Qed.


(* ===================================================================== *)
(** * The credential and the parameter mapping                           *)
(* ===================================================================== *)

Lemma lookup_setitem (d : dict) (k : string) (v : JSON) :
  Dict.lookup (Dict.setitem d k v) k = Some v.
Proof.
  induction d as [|[k' v'] d IH]; cbn.
  - now rewrite String.eqb_refl.
  - destruct (String.eqb k' k) eqn:E; cbn; rewrite E; auto.
Qed.

Lemma lookup_setitem_other (d : dict) (k k' : string) (v : JSON) :
  k <> k' -> Dict.lookup (Dict.setitem d k v) k' = Dict.lookup d k'.
Proof.
  intros Hk. induction d as [|[k0 v0] d IH]; cbn.
  - destruct (String.eqb_spec k k'); [contradiction | reflexivity].
  - destruct (String.eqb_spec k0 k) as [->|]; cbn.
    + destruct (String.eqb_spec k k'); [contradiction | reflexivity].
    + destruct (String.eqb_spec k0 k'); auto.
Qed.

Lemma nth_list_set_other {A} (l : list A) (i j : nat) (x def : A) :
  i <> j -> nth j (list_set l i x) def = nth j l def.
Proof.
  revert i j. induction l as [|y l IH]; intros [|i] [|j] H; cbn; auto; try lia.
Qed.

Lemma grows_incl (P : event -> Prop) (t t' : list event) :
  grows P t t' -> incl t t'.
Proof.
  intros H. induction H; [apply incl_refl | now apply incl_tl].
Qed.

(** With a cache configured, the look-up reads the cache under the key it
    is given. *)
Lemma cache_lookup_reads (env : Env) (r : Redis) (key : string) (st : State) :
  redis_client env = Some r ->
  In (EvRedisGet key) (trace (snd (cache_lookup env key st))).
Proof.
  intros Hr. unfold cache_lookup. rewrite Hr.
  unfold try_except, bind, do_redis_get, loads, log, emit, ret, raise. cbn.
  destruct (redis_get r _ key) as [[s|]|e]; cbn.
  - destruct (Py.truthy s); cbn; [|now left].
    destruct (json_loads env s); cbn; auto.
  - now left.
  - destruct (is_RedisError e); cbn; auto.
Qed.



(* ===================================================================== *)
(** * The field-tag pattern                                              *)
(* ===================================================================== *)

Lemma append_assoc (a b c : string) : (a ++ b) ++ c = a ++ (b ++ c).
Proof. induction a; cbn; congruence. Qed.

Lemma append_empty_r (a : string) : a ++ "" = a.
Proof. induction a; cbn; congruence. Qed.

Lemma class_letters (c : ascii) :
  existsb (Re.in_range c) [("A", "Z"); ("a", "z")]%char = SpecSearch.is_letter c.
Proof.
  unfold SpecSearch.is_letter, Re.in_range. cbn [existsb fst snd].
  now rewrite orb_false_r.
Qed.

(** [k] repetitions of the letter class consume exactly [k] letters. *)
Lemma iterate_letters (k : nat) :
  forall starts rest,
    In rest (Re.iterate (Re.rmatch (Re.Class [("A", "Z"); ("a", "z")]%char)) k starts)
    <-> exists s0 letters,
          In s0 starts /\ s0 = letters ++ rest /\ String.length letters = k
          /\ SpecSearch.all_chars SpecSearch.is_letter letters = true.
Proof.
  induction k as [|k IH]; intros starts rest; cbn [Re.iterate].
  - split.
    + intros H. exists rest, "". auto.
    + intros (s0 & letters & Hin & -> & Hlen & _).
      destruct letters; [exact Hin | discriminate].
  - rewrite IH. split.
    + intros (s1 & letters & Hin & -> & Hlen & Hall).
      apply in_flat_map in Hin. destruct Hin as (s0 & Hs0 & Hstep).
      destruct s0 as [|c s0]; cbn [Re.rmatch] in Hstep; [contradiction|].
      rewrite class_letters in Hstep.
      destruct (SpecSearch.is_letter c) eqn:Hc; [|contradiction].
      destruct Hstep as [->|[]].
      exists (String c (letters ++ rest)), (String c letters).
      cbn. rewrite Hc, Hall, Hlen. auto.
    + intros (s0 & letters & Hin & -> & Hlen & Hall).
      destruct letters as [|c letters]; [discriminate|].
      cbn in Hlen, Hall. apply andb_true_iff in Hall. destruct Hall as [Hc Hall].
      exists (letters ++ rest), letters.
      split; [|repeat split; auto; lia].
      apply in_flat_map. exists (String c letters ++ rest). split; [exact Hin|].
      cbn [Re.rmatch append]. rewrite class_letters, Hc. now left.
Qed.

(** The pattern matches at the start of [s] exactly when [s] starts with a
    field tag. *)
Lemma rmatch_field_tag (s rest : string) :
  In rest (Re.rmatch Re.field_tag s)
  <-> exists letters,
        s = "[" ++ letters ++ "]" ++ rest
        /\ (2 <= String.length letters <= 4)%nat
        /\ SpecSearch.all_chars SpecSearch.is_letter letters = true.
Proof.
  unfold Re.field_tag. cbn [Re.rmatch]. rewrite in_flat_map. split.
  - intros (s1 & H1 & H2).
    destruct s as [|c s]; [contradiction|].
    destruct (Ascii.eqb_spec "[" c) as [<-|]; [|contradiction].
    destruct H1 as [<-|[]].
    apply in_flat_map in H2. destruct H2 as (s2 & H2 & H3).
    apply in_flat_map in H2. destruct H2 as (k & Hk & H2).
    apply iterate_letters in H2.
    destruct H2 as (s0 & letters & [<-|[]] & -> & Hlen & Hall).
    destruct s2 as [|c2 s2]; [contradiction|]. cbn [Re.rmatch] in H3.
    destruct (Ascii.eqb_spec "]" c2) as [<-|]; [|contradiction].
    destruct H3 as [<-|[]].
    exists letters. repeat split; auto.
    all: cbn in Hk; lia.
  - intros (letters & -> & Hlen & Hall).
    exists (letters ++ "]" ++ rest). split; [cbn; now left|].
    apply in_flat_map. exists ("]" ++ rest). split; [|cbn; now left].
    apply in_flat_map. exists (String.length letters). split.
    + cbn. lia.
    + apply iterate_letters. exists (letters ++ "]" ++ rest), letters.
      repeat split; auto. now left.
Qed.

Lemma rmatch_field_tag_nonempty (s : string) :
  Re.rmatch Re.field_tag s <> []
  <-> exists tag after, s = tag ++ after /\ SpecSearch.is_field_tag tag.
Proof.
  split.
  - intros H. destruct (Re.rmatch Re.field_tag s) as [|rest l] eqn:E; [contradiction|].
    assert (Hin : In rest (Re.rmatch Re.field_tag s)) by (rewrite E; now left).
    apply rmatch_field_tag in Hin. destruct Hin as (letters & -> & Hlen & Hall).
    exists ("[" ++ letters ++ "]"), rest. split.
    + cbn. now rewrite append_assoc.
    + exists letters. auto.
  - intros (tag & after & -> & letters & -> & Hlen & Hall) E.
    assert (Hin : In after (Re.rmatch Re.field_tag (("[" ++ letters ++ "]") ++ after))).
    { apply rmatch_field_tag. exists letters. repeat split; auto; try lia.
      cbn. now rewrite append_assoc. }
    rewrite E in Hin. contradiction.
Qed.

(** [re.search] with the pattern of the source finds a match exactly in the
    queries that embed a field tag. *)
Lemma search_field_tag (query : string) :
  Re.search Re.field_tag query = true <-> SpecSearch.embeds_field_tag query.
Proof.
  unfold SpecSearch.embeds_field_tag.
  induction query as [|c q IH]; cbn [Re.search].
  - destruct (Re.rmatch Re.field_tag "") eqn:E.
    + split; [discriminate|].
      intros (before & tag & after & Hq & letters & -> & _).
      destruct before; discriminate.
    + split; [|reflexivity]. intros _.
      destruct (proj1 (rmatch_field_tag_nonempty "")) as (tag & after & Hq & Htag).
      { rewrite E. discriminate. }
      exists "", tag, after. auto.
  - destruct (Re.rmatch Re.field_tag (String c q)) eqn:E.
    + rewrite IH. split.
      * intros (before & tag & after & -> & Htag).
        exists (String c before), tag, after. auto.
      * intros (before & tag & after & Hq & Htag).
        destruct before as [|c' before].
        -- exfalso. apply (proj2 (rmatch_field_tag_nonempty (String c q))); [|exact E].
           exists tag, after. auto.
        -- cbn in Hq. injection Hq as -> ->. exists before, tag, after. auto.
    + split; [|reflexivity]. intros _.
      destruct (proj1 (rmatch_field_tag_nonempty (String c q))) as (tag & after & Hq & Htag).
      { rewrite E. discriminate. }
      exists "", tag, after. auto.
Qed.


(* ===================================================================== *)
(** * search_pubmed_ids                                                  *)
(* ===================================================================== *)

Lemma list_set_twice {A} (l : list A) (i : nat) (x y : A) :
  list_set (list_set l i x) i y = list_set l i y.
Proof.
  revert i. induction l as [|z l IH]; intros [|i]; cbn; auto.
  now rewrite IH.
Qed.

Lemma update_run (params : loc) (items : list (string * JSON)) :
  forall st,
    (params < List.length (heap st))%nat ->
    update params items st
    = (Ok tt, mkState (trace st)
                (list_set (heap st) params
                   (Dict.update (nth params (heap st) []) items))).
Proof.
  induction items as [|[k v] items IH]; intros st Hp; cbn [update].
  - unfold ret, Dict.update. cbn.
    replace (list_set (heap st) params (nth params (heap st) [])) with (heap st).
    + now destruct st.
    + clear Hp. generalize (heap st). intros h. revert params.
      induction h as [|x h IHh]; intros [|p]; cbn; auto.
      now rewrite <- IHh.
  - unfold bind, setitem. cbn [fst snd].
    rewrite IH by (cbn; now rewrite length_list_set).
    cbn [trace heap]. rewrite nth_list_set by assumption.
    now rewrite list_set_twice.
Qed.

Lemma nth_alloc (h : list dict) (d : dict) : nth (List.length h) (h ++ [d]) [] = d.
Proof. rewrite app_nth2 by lia. now rewrite Nat.sub_diag. Qed.

Lemma list_set_alloc (h : list dict) (d d' : dict) :
  list_set (h ++ [d]) (List.length h) d' = (h ++ [d'])%list.
Proof. induction h; cbn; congruence. Qed.

Lemma idlist_of_state (data : JSON) (st : State) : snd (idlist_of data st) = st.
Proof.
  unfold idlist_of, bind, lift, ret.
  destruct (Dyn.truthy data); [|reflexivity].
  destruct (Dyn.get data "esearchresult" (JDict [])); reflexivity.
Qed.

(** [search_pubmed_ids] is one call of [_make_request] on a fresh dict
    object holding [search_params]. *)
Lemma search_pubmed_ids_unfold (env : Env) (query : string) (search_field : option string)
      (max_results : Z) (start_date end_date : option string) (st : State) :
  search_pubmed_ids env query search_field max_results start_date end_date st
  = (data <- _make_request env (settings.EUTILS_BASE_URL ++ "esearch.fcgi")
               (List.length (heap st)) "json" ;;
     idlist_of data)
      (mkState (trace st)
         (heap st ++ [search_params (final_query query search_field) max_results
                        start_date end_date])%list).
Proof.
  unfold search_pubmed_ids, search_params.
  unfold bind at 1. unfold alloc at 1. cbn [fst snd].
  set (d0 := Dict.update BASE_PARAMS _).
  set (p := List.length (heap st)).
  assert (Hp : forall d, (p < List.length (heap (mkState (trace st) (heap st ++ [d])%list)))%nat).
  { intros d. cbn. rewrite length_app. cbn. subst p. lia. }
  unfold bind at 1.
  destruct (Py.truthy_opt start_date).
  - rewrite update_run by apply Hp. cbn [heap trace].
    subst p. rewrite nth_alloc, list_set_alloc.
    set (p := List.length (heap st)). unfold bind at 1.
    destruct (Py.truthy_opt end_date).
    + rewrite update_run by apply Hp. cbn [heap trace].
      subst p. now rewrite nth_alloc, list_set_alloc.
    + reflexivity.
  - unfold ret at 1. unfold bind at 1.
    destruct (Py.truthy_opt end_date).
    + rewrite update_run by apply Hp. cbn [heap trace].
      subst p. now rewrite nth_alloc, list_set_alloc.
    + reflexivity.
Qed.

Lemma search_params_term (term : string) (max_results : Z)
      (start_date end_date : option string) :
  Dict.lookup (search_params term max_results start_date end_date) "term"
  = Some (JStr term).
Proof.
  unfold search_params.
  destruct (Py.truthy_opt start_date), (Py.truthy_opt end_date); reflexivity.
Qed.

Lemma with_api_key_term (env : Env) (d : dict) :
  Dict.lookup (with_api_key env d) "term" = Dict.lookup d "term".
Proof.
  unfold with_api_key. destruct (NCBI_API_KEY env) as [[|c k]|]; auto.
  now apply lookup_setitem_other.
Qed.

(** The examples of the specification: [cancer] with [[AU]] is wrapped, a
    query that contains [[TI]] is not. *)
Example search_pubmed_ids_term_examples :
  final_query "cancer" (Some "[AU]") = "(cancer)[AU]"
  /\ final_query "cancer[TI]" (Some "[AU]") = "cancer[TI]"
  /\ requests (trace (snd (search_pubmed_ids (Examples.env_of (fun _ => Ok (Examples.ok_json JNull)))
                             "cancer" (Some "[AU]") 10 None None initial_state)))
     = [("https://eutils.ncbi.nlm.nih.gov/entrez/eutils/esearch.fcgi",
         [("db", JStr "pubmed"); ("term", JStr "(cancer)[AU]"); ("retmode", JStr "json");
          ("retmax", JStr "10"); ("sort", JStr "date")])].
Proof. repeat split; vm_compute; reflexivity. Qed.


(* ===================================================================== *)
(** * find_related_ids                                                   *)
(* ===================================================================== *)

(** C4. When elink answers with a link set that has no [linksetdbs] entry
    (what it sends for an id without neighbours), or an empty one,
    [find_related_ids] does not return the empty list: the subscript
    [linkset["linksetdbs"][0]] raises [KeyError], respectively [IndexError],
    which nothing catches. *)
Theorem find_related_ids_missing_linksetdbs :
  fst (find_related_ids (Examples3.env_answering Examples3.linkset_without_dbs)
         "1" 10 initial_state) = Raise KeyError
  /\ fst (find_related_ids (Examples3.env_answering Examples3.linkset_with_empty_dbs)
            "1" 10 initial_state) = Raise IndexError.
Proof. split; vm_compute; reflexivity. Qed.


(** The part of C4 that holds: when the answer to the elink request names no
    link set, [find_related_ids] returns the empty list right after that
    request; every request of the call went to elink, none to esearch. *)
Lemma find_related_ids_without_linksets
      (env : Env) (source_pmid : string) (max_results : Z) (st st1 : State) (data : JSON) :
  let url := settings.EUTILS_BASE_URL ++ "elink.fcgi" in
  let st0 := mkState (trace st) (heap st ++ [elink_params source_pmid])%list in
  _make_request env url (List.length (heap st)) "json" st0 = (Ok data, st1) ->
  without_linksets data ->
  find_related_ids env source_pmid max_results st = (Ok (JList []), st1)
  /\ grows (fun e => match e with EvHttpGet u _ _ => u = url | _ => True end)
           (trace st) (trace st1).
Proof.
  intros url st0 Hrun Hno. split.
  - unfold find_related_ids. unfold bind at 1. unfold alloc at 1. cbn [fst snd].
    fold (elink_params source_pmid). fold st0. fold url.
    unfold bind at 1. rewrite Hrun.
    destruct Hno as [Hf | (d & -> & Hls)].
    + unfold bind at 1. rewrite Hf. reflexivity.
    + unfold bind at 1. unfold Dyn.truthy at 1.
      destruct d as [|kv d]; [reflexivity|].
      unfold bind, lift, ret, Dyn.get. cbn [fst snd].
      destruct (Dict.lookup (kv :: d) "linksets") as [ls|]; [now rewrite Hls | reflexivity].
  - assert (Hp : (List.length (heap st) < List.length (heap st0))%nat).
    { unfold st0. cbn [heap]. rewrite length_app. cbn [List.length]. lia. }
    pose proof (make_request_frame env url "json" st0 Hp) as [_ Hgrows].
    rewrite Hrun in Hgrows. cbn [snd] in Hgrows.
    eapply grows_weaken; [|exact Hgrows].
    intros [k|k v t|u d' t|z|l] He; try exact Logic.I.
    destruct He as (-> & _). reflexivity.
Qed.

(* ===================================================================== *)
(** * get_summaries                                                      *)
(* ===================================================================== *)

Lemma as_str_field (info : dict) (k default : string) :
  Dyn.as_str (match Dict.lookup info k with Some x => x | None => JStr default end)
  = match SpecSummaries.str_field info k default with
    | Some s => Ok s
    | None => Raise ValidationError
    end.
Proof.
  unfold SpecSummaries.str_field.
  destruct (Dict.lookup info k) as [[]|]; reflexivity.
Qed.

(** Collecting and validating the names of a list of author objects. *)
Lemma names_of_authors (l : list JSON) :
  forallb SpecSummaries.is_dict l = true ->
  exists vs, map_result (fun a => Dyn.get a "name" (JStr "")) l = Ok vs
             /\ Dyn.as_str_list vs
                = match SpecSummaries.names l with
                  | Some r => Ok r
                  | None => Raise ValidationError
                  end.
Proof.
  induction l as [|a l IH]; cbn [forallb map_result]; intros H.
  - exists []. split; reflexivity.
  - apply andb_true_iff in H. destruct H as [Ha Hl].
    destruct a as [| | | | |ad]; try discriminate.
    destruct (IH Hl) as (vs & Hvs & Has).
    cbn [Dyn.get]. rewrite Hvs. eexists. split; [reflexivity|].
    cbn [Dyn.as_str_list SpecSummaries.names]. rewrite Has, as_str_field.
    destruct (SpecSummaries.str_field ad "name" ""), (SpecSummaries.names l); reflexivity.
Qed.

(** Building a summary from a record of the right shape leaves the state
    alone and succeeds exactly when the record validates. *)
Lemma build_summary_spec (info : dict) (st : State) :
  SpecSummaries.record_shape (JDict info) = true ->
  build_summary (JDict info) st
  = (match SpecSummaries.summary_of info with
     | Some s => Ok s
     | None => Raise ValidationError
     end, st).
Proof.
  intros Hshape. unfold build_summary, SpecSummaries.summary_of.
  unfold bind, lift, ret, raise. cbn [Dyn.get].
  rewrite !as_str_field.
  unfold SpecSummaries.author_names. cbn [SpecSummaries.record_shape] in Hshape.
  destruct (Dict.lookup info "authors") as [auths|].
  - destruct auths as [| | | |l|]; try discriminate. cbn [Dyn.iterate].
    destruct (names_of_authors l Hshape) as (vs & -> & ->).
    destruct (SpecSummaries.str_field info "uid" ""),
      (SpecSummaries.str_field info "title" "No Title"),
      (SpecSummaries.str_field info "pubdate" ""),
      (SpecSummaries.str_field info "source" ""),
      (SpecSummaries.names l); reflexivity.
  - cbn [Dyn.iterate map_result Dyn.as_str_list].
    destruct (SpecSummaries.str_field info "uid" ""),
      (SpecSummaries.str_field info "title" "No Title"),
      (SpecSummaries.str_field info "pubdate" ""),
      (SpecSummaries.str_field info "source" ""); reflexivity.
Qed.

(** The loop returns the summaries of the records that validate and logs one
    warning for each record that does not. *)
Lemma summaries_loop_spec (result : dict) (uids : list JSON) :
  forallb (SpecSummaries.uid_shape result) uids = true ->
  forall summaries st,
    summaries_loop result uids summaries st
    = (Ok (summaries ++ SpecSummaries.summaries_of result uids)%list,
       mkState (repeat (EvLog WARNING) (List.length (SpecSummaries.skipped result uids))
                  ++ trace st)%list (heap st)).
Proof.
  induction uids as [|uid uids IH]; intros Hshape summaries st.
  - cbn. rewrite app_nil_r. now destruct st.
  - cbn [forallb] in Hshape. apply andb_true_iff in Hshape.
    destruct Hshape as [Huid Huids]. specialize (IH Huids).
    cbn [summaries_loop SpecSummaries.summaries_of SpecSummaries.skipped flat_map filter].
    fold (SpecSummaries.summaries_of result uids).
    fold (SpecSummaries.skipped result uids).
    unfold bind at 1. unfold lift at 1.
    destruct uid as [|b|z|s|l|d]; cbn [Dyn.dict_contains SpecSummaries.record_of];
      try discriminate; try (rewrite IH; reflexivity).
    unfold Dict.mem. cbn [SpecSummaries.uid_shape] in Huid.
    destruct (Dict.lookup result s) as [info|] eqn:Hinfo; [|rewrite IH; reflexivity].
    destruct info as [| | | | |info]; try discriminate.
    unfold bind at 1. unfold lift at 1. cbn [Dyn.getitem_str]. rewrite Hinfo.
    unfold bind at 1. unfold try_except at 1. unfold bind at 1.
    rewrite build_summary_spec by assumption.
    destruct (SpecSummaries.summary_of info) as [sm|]; cbn [is_ValidationError].
    + unfold ret at 1. rewrite IH. now rewrite <- app_assoc.
    + unfold bind at 1, log, emit, ret. cbn [fst snd].
      rewrite IH. cbn [trace heap List.length repeat app].
      change (EvLog WARNING :: trace st) with ([EvLog WARNING] ++ trace st)%list.
      rewrite app_assoc, <- repeat_cons. reflexivity.
Qed.





(* ===================================================================== *)
(** * The retry policy of [_make_request]                                *)
(* ===================================================================== *)

Lemma sleeps_app (t1 t2 : list event) : sleeps (t1 ++ t2) = (sleeps t2 ++ sleeps t1)%list.
Proof. unfold sleeps. now rewrite rev_app_distr, flat_map_app. Qed.

Lemma requests_app (t1 t2 : list event) :
  requests (t1 ++ t2) = (requests t2 ++ requests t1)%list.
Proof. unfold requests. now rewrite rev_app_distr, flat_map_app. Qed.

Lemma sleeps_cons (e : event) (t : list event) :
  sleeps (e :: t)
  = (sleeps t ++ match e with EvSleep delay => [delay] | _ => [] end)%list.
Proof.
  change (e :: t) with ([e] ++ t)%list.
  rewrite sleeps_app. unfold sleeps at 2. cbn. now rewrite app_nil_r.
Qed.

Lemma requests_cons (e : event) (t : list event) :
  requests (e :: t)
  = (requests t ++ match e with EvHttpGet u p _ => [(u, p)] | _ => [] end)%list.
Proof.
  change (e :: t) with ([e] ++ t)%list.
  rewrite requests_app. unfold requests at 2. cbn. now rewrite app_nil_r.
Qed.

Lemma count_app (p : event -> bool) (t1 t2 : list event) :
  count p (t1 ++ t2) = (count p t1 + count p t2)%nat.
Proof. unfold count. now rewrite filter_app, length_app. Qed.

Lemma count_failure_events (url : string) (d : dict) (n : nat) :
  forall attempt, count is_http (failure_events url d attempt n) = n.
Proof.
  induction n as [|n IH]; intros attempt; [reflexivity|].
  cbn [failure_events]. rewrite !count_app, IH.
  unfold delay_events. destruct (attempt <? MAX_RETRIES - 1)%nat; cbn; lia.
Qed.

Lemma requests_failure_events (url : string) (d : dict) (n : nat) :
  forall attempt, requests (failure_events url d attempt n) = repeat (url, d) n.
Proof.
  induction n as [|n IH]; intros attempt; [reflexivity|].
  cbn [failure_events]. rewrite !requests_app, IH.
  unfold delay_events. destruct (attempt <? MAX_RETRIES - 1)%nat; reflexivity.
Qed.

Lemma sleeps_failure_events (url : string) (d : dict) (n : nat) :
  forall attempt,
    sleeps (failure_events url d attempt n)
    = flat_map (fun k => sleeps (delay_events k)) (seq attempt n).
Proof.
  induction n as [|n IH]; intros attempt; [reflexivity|].
  cbn [failure_events seq flat_map]. rewrite !sleeps_app, IH.
  reflexivity.
Qed.

Section Retry.
Variable env : Env.
Variables (url : string) (params : loc) (d : dict) (response_type key : string).

(** A failed attempt with a status that is retried: warning, sleep (except
    after the last attempt), next iteration. *)
Lemma attempt_once_transient (attempt : nat) (st : State) :
  nth params (heap st) [] = d ->
  transient (session_get env (count is_http (trace st)) url d) ->
  attempt_once env url params response_type key attempt st
  = (Ok Continue,
     mkState (delay_events attempt ++ [EvLog WARNING; EvHttpGet url d 30] ++ trace st)%list
             (heap st)).
Proof.
  intros Hd (r & Hr & Hs).
  unfold attempt_once, attempt_body, try_except, bind, deref, do_session_get,
    raise_for_status, raise, ret, log, emit, delay_events.
  cbn [fst snd]. rewrite Hd, Hr.
  assert (H400 : (400 <=? status r)%Z = true) by (apply Z.leb_le; destruct Hs; lia).
  rewrite H400. cbn [is_ClientError retryable trace heap].
  assert (Hre : ((status r =? 429) || (500 <=? status r))%Z = true).
  { apply orb_true_iff. destruct Hs; [left; now apply Z.eqb_eq | right; now apply Z.leb_le]. }
  rewrite Hre.
  destruct (attempt <? MAX_RETRIES - 1)%nat; reflexivity.
Qed.

(** A failed attempt that is not retried: error record, end of the loop. *)
Lemma attempt_once_fatal (attempt : nat) (st : State) :
  nth params (heap st) [] = d ->
  fatal (session_get env (count is_http (trace st)) url d) ->
  attempt_once env url params response_type key attempt st
  = (Ok Break, mkState ([EvLog ERROR; EvHttpGet url d 30] ++ trace st)%list (heap st)).
Proof.
  intros Hd Hf.
  unfold attempt_once, attempt_body, try_except, bind, deref, do_session_get,
    raise_for_status, raise, ret, log, emit.
  cbn [fst snd]. rewrite Hd.
  destruct Hf as [(r & -> & H400 & Hs) | (e & -> & Hc & Hr)].
  - apply Z.leb_le in H400. rewrite H400. cbn [is_ClientError retryable trace heap].
    assert (Hre : ((status r =? 429) || (500 <=? status r))%Z = false).
    { apply orb_false_iff. split; [apply Z.eqb_neq | apply Z.leb_gt];
        unfold retry_status in Hs; lia. }
    rewrite Hre. reflexivity.
  - rewrite Hc, Hr. reflexivity.
Qed.

Lemma decode_run (r : response) (st : State) :
  (if String.eqb response_type "json" then lift (json r)
   else (t <- lift (text r) ;; ret (JStr t))) st
  = (decoded response_type r, st).
Proof.
  unfold decoded, bind, lift, ret.
  destruct (String.eqb response_type "json"); [reflexivity|].
  destruct (text r); reflexivity.
Qed.

(** Storing the result: under a silent cache this never raises, sleeps not
    and sends nothing. *)
Lemma store_run (v : JSON) (st : State) :
  cache_silent env ->
  exists st',
    match redis_client env with
    | Some r =>
        try_except
          (do_redis_set r key (Json.dumps false v) settings.CACHE_TTL ;;; log INFO)
          is_RedisError (fun _ => log ERROR)
    | None => ret tt
    end st = (Ok tt, st')
    /\ sleeps (trace st') = sleeps (trace st)
    /\ requests (trace st') = requests (trace st)
    /\ heap st' = heap st.
Proof.
  unfold cache_silent. intros Hcache.
  destruct (redis_client env) as [rd|]; [|exists st; auto].
  destruct Hcache as [_ Hset].
  specialize (Hset (count is_redis_set (trace st)) key
                   (Json.dumps false v) settings.CACHE_TTL).
  unfold try_except, bind, do_redis_set, log, emit.
  destruct (redis_set rd _ key _ _) as [[]|e]; cbn [fst snd trace heap].
  - eexists. split; [reflexivity|]. cbn [trace heap].
    rewrite !sleeps_cons, !requests_cons, !app_nil_r. auto.
  - rewrite Hset. eexists. split; [reflexivity|]. cbn [trace heap].
    rewrite !sleeps_cons, !requests_cons, !app_nil_r. auto.
Qed.

(** A successful attempt returns the decoded payload; it sleeps not and
    sends one request. *)
Lemma attempt_once_success (attempt : nat) (st : State) (r : response) (v : JSON) :
  cache_silent env ->
  nth params (heap st) [] = d ->
  session_get env (count is_http (trace st)) url d = Ok r ->
  (status r < 400)%Z ->
  decoded response_type r = Ok v ->
  exists st',
    attempt_once env url params response_type key attempt st = (Ok (Return v), st')
    /\ sleeps (trace st') = sleeps (trace st)
    /\ requests (trace st') = (requests (trace st) ++ [(url, d)])%list
    /\ heap st' = heap st.
Proof.
  intros Hcache Hd Hr Hs Hv.
  unfold attempt_once, attempt_body.
  unfold try_except at 1. unfold bind at 1. unfold bind at 1.
  unfold deref at 1. cbn [fst snd]. rewrite Hd.
  unfold bind at 1. unfold do_session_get at 1. cbn [fst snd]. rewrite Hr.
  unfold bind at 1. unfold raise_for_status at 1.
  apply Z.leb_gt in Hs. rewrite Hs. unfold ret at 1.
  unfold bind at 1. rewrite decode_run, Hv.
  unfold bind at 1.
  set (st1 := mkState (EvHttpGet url d 30 :: trace st) (heap st)).
  destruct (store_run v st1 Hcache) as (st2 & -> & H1 & H2 & H3).
  unfold ret. exists st2. split; [reflexivity|].
  rewrite H1, H2, H3. unfold st1. cbn [trace heap].
  rewrite sleeps_cons, requests_cons, app_nil_r. auto.
Qed.

(** [n] transient failures in a row lead to the rest of the loop, in the
    state that records them. *)
Lemma retry_loop_failures (n : nat) :
  forall (attempt : nat) (rest : list nat) (st : State),
    nth params (heap st) [] = d ->
    (forall k, (k < n)%nat ->
               transient (session_get env (count is_http (trace st) + k) url d)) ->
    retry_loop env url params response_type key (seq attempt n ++ rest)%list st
    = retry_loop env url params response_type key rest
        (mkState (failure_events url d attempt n ++ trace st)%list (heap st)).
Proof.
  induction n as [|n IH]; intros attempt rest st Hd Hk.
  - cbn. now destruct st.
  - cbn [seq app retry_loop]. unfold bind at 1.
    rewrite attempt_once_transient; auto.
    2:{ specialize (Hk 0%nat). rewrite Nat.add_0_r in Hk. apply Hk. lia. }
    rewrite IH; cbn [trace heap]; auto.
    + cbn [failure_events]. now rewrite <- !app_assoc.
    + intros k Hlt. rewrite count_app. cbn [app].
      replace (count is_http (delay_events attempt)
               + count is_http (EvLog WARNING :: EvHttpGet url d 30 :: trace st) + k)%nat
        with (count is_http (trace st) + S k)%nat.
      * apply Hk. lia.
      * unfold delay_events, count.
        destruct (attempt <? MAX_RETRIES - 1)%nat; cbn [filter is_http List.length]; lia.
Qed.

End Retry.


Lemma count_http_cons (e : event) (t : list event) :
  count is_http (e :: t) = ((if is_http e then 1 else 0) + count is_http t)%nat.
Proof. unfold count. cbn [filter]. destruct (is_http e); reflexivity. Qed.

(** Under a silent cache the look-up reports a miss; it sleeps not and
    sends nothing. *)
Lemma cache_lookup_silent (env : Env) (key : string) (st : State) :
  cache_silent env ->
  exists st',
    cache_lookup env key st = (Ok None, st')
    /\ sleeps (trace st') = sleeps (trace st)
    /\ requests (trace st') = requests (trace st)
    /\ count is_http (trace st') = count is_http (trace st)
    /\ heap st' = heap st.
Proof.
  unfold cache_silent, cache_lookup. intros Hcache.
  destruct (redis_client env) as [rd|]; [|exists st; auto].
  destruct Hcache as [Hget _].
  specialize (Hget (count is_redis_get (trace st)) key).
  unfold try_except, bind, do_redis_get, log, emit, ret.
  destruct (redis_get rd _ key) as [[s|]|e]; cbn [fst snd trace heap].
  - subst s. cbn [Py.truthy_opt Py.truthy].
    eexists. split; [reflexivity|]. cbn [trace heap].
    rewrite sleeps_cons, requests_cons, count_http_cons, !app_nil_r. auto.
  - cbn [Py.truthy_opt].
    eexists. split; [reflexivity|]. cbn [trace heap].
    rewrite sleeps_cons, requests_cons, count_http_cons, !app_nil_r. auto.
  - rewrite Hget. cbn [fst snd].
    eexists. split; [reflexivity|]. cbn [trace heap].
    rewrite !sleeps_cons, !requests_cons, !count_http_cons, !app_nil_r. auto.
Qed.

Lemma backoff_of_failures (n : nat) :
  (n <= MAX_RETRIES)%nat ->
  flat_map (fun k => sleeps (delay_events k)) (seq 0 n)
  = backoff (Nat.min n (MAX_RETRIES - 1)).
Proof.
  intros H. unfold MAX_RETRIES in H.
  destruct n as [|[|[|[|[|n]]]]]; try lia; reflexivity.
Qed.

(** The state in which the retry loop of [_make_request] starts. *)
Lemma make_request_reaches_loop (env : Env) (url : string) (params : loc)
      (response_type : string) (st : State) :
  (params < List.length (heap st))%nat ->
  cache_silent env ->
  let d := with_api_key env (nth params (heap st) []) in
  exists st1,
    _make_request env url params response_type st
    = retry_loop env url params response_type (_generate_cache_key url d)
        (seq 0 MAX_RETRIES) st1
    /\ sleeps (trace st1) = sleeps (trace st)
    /\ requests (trace st1) = requests (trace st)
    /\ count is_http (trace st1) = count is_http (trace st)
    /\ nth params (heap st1) [] = d.
Proof.
  intros Hp Hcache d. rewrite make_request_unfold by assumption. fold d.
  set (st0 := mkState (trace st) (heap_with_api_key env params (heap st))).
  destruct (@cache_lookup_silent env (_generate_cache_key url d) st0 Hcache)
    as (st1 & Hrun & H1 & H2 & H3 & H4).
  unfold bind at 1. rewrite Hrun.
  unfold bind at 1, log, emit. cbn [fst snd].
  eexists. split; [reflexivity|]. cbn [trace heap].
  rewrite sleeps_cons, requests_cons, count_http_cons, !app_nil_r.
  rewrite H1, H2, H3, H4. unfold st0. cbn [trace heap].
  repeat split. now apply nth_heap_with_api_key.
Qed.






(* ===================================================================== *)
(** * Rules for computations that return                                 *)
(* ===================================================================== *)

Lemma returns_ret {A} (C : exn -> bool) (Q : A -> Prop) (a : A) :
  Q a -> returns_or C Q (ret a).
Proof. intros H st. left. exists a, st. auto. Qed.

Lemma returns_raise {A} (C : exn -> bool) (Q : A -> Prop) (e : exn) :
  C e = true -> returns_or C Q (@raise A e).
Proof. intros H st. right. exists e, st. auto. Qed.

Lemma returns_lift_ok {A} (C : exn -> bool) (Q : A -> Prop) (a : A) :
  Q a -> returns_or C Q (lift (Ok a)).
Proof. intros H st. left. exists a, st. auto. Qed.

Lemma returns_bind {A B} (C : exn -> bool) (P : A -> Prop) (Q : B -> Prop)
      (m : M A) (f : A -> M B) :
  returns_or C P m -> (forall a, P a -> returns_or C Q (f a)) ->
  returns_or C Q (bind m f).
Proof.
  intros Hm Hf st. unfold bind.
  destruct (Hm st) as [(a & st' & -> & Ha) | (e & st' & -> & He)].
  - apply Hf. exact Ha.
  - right. exists e, st'. auto.
Qed.

Lemma returns_try {A} (C1 C2 : exn -> bool) (Q : A -> Prop)
      (m : M A) (class : exn -> bool) (h : exn -> M A) :
  returns_or C1 Q m ->
  (forall e, C1 e = true -> class e = true \/ C2 e = true) ->
  (forall e, returns_or C2 Q (h e)) ->
  returns_or C2 Q (try_except m class h).
Proof.
  intros Hm Hc Hh st. unfold try_except.
  destruct (Hm st) as [(a & st' & -> & Ha) | (e & st' & -> & He)].
  - left. exists a, st'. auto.
  - destruct (class e) eqn:E; [apply Hh|].
    right. exists e, st'. split; [reflexivity|].
    destruct (Hc e He); congruence.
Qed.

Lemma returns_emit (C : exn -> bool) (e : event) : returns_or C (fun _ => True) (emit e).
Proof. intros st. left. eexists tt, _. split; [reflexivity | exact Logic.I]. Qed.

Lemma returns_log (C : exn -> bool) (l : log_level) : returns_or C (fun _ => True) (log l).
Proof. apply returns_emit. Qed.


(* ===================================================================== *)
(** * The cache key                                                      *)
(* ===================================================================== *)

Lemma compare_lt_trans (a : string) :
  forall b c, String.compare a b = Lt -> String.compare b c = Lt ->
              String.compare a c = Lt.
Proof.
  induction a as [|x a IH]; intros [|y b] [|z c]; cbn; try discriminate; auto.
  unfold Ascii.compare.
  destruct (N.compare_spec (N_of_ascii x) (N_of_ascii y)) as [Hxy|Hxy|Hxy];
    destruct (N.compare_spec (N_of_ascii y) (N_of_ascii z)) as [Hyz|Hyz|Hyz];
    try discriminate; intros H1 H2.
  - rewrite Hxy, Hyz, N.compare_refl. eapply IH; eassumption.
  - rewrite Hxy. now apply N.compare_lt_iff in Hyz as ->.
  - rewrite <- Hyz. now apply N.compare_lt_iff in Hxy as ->.
  - assert (H : (N_of_ascii x < N_of_ascii z)%N) by lia.
    now apply N.compare_lt_iff in H as ->.
Qed.

Lemma leb_trans (a b c : string) :
  String.leb a b = true -> String.leb b c = true -> String.leb a c = true.
Proof.
  unfold String.leb.
  destruct (String.compare a b) eqn:Hab; try discriminate; intros _.
  - apply String.compare_eq_iff in Hab. now subst.
  - destruct (String.compare b c) eqn:Hbc; try discriminate; intros _.
    + apply String.compare_eq_iff in Hbc. subst. now rewrite Hab.
    + now rewrite (compare_lt_trans _ _ _ Hab Hbc).
Qed.

Lemma leb_false_flip (a b : string) : String.leb a b = false -> String.leb b a = true.
Proof.
  intros H. destruct (String.leb_total a b); congruence.
Qed.

Lemma leb_asym (a b : string) :
  a <> b -> String.leb a b = true -> String.leb b a = false.
Proof.
  intros Hne H. destruct (String.leb b a) eqn:E; auto.
  exfalso. apply Hne. now apply String.leb_antisym.
Qed.

(** Inserting two items with different keys gives the same list in either
    order. *)
Lemma insert_item_comm {A} (x y : string * A) (l : list (string * A)) :
  fst x <> fst y ->
  Json.insert_item x (Json.insert_item y l) = Json.insert_item y (Json.insert_item x l).
Proof.
  intros Hxy.
  assert (Hyx : fst y <> fst x) by congruence.
  induction l as [|z l IH]; cbn [Json.insert_item].
  - destruct (String.leb (fst x) (fst y)) eqn:E1.
    + now rewrite (leb_asym Hxy E1).
    + now rewrite (leb_false_flip _ _ E1).
  - destruct (String.leb (fst y) (fst z)) eqn:Eyz;
      destruct (String.leb (fst x) (fst z)) eqn:Exz.
    + destruct (String.leb (fst x) (fst y)) eqn:E1.
      * pose proof (leb_asym Hxy E1) as E2.
        cbn [Json.insert_item]. rewrite ?E1, ?E2.
        cbn [Json.insert_item]. now rewrite ?Eyz, ?Exz.
      * pose proof (leb_false_flip _ _ E1) as E2.
        cbn [Json.insert_item]. rewrite ?E1, ?E2.
        cbn [Json.insert_item]. now rewrite ?Eyz, ?Exz.
    + assert (E1 : String.leb (fst x) (fst y) = false).
      { destruct (String.leb (fst x) (fst y)) eqn:E; auto.
        now rewrite (leb_trans _ _ _ E Eyz) in Exz. }
      cbn [Json.insert_item]. rewrite ?E1, ?Exz, ?Eyz.
      cbn [Json.insert_item]. now rewrite ?E1, ?Exz, ?Eyz.
    + assert (E1 : String.leb (fst y) (fst x) = false).
      { destruct (String.leb (fst y) (fst x)) eqn:E; auto.
        now rewrite (leb_trans _ _ _ E Exz) in Eyz. }
      cbn [Json.insert_item]. rewrite ?E1, ?Exz, ?Eyz.
      cbn [Json.insert_item]. now rewrite ?E1, ?Exz, ?Eyz.
    + cbn [Json.insert_item]. rewrite ?Exz, ?Eyz. now rewrite IH.
Qed.

(** Sorting by key does not depend on the order of the items, provided the
    keys are pairwise distinct. *)
Lemma sorted_items_permutation {A} (l1 l2 : list (string * A)) :
  Permutation l1 l2 -> NoDup (map fst l1) ->
  Json.sorted_items l1 = Json.sorted_items l2.
Proof.
  unfold Json.sorted_items.
  induction 1 as [|x l1 l2 Hp IH|x y l|l1 l2 l3 H12 IH12 H23 IH23]; intros Hnd.
  - reflexivity.
  - cbn. rewrite IH; [reflexivity|]. now inversion Hnd.
  - cbn. apply insert_item_comm.
    cbn in Hnd. inversion Hnd as [|? ? Hin _]. subst.
    intros E. apply Hin. left. now symmetry.
  - rewrite IH12 by assumption. apply IH23.
    eapply Permutation_NoDup; [|exact Hnd]. now apply Permutation_map.
Qed.

(** [json.dumps(params, sort_keys=True)] does not depend on the insertion
    order of [params]. *)
Lemma dumps_sorted_permutation (p1 p2 : dict) :
  Permutation p1 p2 -> NoDup (Dict.keys p1) ->
  Json.dumps true (JDict p1) = Json.dumps true (JDict p2).
Proof.
  intros Hp Hnd. cbn [Json.dumps].
  set (render := fun kv : string * JSON =>
                   match kv with (k, x) => (k, Json.dumps true x) end).
  rewrite (sorted_items_permutation (l1 := map render p1) (l2 := map render p2)).
  - reflexivity.
  - now apply Permutation_map.
  - rewrite map_map.
    replace (map (fun x => fst (render x)) p1) with (Dict.keys p1); [assumption|].
    unfold Dict.keys. apply map_ext. now intros [k v].
Qed.

Lemma length_append (a b : string) :
  String.length (a ++ b) = (String.length a + String.length b)%nat.
Proof. induction a; cbn; congruence. Qed.

Lemma length_hexdigest (bytes : list Z) :
  String.length (String.concat "" (map Hashlib.hex_byte bytes))
  = (2 * List.length bytes)%nat.
Proof.
  induction bytes as [|b l IH]; [reflexivity|].
  cbn [map String.concat]. destruct (map Hashlib.hex_byte l) eqn:E.
  - destruct l; [reflexivity | discriminate].
  - rewrite length_append. cbn [append]. rewrite IH. cbn. lia.
Qed.

Lemma length_md5_digest (msg : list Z) : List.length (Hashlib.md5_digest msg) = 16%nat.
Proof.
  unfold Hashlib.md5_digest, Hashlib.le_bytes.
  rewrite !length_app, !length_map, !length_seq. reflexivity.
Qed.

Lemma length_md5_hexdigest (msg : list Z) :
  String.length (Hashlib.md5_hexdigest msg) = 32%nat.
Proof.
  unfold Hashlib.md5_hexdigest. now rewrite length_hexdigest, length_md5_digest.
Qed.


Lemma unhex_hex_digit (n : Z) : (0 <= n < 16)%Z -> unhex (Hashlib.hex_digit n) = n.
Proof.
  intros H. unfold unhex, Hashlib.hex_digit.
  destruct (Z.ltb_spec n 10).
  - rewrite N_ascii_embedding by lia. rewrite Z2N.id by lia.
    destruct (Z.ltb_spec (48 + n) 58); lia.
  - rewrite N_ascii_embedding by lia. rewrite Z2N.id by lia.
    destruct (Z.ltb_spec (87 + n) 58); lia.
Qed.

Lemma hex_byte_injective (a b : Z) :
  (0 <= a < 256)%Z -> (0 <= b < 256)%Z ->
  Hashlib.hex_byte a = Hashlib.hex_byte b -> a = b.
Proof.
  intros Ha Hb H. unfold Hashlib.hex_byte in H.
  injection H as H1 H2.
  apply (f_equal unhex) in H1, H2.
  change 0xf%Z with (Z.ones 4) in H2.
  rewrite !Z.land_ones in H2 by lia.
  rewrite !Z.shiftr_div_pow2 in H1 by lia.
  change (2 ^ 4)%Z with 16%Z in *.
  assert (Ra : (0 <= a / 16 < 16)%Z)
    by (split; [apply Z.div_pos; lia | apply Z.div_lt_upper_bound; lia]).
  assert (Rb : (0 <= b / 16 < 16)%Z)
    by (split; [apply Z.div_pos; lia | apply Z.div_lt_upper_bound; lia]).
  assert (Ma : (0 <= a mod 16 < 16)%Z) by (apply Z.mod_pos_bound; lia).
  assert (Mb : (0 <= b mod 16 < 16)%Z) by (apply Z.mod_pos_bound; lia).
  rewrite (unhex_hex_digit Ra), (unhex_hex_digit Rb) in H1.
  rewrite (unhex_hex_digit Ma), (unhex_hex_digit Mb) in H2.
  rewrite (Z.div_mod a 16), (Z.div_mod b 16) by lia. congruence.
Qed.

Lemma concat_empty_cons (x : string) (l : list string) :
  String.concat "" (x :: l) = x ++ String.concat "" l.
Proof.
  cbn [String.concat]. destruct l; [now rewrite append_empty_r | reflexivity].
Qed.

Lemma hexdigest_injective (l1 : list Z) :
  forall l2,
    Forall (fun b => 0 <= b < 256)%Z l1 -> Forall (fun b => 0 <= b < 256)%Z l2 ->
    List.length l1 = List.length l2 ->
    String.concat "" (map Hashlib.hex_byte l1) = String.concat "" (map Hashlib.hex_byte l2) ->
    l1 = l2.
Proof.
  induction l1 as [|a l1 IH]; intros [|b l2] H1 H2 Hlen H; try discriminate; auto.
  cbn [map] in H. rewrite !concat_empty_cons in H.
  inversion H1; inversion H2; subst.
  unfold Hashlib.hex_byte at 1 3 in H. cbn [append] in H.
  injection H as Hd1 Hd2 Hrest.
  f_equal.
  - apply hex_byte_injective; auto. unfold Hashlib.hex_byte. congruence.
  - apply IH; auto.
Qed.

Lemma le_bytes_range (n : nat) (w : Z) :
  Forall (fun b => 0 <= b < 256)%Z (Hashlib.le_bytes n w).
Proof.
  unfold Hashlib.le_bytes. apply Forall_forall. intros b Hb.
  apply in_map_iff in Hb. destruct Hb as (k & <- & _).
  change 0xff%Z with (Z.ones 8). rewrite Z.land_ones by lia.
  apply Z.mod_pos_bound. lia.
Qed.

Lemma md5_digest_range (msg : list Z) :
  Forall (fun b => 0 <= b < 256)%Z (Hashlib.md5_digest msg).
Proof.
  unfold Hashlib.md5_digest. repeat (apply Forall_app; split); apply le_bytes_range.
Qed.

Lemma append_inv_head (a x y : string) : a ++ x = a ++ y -> x = y.
Proof. induction a as [|c a IH]; cbn; [auto|]. intros H. injection H as H. auto. Qed.

(** Two keys are equal exactly when the MD5 digests of the hashed texts
    are. *)
Lemma cache_key_equal_iff (url1 url2 : string) (p1 p2 : dict) :
  _generate_cache_key url1 p1 = _generate_cache_key url2 p2
  <-> Hashlib.md5_digest (Hashlib.encode (key_string url1 p1))
      = Hashlib.md5_digest (Hashlib.encode (key_string url2 p2)).
Proof.
  unfold _generate_cache_key, Hashlib.md5_hexdigest.
  pose proof (md5_digest_range (Hashlib.encode (key_string url1 p1))) as R1.
  pose proof (md5_digest_range (Hashlib.encode (key_string url2 p2))) as R2.
  pose proof (length_md5_digest (Hashlib.encode (key_string url1 p1))) as L1.
  pose proof (length_md5_digest (Hashlib.encode (key_string url2 p2))) as L2.
  revert R1 R2 L1 L2.
  generalize (Hashlib.md5_digest (Hashlib.encode (key_string url1 p1))).
  generalize (Hashlib.md5_digest (Hashlib.encode (key_string url2 p2))).
  intros d2 d1 R1 R2 L1 L2. split.
  - intros H. apply append_inv_head in H.
    apply hexdigest_injective; auto. congruence.
  - now intros ->.
Qed.



(* ===================================================================== *)
(** * The hashed text determines the mapping                             *)
(* ===================================================================== *)

Lemma hex4_decodes (n : N) :
  (n < 256)%N ->
  exists h1 h2 h3 h4,
    Json.hex4 n = String h1 (String h2 (String h3 (String h4 EmptyString)))
    /\ (((unhex h1 * 16 + unhex h2) * 16 + unhex h3) * 16 + unhex h4)%Z = Z.of_N n.
Proof.
  intros Hn. unfold Json.hex4. do 4 eexists. split; [reflexivity|].
  set (z := Z.of_N n). assert (Hz : (0 <= z < 256)%Z) by (unfold z; lia).
  change 15%Z with (Z.ones 4). rewrite !Z.land_ones by lia.
  rewrite !Z.shiftr_div_pow2 by lia.
  change (2 ^ 12)%Z with 4096%Z. change (2 ^ 8)%Z with 256%Z.
  change (2 ^ 4)%Z with 16%Z.
  rewrite !unhex_hex_digit by (apply Z.mod_pos_bound; lia).
  rewrite (Z.div_small z 4096), (Z.div_small z 256) by lia.
  cbn [Z.modulo Z.div_eucl Z.mul Z.add fst snd].
  change (0 mod 16)%Z with 0%Z.
  rewrite (Z.mod_small (z / 16) 16).
  - pose proof (Z.div_mod z 16). lia.
  - split; [apply Z.div_pos; lia | apply Z.div_lt_upper_bound; lia].
Qed.

(** [Flat.unescape1] undoes [Json.escape_char]. *)
Lemma unescape1_escape_char (c : ascii) (t : string) :
  Flat.unescape1 (Json.escape_char c ++ t) = Some (c, t).
Proof.
  unfold Json.escape_char.
  pose proof (ascii_N_embedding c) as Hc.
  pose proof (N_ascii_bounded c) as Hb.
  set (n := N_of_ascii c) in *.
  destruct (N.eqb_spec n 92) as [E|N92]; [rewrite E in Hc; subst c; reflexivity|].
  destruct (N.eqb_spec n 34) as [E|N34]; [rewrite E in Hc; subst c; reflexivity|].
  destruct (N.eqb_spec n 8) as [E|N8]; [rewrite E in Hc; subst c; reflexivity|].
  destruct (N.eqb_spec n 12) as [E|N12]; [rewrite E in Hc; subst c; reflexivity|].
  destruct (N.eqb_spec n 10) as [E|N10]; [rewrite E in Hc; subst c; reflexivity|].
  destruct (N.eqb_spec n 13) as [E|N13]; [rewrite E in Hc; subst c; reflexivity|].
  destruct (N.eqb_spec n 9) as [E|N9]; [rewrite E in Hc; subst c; reflexivity|].
  destruct ((32 <=? n) && (n <=? 126))%N.
  - cbn [append Flat.unescape1]. fold n.
    destruct (N.eqb_spec n 92); [contradiction|].
    destruct (N.eqb_spec n 34); [contradiction|]. reflexivity.
  - destruct (hex4_decodes Hb) as (h1 & h2 & h3 & h4 & Hhex & Hval).
    rewrite Hhex. cbn [append Json.backslash].
    unfold Flat.unescape1.
    rewrite N_ascii_embedding by lia. cbn [N.eqb Pos.eqb].
    change (N_of_ascii "u") with 117%N. cbn [N.eqb Pos.eqb].
    rewrite Hval, N2Z.id, Hc. reflexivity.
Qed.

Lemma unescape1_dquote (t : string) : Flat.unescape1 (Json.dquote ++ t) = None.
Proof. reflexivity. Qed.

(** An escaped string followed by a double quote can be read back in one
    way only. *)
Lemma escape_unique (s1 : string) :
  forall s2 r1 r2,
    Json.escape s1 ++ Json.dquote ++ r1 = Json.escape s2 ++ Json.dquote ++ r2 ->
    s1 = s2 /\ r1 = r2.
Proof.
  induction s1 as [|c1 s1 IH]; intros [|c2 s2] r1 r2 H; cbn [Json.escape] in H.
  - cbn in H. injection H as H. auto.
  - exfalso. apply (f_equal Flat.unescape1) in H.
    rewrite append_assoc, unescape1_escape_char in H.
    cbn [append] in H. discriminate.
  - exfalso. apply (f_equal Flat.unescape1) in H.
    rewrite append_assoc, unescape1_escape_char in H.
    cbn [append] in H. discriminate.
  - apply (f_equal Flat.unescape1) in H.
    rewrite !append_assoc, !unescape1_escape_char in H.
    injection H as -> H. apply IH in H. destruct H as [-> ->]. auto.
Qed.

Lemma quote_unique (s1 s2 r1 r2 : string) :
  Json.quote s1 ++ r1 = Json.quote s2 ++ r2 -> s1 = s2 /\ r1 = r2.
Proof.
  unfold Json.quote. rewrite !append_assoc. intros H.
  apply append_inv_head in H.
  now apply escape_unique.
Qed.

Lemma concat_cons (sep x : string) (l : list string) :
  String.concat sep (x :: l)
  = x ++ match l with [] => "" | _ => sep ++ String.concat sep l end.
Proof. cbn [String.concat]. destruct l; [now rewrite append_empty_r | reflexivity]. Qed.

(** The text of a list of items, closed by a brace, determines the list. *)
Lemma items_unique (l1 : list (string * string)) :
  forall l2,
    String.concat ", " (map Flat.item_text l1) ++ "}"
    = String.concat ", " (map Flat.item_text l2) ++ "}" ->
    l1 = l2.
Proof.
  induction l1 as [|[k1 v1] l1 IH]; intros [|[k2 v2] l2] H; auto.
  - exfalso. cbn [map] in H. rewrite concat_cons in H.
    unfold Flat.item_text, Json.quote in H. cbn in H. discriminate.
  - exfalso. cbn [map] in H. rewrite concat_cons in H.
    unfold Flat.item_text, Json.quote in H. cbn in H. discriminate.
  - cbn [map] in H. rewrite !concat_cons in H.
    unfold Flat.item_text in H. cbn [fst snd] in H.
    rewrite !append_assoc in H.
    apply quote_unique in H. destruct H as [-> H].
    apply (append_inv_head ": ") in H.
    apply quote_unique in H. destruct H as [-> H].
    f_equal. apply IH.
    destruct l1 as [|x1 l1], l2 as [|x2 l2]; auto.
    + exfalso. cbn in H. discriminate.
    + exfalso. cbn in H. discriminate.
    + cbn [map] in H |- *.
      set (t1 := String.concat ", " (Flat.item_text x1 :: map Flat.item_text l1)) in *.
      set (t2 := String.concat ", " (Flat.item_text x2 :: map Flat.item_text l2)) in *.
      rewrite !append_assoc in H. now apply (append_inv_head ", ") in H.
Qed.


Lemma insert_item_map {A B} (f : A -> B) (kv : string * A) (l : list (string * A)) :
  Json.insert_item (fst kv, f (snd kv)) (map (fun x => (fst x, f (snd x))) l)
  = map (fun x => (fst x, f (snd x))) (Json.insert_item kv l).
Proof.
  induction l as [|y l IH]; cbn [map Json.insert_item fst]; [reflexivity|].
  destruct (String.leb (fst kv) (fst y)); cbn [map]; [reflexivity | now rewrite IH].
Qed.

Lemma sorted_items_map {A B} (f : A -> B) (l : list (string * A)) :
  Json.sorted_items (map (fun x => (fst x, f (snd x))) l)
  = map (fun x => (fst x, f (snd x))) (Json.sorted_items l).
Proof.
  unfold Json.sorted_items. induction l as [|x l IH]; [reflexivity|].
  cbn [map fold_right]. rewrite IH. apply (insert_item_map f x).
Qed.

Lemma insert_item_permutation {A} (kv : string * A) (l : list (string * A)) :
  Permutation (Json.insert_item kv l) (kv :: l).
Proof.
  induction l as [|y l IH]; cbn [Json.insert_item]; [reflexivity|].
  destruct (String.leb (fst kv) (fst y)); [reflexivity|].
  rewrite IH. apply perm_swap.
Qed.

Lemma sorted_items_is_permutation {A} (l : list (string * A)) :
  Permutation (Json.sorted_items l) l.
Proof.
  unfold Json.sorted_items. induction l as [|x l IH]; [reflexivity|].
  cbn [fold_right]. rewrite insert_item_permutation. now apply perm_skip.
Qed.

Lemma flat_rendered (p : dict) :
  Flat.flat p = true ->
  map (fun kv : string * JSON => match kv with (k, x) => (k, Json.dumps true x) end) p
  = map (fun x => (fst x, Json.quote (snd x))) (Flat.strings_of p).
Proof.
  induction p as [|[k v] p IH]; [reflexivity|].
  cbn [Flat.flat forallb snd]. intros H. apply andb_true_iff in H. destruct H as [Hv Hp].
  destruct v as [| | |s| |]; try discriminate.
  change (Flat.strings_of ((k, JStr s) :: p)) with ((k, s) :: Flat.strings_of p).
  cbn [map]. rewrite (IH Hp). reflexivity.
Qed.

Lemma flat_items (p : dict) :
  Flat.flat p = true ->
  p = map (fun x => (fst x, JStr (snd x))) (Flat.strings_of p).
Proof.
  induction p as [|[k v] p IH]; [reflexivity|].
  cbn [Flat.flat forallb snd]. intros H. apply andb_true_iff in H. destruct H as [Hv Hp].
  destruct v as [| | |s| |]; try discriminate.
  change (Flat.strings_of ((k, JStr s) :: p)) with ((k, s) :: Flat.strings_of p).
  cbn [map fst snd]. now rewrite <- (IH Hp).
Qed.

(** The output of [json.dumps] for a mapping of strings. *)
Lemma dumps_flat (p : dict) :
  Flat.flat p = true ->
  Json.dumps true (JDict p)
  = "{" ++ String.concat ", " (map Flat.item_text (Json.sorted_items (Flat.strings_of p)))
        ++ "}".
Proof.
  intros H. cbn [Json.dumps]. rewrite (flat_rendered p H).
  rewrite (sorted_items_map Json.quote), map_map. reflexivity.
Qed.

(** For mappings of strings the hashed text determines the mapping: equal
    texts (for one url) mean the same items. *)
Lemma key_string_determines_mapping (url : string) (p1 p2 : dict) :
  Flat.flat p1 = true -> Flat.flat p2 = true ->
  key_string url p1 = key_string url p2 -> Permutation p1 p2.
Proof.
  intros H1 H2 H. unfold key_string in H.
  apply append_inv_head in H. apply (append_inv_head "?") in H.
  rewrite (dumps_flat p1 H1), (dumps_flat p2 H2) in H.
  apply (append_inv_head "{") in H. apply items_unique in H.
  rewrite (flat_items p1 H1), (flat_items p2 H2).
  apply Permutation_map.
  rewrite <- (sorted_items_is_permutation (Flat.strings_of p1)), H.
  apply sorted_items_is_permutation.
Qed.

Lemma utf8_two_bytes (c : ascii) :
  let n := Z.of_N (N_of_ascii c) in
  (n <? 128)%Z = false ->
  ((Flat.utf8_decode2 (Z.lor 0xc0 (Z.shiftr n 6)) (Z.lor 0x80 (Z.land n 0x3f)) =? n)
   && (128 <=? Z.lor 0xc0 (Z.shiftr n 6)))%Z = true.
Proof.
  destruct c as [[] [] [] [] [] [] [] []]; vm_compute; auto.
Qed.

Lemma encode_cons (c : ascii) (s : string) :
  Hashlib.encode (String c s)
  = ((if (Z.of_N (N_of_ascii c) <? 128)%Z then [Z.of_N (N_of_ascii c)]
      else [Z.lor 0xc0 (Z.shiftr (Z.of_N (N_of_ascii c)) 6);
            Z.lor 0x80 (Z.land (Z.of_N (N_of_ascii c)) 0x3f)]) ++ Hashlib.encode s)%list.
Proof.
  cbn [Hashlib.encode]. destruct (Z.of_N (N_of_ascii c) <? 128)%Z; reflexivity.
Qed.

(** [str.encode] is injective. *)
Lemma encode_injective (s1 : string) :
  forall s2, Hashlib.encode s1 = Hashlib.encode s2 -> s1 = s2.
Proof.
  induction s1 as [|c1 s1 IH]; intros [|c2 s2]; rewrite ?encode_cons.
  - reflexivity.
  - destruct (Z.of_N (N_of_ascii c2) <? 128)%Z; discriminate.
  - destruct (Z.of_N (N_of_ascii c1) <? 128)%Z; discriminate.
  - pose proof (utf8_two_bytes c1) as U1. pose proof (utf8_two_bytes c2) as U2.
    cbv zeta in U1, U2.
    assert (Hc : Z.of_N (N_of_ascii c1) = Z.of_N (N_of_ascii c2) -> c1 = c2).
    { intros E. apply N2Z.inj in E.
      rewrite <- (ascii_N_embedding c1), <- (ascii_N_embedding c2). now rewrite E. }
    revert U1 U2 Hc.
    generalize (Z.of_N (N_of_ascii c1)) (Z.of_N (N_of_ascii c2)). intros n1 n2.
    generalize (Z.lor 0xc0 (Z.shiftr n1 6)) (Z.lor 0x80 (Z.land n1 0x3f))
               (Z.lor 0xc0 (Z.shiftr n2 6)) (Z.lor 0x80 (Z.land n2 0x3f)).
    intros a1 b1 a2 b2 U1 U2 Hc.
    destruct (Z.ltb_spec n1 128) as [L1|L1];
      destruct (Z.ltb_spec n2 128) as [L2|L2]; cbn [app]; intros H.
    + injection H as E H. f_equal; auto.
    + exfalso. injection H as E H. specialize (U2 eq_refl).
      apply andb_true_iff in U2. destruct U2 as [_ U2]. apply Z.leb_le in U2. lia.
    + exfalso. injection H as E H. specialize (U1 eq_refl).
      apply andb_true_iff in U1. destruct U1 as [_ U1]. apply Z.leb_le in U1. lia.
    + injection H as E1 E2 H. specialize (U1 eq_refl). specialize (U2 eq_refl).
      apply andb_true_iff in U1, U2. destruct U1 as [U1 _], U2 as [U2 _].
      apply Z.eqb_eq in U1, U2. f_equal; auto.
      apply Hc. rewrite <- U1, <- U2. now rewrite E1, E2.
Qed.



(* ===================================================================== *)
(** * The credential in the cache key                                    *)
(* ===================================================================== *)

Lemma lookup_permutation (p1 p2 : dict) :
  Permutation p1 p2 -> NoDup (Dict.keys p1) ->
  forall k, Dict.lookup p1 k = Dict.lookup p2 k.
Proof.
  unfold Dict.keys.
  induction 1 as [|[k0 v0] l1 l2 Hp IH|[k1 v1] [k2 v2] l|l1 l2 l3 H12 IH12 H23 IH23];
    intros Hnd k.
  - reflexivity.
  - cbn [Dict.lookup]. rewrite IH; [reflexivity|]. now inversion Hnd.
  - cbn [Dict.lookup].
    destruct (String.eqb_spec k2 k) as [->|]; [|reflexivity].
    destruct (String.eqb_spec k1 k) as [->|]; [|reflexivity].
    exfalso. cbn [map fst] in Hnd. inversion Hnd as [|? ? Hin _]. apply Hin. now left.
  - rewrite IH12 by assumption. apply IH23.
    eapply Permutation_NoDup; [|exact Hnd]. now apply Permutation_map.
Qed.

Lemma keys_setitem_in (d : dict) (k : string) (v : JSON) (x : string) :
  In x (Dict.keys (Dict.setitem d k v)) -> x = k \/ In x (Dict.keys d).
Proof.
  unfold Dict.keys. induction d as [|[k' v'] d IH]; cbn [Dict.setitem map fst In].
  - intros [<-|[]]. now left.
  - destruct (String.eqb k' k); cbn [map fst In]; intuition.
Qed.

Lemma keys_setitem_nodup (d : dict) (k : string) (v : JSON) :
  NoDup (Dict.keys d) -> NoDup (Dict.keys (Dict.setitem d k v)).
Proof.
  unfold Dict.keys. induction d as [|[k' v'] d IH]; cbn [Dict.setitem map fst]; intros Hnd.
  - repeat constructor. intros [].
  - inversion Hnd as [|? ? Hin Hd]. subst.
    destruct (String.eqb_spec k' k) as [->|Hne]; cbn [map fst].
    + now constructor.
    + constructor; [|now apply IH].
      intros H. apply keys_setitem_in in H. destruct H; [congruence | contradiction].
Qed.

Lemma flat_setitem (d : dict) (k s : string) :
  Flat.flat d = true -> Flat.flat (Dict.setitem d k (JStr s)) = true.
Proof.
  unfold Flat.flat. induction d as [|[k' v'] d IH]; cbn [Dict.setitem forallb snd].
  - reflexivity.
  - intros H. apply andb_true_iff in H. destruct H as [Hv Hd].
    destruct (String.eqb k' k); cbn [forallb snd].
    + exact Hd.
    + rewrite Hv. now apply IH.
Qed.

(** Two different credentials give different hashed texts. *)
Lemma key_string_depends_on_credential (url : string) (d : dict) (k1 k2 : string) :
  Flat.flat d = true -> NoDup (Dict.keys d) -> k1 <> k2 ->
  key_string url (Dict.setitem d "api_key" (JStr k1))
  <> key_string url (Dict.setitem d "api_key" (JStr k2)).
Proof.
  intros Hflat Hnd Hne H.
  apply key_string_determines_mapping in H; try now apply flat_setitem.
  pose proof (@lookup_permutation _ _ H
                (@keys_setitem_nodup d "api_key" (JStr k1) Hnd) "api_key") as Hl.
  rewrite !lookup_setitem in Hl. congruence.
Qed.

(** C10. Let [params] refer to an allocated dict object.  If a (non-empty)
    credential is configured, a call of [_make_request] stores it under
    [api_key] in that very object and leaves every other object alone; the
    cache is read (and, if at all, written) under the key computed from the
    parameters that already contain the credential, and these are the
    parameters of every request sent; for a mapping of strings the text that
    is hashed differs from the text any other credential would give.  If no
    credential is configured, no
    dict object changes and key and requests are those of the parameters as
    passed. *)
Theorem make_request_injects_credential
        (env : Env) (url : string) (params : loc) (response_type : string) (st : State) :
  (params < List.length (heap st))%nat ->
  let d := nth params (heap st) [] in
  let st' := snd (_make_request env url params response_type st) in
  (forall k, NCBI_API_KEY env = Some k -> k <> "" ->
     let d' := Dict.setitem d "api_key" (JStr k) in
     nth params (heap st') [] = d'
     /\ Dict.lookup d' "api_key" = Some (JStr k)
     /\ (forall q, q <> params -> nth q (heap st') [] = nth q (heap st) [])
     /\ grows (request_event url d' (_generate_cache_key url d')) (trace st) (trace st')
     /\ (forall r, redis_client env = Some r ->
           In (EvRedisGet (_generate_cache_key url d')) (trace st'))
     /\ (forall k', k' <> k -> Flat.flat d = true -> NoDup (Dict.keys d) ->
           key_string url (Dict.setitem d "api_key" (JStr k')) <> key_string url d'))
  /\ (NCBI_API_KEY env = None \/ NCBI_API_KEY env = Some "" ->
      heap st' = heap st
      /\ grows (request_event url d (_generate_cache_key url d)) (trace st) (trace st')
      /\ (forall r, redis_client env = Some r ->
            In (EvRedisGet (_generate_cache_key url d)) (trace st'))).
Proof.
  intros Hp d st'.
  pose proof (make_request_frame env url response_type st Hp) as [Hheap Hgrows].
  fold d in Hgrows. fold st' in Hheap, Hgrows.
  assert (Hread : forall r, redis_client env = Some r ->
            In (EvRedisGet (_generate_cache_key url (with_api_key env d))) (trace st')).
  { intros r Hr. subst st'. rewrite make_request_unfold by assumption. fold d.
    set (key := _generate_cache_key url (with_api_key env d)).
    set (st1 := mkState (trace st) (heap_with_api_key env params (heap st))).
    unfold bind at 1.
    pose proof (cache_lookup_reads env key st1 Hr) as Hin.
    destruct (cache_lookup env key st1) as [[[v|]|e] st2]; cbn [fst snd] in *; auto.
    assert (F : preserves (request_frame url params (nth params (heap st2) []) key)
                  (log INFO ;;; retry_loop env url params response_type key
                                  (seq 0 MAX_RETRIES))).
    { apply preserves_bind; [apply request_frame_trans | apply log_frame|].
      intros _. apply retry_loop_frame. }
    destruct (F st2 eq_refl) as [_ G].
    eapply grows_incl; eassumption. }
  split.
  - intros k Hk Hne d'.
    assert (Hd' : with_api_key env d = d').
    { unfold with_api_key. rewrite Hk. destruct k; [contradiction | reflexivity]. }
    rewrite Hd' in *.
    assert (Hh : heap st' = list_set (heap st) params d').
    { rewrite Hheap. unfold heap_with_api_key. rewrite Hk.
      destruct k; [contradiction|]. fold d. now rewrite Hd'. }
    repeat split.
    + rewrite Hh. now apply nth_list_set.
    + apply lookup_setitem.
    + intros q Hq. rewrite Hh. apply nth_list_set_other. congruence.
    + exact Hgrows.
    + exact Hread.
    + intros k' Hk' Hflat Hnd. now apply key_string_depends_on_credential.
  - intros Hk.
    assert (Hd' : with_api_key env d = d).
    { unfold with_api_key. destruct Hk as [-> | ->]; reflexivity. }
    rewrite Hd' in *.
    repeat split; auto.
    rewrite Hheap. unfold heap_with_api_key. destruct Hk as [-> | ->]; reflexivity.
Qed.

(** A call with the credential [secret] on an object holding [BASE_PARAMS]. *)
Lemma make_request_injects_credential_witness :
  let env := Examples2.env_with_key "secret" JNull in
  let st' := snd (_make_request env "u" 0 "json" Examples2.one_object) in
  nth 0 (heap st') [] = [("db", JStr "pubmed"); ("api_key", JStr "secret")]
  /\ requests (trace st')
     = [("u", [("db", JStr "pubmed"); ("api_key", JStr "secret")])].
Proof.
  intros env st'.
  pose proof (make_request_injects_credential env "u" (params := 0) "json"
                Examples2.one_object) as H.
  destruct H as [H _]; [cbn; lia|].
  destruct (H "secret" eq_refl) as (H1 & _); [discriminate|].
  split; [exact H1 | vm_compute; reflexivity].
Defined.

(* ===================================================================== *)
(** * Bounds on the attempts of [_make_request]                          *)
(* ===================================================================== *)

Lemma quiet_refl (st : State) : quiet st st.
Proof. repeat split. Qed.

Lemma quiet_trans (st1 st2 st3 : State) : quiet st1 st2 -> quiet st2 st3 -> quiet st1 st3.
Proof.
  intros (A1 & A2 & A3 & A4) (B1 & B2 & B3 & B4).
  repeat split; congruence.
Qed.

Lemma emit_quiet (e : event) :
  is_http e = false -> (forall delay, e <> EvSleep delay) -> preserves quiet (emit e).
Proof.
  intros Hh Hs st. unfold quiet, emit. cbn [snd trace heap].
  rewrite requests_cons, sleeps_cons, count_http_cons, Hh.
  destruct e; cbn in Hh; try discriminate; rewrite ?app_nil_r; auto.
  now destruct (Hs delay).
Qed.

Lemma log_quiet (l : log_level) : preserves quiet (log l).
Proof. apply emit_quiet; [reflexivity | discriminate]. Qed.

Lemma do_redis_get_quiet (r : Redis) (key : string) : preserves quiet (do_redis_get r key).
Proof.
  intros st. unfold quiet, do_redis_get. cbn [snd trace heap].
  rewrite requests_cons, sleeps_cons, count_http_cons, !app_nil_r. auto.
Qed.

Lemma do_redis_set_quiet (r : Redis) (key value : string) (ttl : Z) :
  preserves quiet (do_redis_set r key value ttl).
Proof.
  intros st. unfold quiet, do_redis_set. cbn [snd trace heap].
  rewrite requests_cons, sleeps_cons, count_http_cons, !app_nil_r. auto.
Qed.

Ltac quiet_step :=
  first
    [ apply preserves_ret; apply quiet_refl
    | apply preserves_raise; apply quiet_refl
    | apply preserves_lift; apply quiet_refl
    | apply log_quiet
    | apply do_redis_get_quiet
    | apply do_redis_set_quiet
    | apply preserves_bind; [apply quiet_trans | | intros ?]
    | apply preserves_try; [apply quiet_trans | | intros ?] ].

(** The cache look-up sends nothing and sleeps not, whatever the cache
    does. *)
Lemma cache_lookup_quiet (env : Env) (key : string) : preserves quiet (cache_lookup env key).
Proof.
  unfold cache_lookup, loads. destruct (redis_client env) as [r|]; [|quiet_step].
  quiet_step; [quiet_step; [quiet_step|] | repeat quiet_step].
  destruct (Py.truthy_opt a); [|quiet_step].
  quiet_step; [quiet_step|].
  destruct (json_loads env _); repeat quiet_step.
Qed.

(** What follows the request in the body of an attempt sends nothing and
    sleeps not. *)
Lemma after_request_quiet (env : Env) (response_type key : string) (resp : response) :
  preserves quiet
    (raise_for_status resp ;;;
     result <- (if String.eqb response_type "json" then lift (json resp)
                else (t <- lift (text resp) ;; ret (JStr t))) ;;
     match redis_client env with
     | Some r =>
         try_except
           (do_redis_set r key (Json.dumps false result) settings.CACHE_TTL ;;; log INFO)
           is_RedisError (fun _ => log ERROR)
     | None => ret tt
     end ;;;
     ret result).
Proof.
  quiet_step.
  { unfold raise_for_status. destruct (400 <=? status resp)%Z; quiet_step. }
  quiet_step.
  { destruct (String.eqb response_type "json"); repeat quiet_step. }
  quiet_step; [|quiet_step].
  destruct (redis_client env) as [r|]; repeat quiet_step.
Qed.

Section Effects.
Variable env : Env.
Variables (url : string) (params : loc) (d : dict) (response_type key : string).

(** The body of an attempt sends exactly one request, whatever happens. *)
Lemma attempt_body_effects (st : State) :
  nth params (heap st) [] = d ->
  let st' := snd (attempt_body env url params response_type key st) in
  requests (trace st') = (requests (trace st) ++ [(url, d)])%list
  /\ sleeps (trace st') = sleeps (trace st)
  /\ count is_http (trace st') = S (count is_http (trace st))
  /\ heap st' = heap st.
Proof.
  intros Hd. cbv zeta.
  set (st1 := mkState (EvHttpGet url d 30 :: trace st) (heap st)).
  assert (H1 : requests (trace st1) = (requests (trace st) ++ [(url, d)])%list
               /\ sleeps (trace st1) = sleeps (trace st)
               /\ count is_http (trace st1) = S (count is_http (trace st))
               /\ heap st1 = heap st).
  { unfold st1. cbn [trace heap].
    rewrite requests_cons, sleeps_cons, count_http_cons, app_nil_r. auto. }
  assert (E : exists st2,
             snd (attempt_body env url params response_type key st) = st2
             /\ quiet st1 st2).
  { unfold attempt_body.
    unfold bind at 1. unfold deref at 1. cbn [fst snd]. rewrite Hd.
    unfold bind at 1. unfold do_session_get at 1. cbn [fst snd]. fold st1.
    destruct (session_get env _ url d) as [resp|e].
    - eexists. split; [reflexivity|].
      apply (after_request_quiet env response_type key resp st1).
    - exists st1. split; [reflexivity | apply quiet_refl]. }
  destruct E as (st2 & -> & Q1 & Q2 & Q3 & Q4).
  destruct H1 as (A1 & A2 & A3 & A4).
  repeat split; congruence.
Qed.

(** An attempt in terms of its body. *)
Lemma attempt_once_run (attempt : nat) (st : State) :
  attempt_once env url params response_type key attempt st
  = match attempt_body env url params response_type key st with
    | (Ok v, st1) => (Ok (Return v), st1)
    | (Raise e, st1) =>
        if is_ClientError e then
          if retryable e
          then (Ok Continue,
                mkState (delay_events attempt ++ EvLog WARNING :: trace st1)%list (heap st1))
          else (Ok Break, mkState (EvLog ERROR :: trace st1) (heap st1))
        else (Raise e, st1)
    end.
Proof.
  unfold attempt_once, try_except. unfold bind at 1.
  destruct (attempt_body env url params response_type key st) as [[v|e] st1];
    [reflexivity|].
  destruct (is_ClientError e); [|reflexivity].
  destruct (retryable e); [|reflexivity].
  unfold delay_events, bind, log, emit, ret.
  destruct (attempt <? MAX_RETRIES - 1)%nat; reflexivity.
Qed.

(** An attempt sends one request; it sleeps, the delay of its index, only
    when it ends with [continue]. *)
Lemma attempt_once_effects (attempt : nat) (st : State) :
  nth params (heap st) [] = d ->
  let run := attempt_once env url params response_type key attempt st in
  requests (trace (snd run)) = (requests (trace st) ++ [(url, d)])%list
  /\ sleeps (trace (snd run))
     = (sleeps (trace st)
        ++ match fst run with
           | Ok Continue => sleeps (delay_events attempt)
           | _ => []
           end)%list
  /\ count is_http (trace (snd run)) = S (count is_http (trace st))
  /\ heap (snd run) = heap st.
Proof.
  intros Hd. pose proof (attempt_body_effects st Hd) as H. cbv zeta in H |- *.
  rewrite attempt_once_run.
  destruct (attempt_body env url params response_type key st) as [[v|e] st1];
    cbn [fst snd] in *; destruct H as (A1 & A2 & A3 & A4).
  { rewrite app_nil_r. auto. }
  destruct (is_ClientError e); [|cbn [fst snd]; rewrite app_nil_r; auto].
  destruct (retryable e); cbn [fst snd trace heap].
  - rewrite requests_app, sleeps_app, count_app, requests_cons, sleeps_cons,
      count_http_cons, !app_nil_r.
    cbn [is_http Nat.add]. rewrite A1, A2, A3, A4.
    unfold delay_events. destruct (attempt <? MAX_RETRIES - 1)%nat; cbn;
      rewrite ?app_nil_r; auto.
  - rewrite requests_cons, sleeps_cons, count_http_cons, !app_nil_r.
    cbn [is_http Nat.add]. auto.
Qed.

Lemma after_loop_quiet : preserves quiet after_loop.
Proof. unfold after_loop. repeat quiet_step. Qed.

(** One turn of the loop. *)
Lemma retry_loop_cons (attempt : nat) (rest : list nat) (st : State) :
  retry_loop env url params response_type key (attempt :: rest) st
  = match attempt_once env url params response_type key attempt st with
    | (Ok (Return v), st1) => (Ok v, st1)
    | (Ok Continue, st1) => retry_loop env url params response_type key rest st1
    | (Ok Break, st1) => after_loop st1
    | (Raise e, st1) => (Raise e, st1)
    end.
Proof.
  cbn [retry_loop]. unfold bind at 1.
  destruct (attempt_once env url params response_type key attempt st) as [[[v| |]|e] st1];
    reflexivity.
Qed.

(** The loop over the indices [a, a + 1, ..] ([n] of them) sends [k <= n]
    requests and sleeps after the first [m <= k] of them. *)
Lemma retry_loop_effects (n : nat) :
  forall (a : nat) (st : State),
    nth params (heap st) [] = d ->
    let st' := snd (retry_loop env url params response_type key (seq a n) st) in
    exists k m,
      (m <= k <= n)%nat
      /\ requests (trace st') = (requests (trace st) ++ repeat (url, d) k)%list
      /\ sleeps (trace st')
         = (sleeps (trace st) ++ flat_map (fun i => sleeps (delay_events i)) (seq a m))%list
      /\ heap st' = heap st.
Proof.
  induction n as [|n IH]; intros a st Hd; cbv zeta; cbn [seq].
  - exists 0%nat, 0%nat. cbn [retry_loop].
    destruct (after_loop_quiet st) as (Q1 & Q2 & _ & Q4).
    cbn [repeat seq flat_map]. rewrite !app_nil_r. repeat split; auto.
  - pose proof (attempt_once_effects a st Hd) as H. cbv zeta in H.
    rewrite retry_loop_cons.
    destruct (attempt_once env url params response_type key a st) as [[[v| |]|e] st1];
      cbn [fst snd] in *; destruct H as (A1 & A2 & A3 & A4).
    + exists 1%nat, 0%nat. cbn [repeat seq flat_map].
      rewrite app_nil_r in *. repeat split; auto; lia.
    + destruct (IH (S a) st1) as (k & m & Hkm & B1 & B2 & B4); [congruence|].
      exists (S k), (S m). cbn [repeat seq flat_map].
      rewrite B1, B2, B4, A1, A2, A4, <- !app_assoc.
      repeat split; auto; lia.
    + exists 1%nat, 0%nat. destruct (after_loop_quiet st1) as (Q1 & Q2 & _ & Q4).
      cbn [repeat seq flat_map]. rewrite app_nil_r in *.
      repeat split; try congruence; lia.
    + exists 1%nat, 0%nat. cbn [repeat seq flat_map].
      rewrite app_nil_r in *. repeat split; auto; lia.
Qed.

End Effects.

Lemma total_backoff (m : nat) : (m <= MAX_RETRIES - 1)%nat -> (total (backoff m) <= 7)%Z.
Proof.
  unfold MAX_RETRIES. intros H.
  destruct m as [|[|[|[|m]]]]; try lia; vm_compute; discriminate.
Qed.

(** [_make_request] in terms of the look-up and the loop. *)
Lemma make_request_run (env : Env) (url : string) (params : loc)
      (response_type : string) (st : State) :
  (params < List.length (heap st))%nat ->
  let d := with_api_key env (nth params (heap st) []) in
  let key := _generate_cache_key url d in
  _make_request env url params response_type st
  = match cache_lookup env key
            (mkState (trace st) (heap_with_api_key env params (heap st))) with
    | (Ok (Some v), st1) => (Ok v, st1)
    | (Ok None, st1) =>
        retry_loop env url params response_type key (seq 0 MAX_RETRIES)
          (mkState (EvLog INFO :: trace st1) (heap st1))
    | (Raise e, st1) => (Raise e, st1)
    end.
Proof.
  intros Hp d key. rewrite make_request_unfold by assumption. fold d. fold key.
  unfold bind at 1.
  destruct (cache_lookup env key _) as [[[v|]|e] st1]; reflexivity.
Qed.

(** The effects of a whole call, whatever the transport and the cache do. *)
Lemma make_request_effects (env : Env) (url : string) (params : loc)
      (response_type : string) (st : State) :
  (params < List.length (heap st))%nat ->
  let d := with_api_key env (nth params (heap st) []) in
  let st' := snd (_make_request env url params response_type st) in
  exists k m,
    (m <= k <= MAX_RETRIES)%nat /\ (m <= MAX_RETRIES - 1)%nat
    /\ requests (trace st') = (requests (trace st) ++ repeat (url, d) k)%list
    /\ sleeps (trace st') = (sleeps (trace st) ++ backoff m)%list.
Proof.
  intros Hp d. cbv zeta. rewrite make_request_run by assumption. fold d.
  set (key := _generate_cache_key url d).
  set (st0 := mkState (trace st) (heap_with_api_key env params (heap st))).
  assert (Hd0 : nth params (heap st0) [] = d)
    by (unfold st0; cbn [heap]; now apply nth_heap_with_api_key).
  destruct (cache_lookup_quiet env key st0) as (Q1 & Q2 & _ & Q4).
  destruct (cache_lookup env key st0) as [[[v|]|e] st1]; cbn [fst snd] in *.
  - exists 0%nat, 0%nat. unfold backoff. cbn [repeat seq map].
    rewrite !app_nil_r. repeat split; auto; lia.
  - set (st2 := mkState (EvLog INFO :: trace st1) (heap st1)).
    destruct (@retry_loop_effects env url params d response_type key MAX_RETRIES 0 st2)
      as (k & m & Hkm & B1 & B2 & _).
    { unfold st2. cbn [heap]. congruence. }
    exists k, (Nat.min m (MAX_RETRIES - 1)).
    rewrite B1, B2, backoff_of_failures by lia.
    unfold st2. cbn [trace]. rewrite requests_cons, sleeps_cons, !app_nil_r, Q1, Q2.
    unfold st0. cbn [trace]. repeat split; auto; lia.
  - exists 0%nat, 0%nat. unfold backoff. cbn [repeat seq map].
    rewrite !app_nil_r. repeat split; auto; lia.
Qed.

(** X1. Whatever the transport and the cache do, one call of
    [_make_request] sends at most [MAX_RETRIES] (four) requests, each to the
    given URL with the parameters that hold the credential, and sleeps at
    most [MAX_RETRIES - 1] times: the delays are the first powers of
    [RETRY_DELAY] (1, 2, 4 seconds), never more of them than requests sent,
    and add up to at most seven seconds. *)
Theorem make_request_bounded (env : Env) (url : string) (params : loc)
        (response_type : string) (st : State) :
  (params < List.length (heap st))%nat ->
  let d := with_api_key env (nth params (heap st) []) in
  let st' := snd (_make_request env url params response_type st) in
  exists k m,
    (m <= k <= MAX_RETRIES)%nat /\ (m <= MAX_RETRIES - 1)%nat
    /\ requests (trace st') = (requests (trace st) ++ repeat (url, d) k)%list
    /\ sleeps (trace st') = (sleeps (trace st) ++ backoff m)%list
    /\ (total (backoff m) <= 7)%Z.
Proof.
  intros Hp d st'.
  destruct (@make_request_effects env url params response_type st Hp)
    as (k & m & Hkm & Hm & H1 & H2).
  exists k, m. repeat split; try assumption; try lia.
  now apply total_backoff.
Qed.

(** A transport that fails twice with status 500 before it answers. *)
Lemma make_request_bounded_witness :
  let st' := snd (_make_request (Examples4.failing_then_ok 2) "u" 0 "json"
                    Examples2.one_object) in
  exists k m,
    (m <= k <= MAX_RETRIES)%nat /\ (m <= MAX_RETRIES - 1)%nat
    /\ requests (trace st') = repeat ("u", BASE_PARAMS) k
    /\ sleeps (trace st') = backoff m
    /\ (total (backoff m) <= 7)%Z.
Proof.
  apply (@make_request_bounded (Examples4.failing_then_ok 2) "u" 0 "json"
           Examples2.one_object).
  cbn. lia.
Defined.

(* ===================================================================== *)
(** * [_make_request] under a silent cache                               *)
(* ===================================================================== *)

Lemma writes_app (t1 t2 : list event) : writes (t1 ++ t2) = (writes t2 ++ writes t1)%list.
Proof. unfold writes. now rewrite rev_app_distr, flat_map_app. Qed.

Lemma writes_cons (e : event) (t : list event) :
  writes (e :: t)
  = (writes t ++ match e with EvRedisSet k v ttl => [(k, v, ttl)] | _ => [] end)%list.
Proof.
  change (e :: t) with ([e] ++ t)%list.
  rewrite writes_app. unfold writes at 2. cbn. now rewrite app_nil_r.
Qed.

Lemma writes_delay_events (attempt : nat) : writes (delay_events attempt) = [].
Proof. unfold delay_events. now destruct (attempt <? MAX_RETRIES - 1)%nat. Qed.

Section Silent.
Variable env : Env.
Variables (url : string) (params : loc) (d : dict) (response_type key : string).
Hypothesis Hcache : cache_silent env.

(** Storing the result under a silent cache: one write when there is a
    cache, and no exception. *)
Lemma store_writes (v : JSON) (st : State) :
  exists st',
    match redis_client env with
    | Some r =>
        try_except
          (do_redis_set r key (Json.dumps false v) settings.CACHE_TTL ;;; log INFO)
          is_RedisError (fun _ => log ERROR)
    | None => ret tt
    end st = (Ok tt, st')
    /\ writes (trace st') = (writes (trace st) ++ stored env key v)%list.
Proof.
  unfold stored. generalize Hcache. unfold cache_silent.
  destruct (redis_client env) as [rd|]; intros Hc.
  2:{ exists st. split; [reflexivity | now rewrite app_nil_r]. }
  destruct Hc as [_ Hset].
  specialize (Hset (count is_redis_set (trace st)) key
                   (Json.dumps false v) settings.CACHE_TTL).
  unfold try_except, bind, do_redis_set, log, emit.
  destruct (redis_set rd _ key _ _) as [[]|e]; cbn [fst snd trace heap].
  - eexists. split; [reflexivity|]. cbn [trace].
    now rewrite !writes_cons, !app_nil_r.
  - rewrite Hset. eexists. split; [reflexivity|]. cbn [trace].
    now rewrite !writes_cons, !app_nil_r.
Qed.

(** The body of an attempt obtains what [reply] says, and writes it to the
    cache when it is a payload. *)
Lemma attempt_body_reply (st : State) :
  nth params (heap st) [] = d ->
  let answer := session_get env (count is_http (trace st)) url d in
  exists st',
    attempt_body env url params response_type key st = (reply response_type answer, st')
    /\ writes (trace st')
       = (writes (trace st)
          ++ match reply response_type answer with
             | Ok v => stored env key v
             | Raise _ => []
             end)%list.
Proof.
  intros Hd answer. unfold attempt_body.
  unfold bind at 1. unfold deref at 1. cbn [fst snd]. rewrite Hd.
  unfold bind at 1. unfold do_session_get at 1. cbn [fst snd]. fold answer.
  unfold reply.
  set (st1 := mkState (EvHttpGet url d 30 :: trace st) (heap st)).
  assert (W1 : writes (trace st1) = writes (trace st))
    by (unfold st1; cbn [trace]; now rewrite writes_cons, app_nil_r).
  destruct answer as [r|e].
  2:{ exists st1. split; [reflexivity | now rewrite app_nil_r]. }
  unfold bind at 1. unfold raise_for_status at 1.
  destruct (400 <=? status r)%Z.
  { exists st1. split; [reflexivity | now rewrite app_nil_r]. }
  unfold ret at 1. unfold bind at 1. rewrite decode_run.
  destruct (decoded response_type r) as [v|e].
  2:{ exists st1. split; [reflexivity | now rewrite app_nil_r]. }
  unfold bind at 1.
  destruct (store_writes v st1) as (st2 & -> & W2).
  exists st2. split; [reflexivity | congruence].
Qed.

(** An attempt ends as [judge] says. *)
Lemma attempt_once_verdict (attempt : nat) (st : State) :
  nth params (heap st) [] = d ->
  let answer := session_get env (count is_http (trace st)) url d in
  let run := attempt_once env url params response_type key attempt st in
  fst run = judge response_type answer
  /\ writes (trace (snd run))
     = (writes (trace st)
        ++ match judge response_type answer with
           | Ok (Return v) => stored env key v
           | _ => []
           end)%list.
Proof.
  intros Hd answer. cbv zeta. rewrite attempt_once_run.
  destruct (attempt_body_reply st Hd) as (st1 & -> & W). fold answer in W.
  unfold judge. fold answer.
  destruct (reply response_type answer) as [v|e]; cbn [fst snd]; [auto|].
  rewrite app_nil_r in W. unfold on_error.
  destruct (is_ClientError e); [|cbn [fst snd]; rewrite app_nil_r; auto].
  destruct (retryable e); cbn [fst snd trace].
  - rewrite writes_app, writes_cons, writes_delay_events, !app_nil_r. auto.
  - rewrite writes_cons, !app_nil_r. auto.
Qed.

(** The loop obtains what [policy] says from the answers of the transport,
    and writes to the cache what it obtains. *)
Lemma retry_loop_policy (n : nat) :
  forall (a : nat) (st : State),
    nth params (heap st) [] = d ->
    let answer := fun k => session_get env k url d in
    let outcome := policy response_type answer (count is_http (trace st)) n in
    let run := retry_loop env url params response_type key (seq a n) st in
    fst run = result_of outcome
    /\ writes (trace (snd run))
       = (writes (trace st)
          ++ match outcome with
             | Ok (Some v) => stored env key v
             | _ => []
             end)%list.
Proof.
  induction n as [|n IH]; intros a st Hd; cbv zeta; cbn [seq policy].
  - cbn [retry_loop]. unfold after_loop, bind, log, emit, ret. cbn [fst snd trace].
    now rewrite writes_cons, !app_nil_r.
  - rewrite retry_loop_cons.
    pose proof (attempt_once_verdict a st Hd) as [V W].
    pose proof (@attempt_once_effects env url params d response_type key a st Hd)
      as (_ & _ & C & H).
    cbv zeta in V, W, C, H.
    destruct (attempt_once env url params response_type key a st) as [r st1].
    cbn [fst snd] in *. rewrite <- V.
    destruct r as [[v| |]|e]; rewrite <- V in W; cbn [result_of fst snd].
    + auto.
    + destruct (IH (S a) st1) as [R W']; [congruence|].
      cbv zeta in R, W'. rewrite C in R, W'. rewrite R, W', W, app_nil_r. auto.
    + unfold after_loop, bind, log, emit, ret. cbn [fst snd trace].
      now rewrite writes_cons, W, !app_nil_r.
    + rewrite W, !app_nil_r. auto.
Qed.

(** The loop sends one request more than attempts end with [continue] (but
    no more than it has attempts) and sleeps after each of these. *)
Lemma retry_loop_retries (n : nat) :
  forall (a : nat) (st : State),
    nth params (heap st) [] = d ->
    let answer := fun k => session_get env k url d in
    let r := retries response_type answer (count is_http (trace st)) n in
    let st' := snd (retry_loop env url params response_type key (seq a n) st) in
    requests (trace st') = (requests (trace st) ++ repeat (url, d) (Nat.min (S r) n))%list
    /\ sleeps (trace st')
       = (sleeps (trace st) ++ flat_map (fun i => sleeps (delay_events i)) (seq a r))%list.
Proof.
  induction n as [|n IH]; intros a st Hd; cbv zeta; cbn [seq retries].
  - cbn [retry_loop]. destruct (after_loop_quiet st) as (Q1 & Q2 & _).
    cbn [repeat seq flat_map Nat.min]. now rewrite !app_nil_r.
  - rewrite retry_loop_cons.
    pose proof (attempt_once_verdict a st Hd) as [V _].
    pose proof (@attempt_once_effects env url params d response_type key a st Hd)
      as (R1 & S1 & C1 & H1).
    cbv zeta in V, R1, S1, C1, H1.
    destruct (attempt_once env url params response_type key a st) as [r st1].
    cbn [fst snd] in *. rewrite <- V.
    destruct r as [[v| |]|e]; cbn [fst snd Nat.min repeat seq flat_map].
    + rewrite app_nil_r in *. destruct n; auto.
    + destruct (IH (S a) st1) as [R' S']; [congruence|].
      cbv zeta in R', S'. rewrite C1 in R', S'.
      rewrite R', S', R1, S1, <- !app_assoc. auto.
    + destruct (after_loop_quiet st1) as (Q1 & Q2 & _).
      rewrite app_nil_r in *. rewrite Q1, Q2. destruct n; auto.
    + rewrite app_nil_r in *. destruct n; auto.
Qed.

End Silent.

(** The look-up writes nothing to the cache. *)
Lemma cache_lookup_writes (env : Env) (key : string) (st : State) :
  writes (trace (snd (cache_lookup env key st))) = writes (trace st).
Proof.
  unfold cache_lookup. destruct (redis_client env) as [r|]; [|reflexivity].
  unfold try_except, bind, do_redis_get, loads, log, emit, ret, raise. cbn [fst snd].
  destruct (redis_get r _ key) as [[s|]|e]; cbn [Py.truthy_opt fst snd trace].
  - destruct (Py.truthy s); cbn [fst snd trace].
    + destruct (json_loads env s); cbn [fst snd trace is_RedisError];
        now rewrite !writes_cons, !app_nil_r.
    + now rewrite writes_cons, app_nil_r.
  - now rewrite writes_cons, app_nil_r.
  - destruct (is_RedisError e); cbn [fst snd trace];
      now rewrite ?writes_cons, ?app_nil_r.
Qed.

Lemma policy_ext (response_type : string) (f g : nat -> Result response) (n : nat) :
  (forall k, f k = g k) ->
  forall k, policy response_type f k n = policy response_type g k n.
Proof.
  intros H. induction n as [|n IH]; intros k; cbn [policy]; [reflexivity|].
  rewrite H. destruct (judge response_type (g k)) as [[v| |]|e]; auto.
Qed.

Lemma retries_ext (response_type : string) (f g : nat -> Result response) (n : nat) :
  (forall k, f k = g k) ->
  forall k, retries response_type f k n = retries response_type g k n.
Proof.
  intros H. induction n as [|n IH]; intros k; cbn [retries]; [reflexivity|].
  rewrite H. destruct (judge response_type (g k)) as [[v| |]|e]; auto.
Qed.

Lemma policy_shift (response_type : string) (f : nat -> Result response) (c n : nat) :
  forall k, policy response_type (fun i => f (c + i)%nat) k n
            = policy response_type f (c + k) n.
Proof.
  induction n as [|n IH]; intros k; cbn [policy]; [reflexivity|].
  destruct (judge response_type (f (c + k)%nat)) as [[v| |]|e]; auto.
  rewrite IH. now rewrite Nat.add_succ_r.
Qed.

Lemma retries_shift (response_type : string) (f : nat -> Result response) (c n : nat) :
  forall k, retries response_type (fun i => f (c + i)%nat) k n
            = retries response_type f (c + k) n.
Proof.
  induction n as [|n IH]; intros k; cbn [retries]; [reflexivity|].
  destruct (judge response_type (f (c + k)%nat)) as [[v| |]|e]; auto.
  rewrite IH. now rewrite Nat.add_succ_r.
Qed.

Lemma retries_le (response_type : string) (f : nat -> Result response) (n : nat) :
  forall k, (retries response_type f k n <= n)%nat.
Proof.
  induction n as [|n IH]; intros k; cbn [retries]; [lia|].
  destruct (judge response_type (f k)) as [[v| |]|e]; try lia.
  specialize (IH (S k)). lia.
Qed.

(** A whole call under a silent cache, in terms of the answers of the
    transport. *)
Lemma make_request_silent (env : Env) (url : string) (params : loc)
      (response_type : string) (st : State) :
  (params < List.length (heap st))%nat ->
  cache_silent env ->
  let d := with_api_key env (nth params (heap st) []) in
  let key := _generate_cache_key url d in
  let answer := fun k => session_get env (count is_http (trace st) + k) url d in
  let outcome := policy response_type answer 0 MAX_RETRIES in
  let r := retries response_type answer 0 MAX_RETRIES in
  let run := _make_request env url params response_type st in
  fst run = result_of outcome
  /\ requests (trace (snd run))
     = (requests (trace st) ++ repeat (url, d) (Nat.min (S r) MAX_RETRIES))%list
  /\ sleeps (trace (snd run))
     = (sleeps (trace st) ++ backoff (Nat.min r (MAX_RETRIES - 1)))%list
  /\ writes (trace (snd run))
     = (writes (trace st)
        ++ match outcome with
           | Ok (Some v) => stored env key v
           | _ => []
           end)%list.
Proof.
  intros Hp Hcache d key answer outcome r run.
  subst run. rewrite make_request_run by assumption. fold d. fold key.
  set (st0 := mkState (trace st) (heap_with_api_key env params (heap st))).
  pose proof (cache_lookup_writes env key st0) as W0.
  destruct (@cache_lookup_silent env key st0 Hcache) as (st1 & Hrun & S1 & R1 & C1 & H1).
  rewrite Hrun in W0 |- *. cbn [snd] in W0.
  set (st2 := mkState (EvLog INFO :: trace st1) (heap st1)).
  assert (Hd2 : nth params (heap st2) [] = d).
  { unfold st2. cbn [heap]. rewrite H1. unfold st0. cbn [heap].
    now apply nth_heap_with_api_key. }
  assert (C2 : count is_http (trace st2) = count is_http (trace st)).
  { unfold st2. cbn [trace]. rewrite count_http_cons. cbn [is_http Nat.add].
    rewrite C1. reflexivity. }
  pose proof (@retry_loop_policy env url params d response_type key Hcache
                MAX_RETRIES 0 st2 Hd2) as [P W].
  pose proof (@retry_loop_retries env url params d response_type key Hcache
                MAX_RETRIES 0 st2 Hd2) as [R S].
  cbv zeta in P, W, R, S. rewrite C2 in P, W, R, S.
  assert (Ep : policy response_type (fun k => session_get env k url d)
                 (count is_http (trace st)) MAX_RETRIES = outcome).
  { pose proof (@policy_shift response_type (fun i => session_get env i url d)
                  (count is_http (trace st)) MAX_RETRIES 0) as E.
    cbv beta in E. rewrite Nat.add_0_r in E. symmetry. exact E. }
  assert (Er : retries response_type (fun k => session_get env k url d)
                 (count is_http (trace st)) MAX_RETRIES = r).
  { pose proof (@retries_shift response_type (fun i => session_get env i url d)
                  (count is_http (trace st)) MAX_RETRIES 0) as E.
    cbv beta in E. rewrite Nat.add_0_r in E. symmetry. exact E. }
  rewrite Ep in P, W. rewrite Er in R, S.
  rewrite P, W, R, S.
  rewrite backoff_of_failures by (subst r; apply retries_le).
  unfold st2. cbn [trace].
  rewrite requests_cons, sleeps_cons, writes_cons, !app_nil_r.
  rewrite R1, S1, W0. unfold st0. cbn [trace]. auto.
Qed.

(** X2. When the cache stays silent, one call of [_make_request] is decided
    by the answers of the transport alone.  With [answer k] the k-th answer
    during the call, the call returns what [policy] obtains from the (at
    most [MAX_RETRIES]) answers: the decoded payload of the first response
    with a status below 400, provided every attempt before it failed with a
    [ClientResponseError] of status 429 or at least 500; [None] when there
    is none; and it raises what the transport or the decoding raised when
    that is no [aiohttp.ClientError].
    It sends one request more than attempts were retried (four at most)
    and sleeps the back-off delays of the retried attempts. *)
Theorem make_request_follows_policy (env : Env) (url : string) (params : loc)
        (response_type : string) (st : State) :
  (params < List.length (heap st))%nat ->
  cache_silent env ->
  let d := with_api_key env (nth params (heap st) []) in
  let answer := fun k => session_get env (count is_http (trace st) + k) url d in
  let r := retries response_type answer 0 MAX_RETRIES in
  let run := _make_request env url params response_type st in
  fst run = result_of (policy response_type answer 0 MAX_RETRIES)
  /\ requests (trace (snd run))
     = (requests (trace st) ++ repeat (url, d) (Nat.min (S r) MAX_RETRIES))%list
  /\ sleeps (trace (snd run))
     = (sleeps (trace st) ++ backoff (Nat.min r (MAX_RETRIES - 1)))%list.
Proof.
  intros Hp Hcache d answer r run.
  destruct (@make_request_silent env url params response_type st Hp Hcache)
    as (H1 & H2 & H3 & _).
  repeat split; assumption.
Qed.

(** A 503 followed by a 200: the payload of the 200 after two requests and
    a delay of one second. *)
Lemma make_request_follows_policy_witness :
  let run := _make_request (Examples.env_of Examples7.busy_once) "u" 0 "json"
               Examples2.one_object in
  fst run = Ok (JStr "ok")
  /\ requests (trace (snd run)) = repeat ("u", BASE_PARAMS) 2
  /\ sleeps (trace (snd run)) = [1%Z].
Proof.
  intros run.
  assert (Hp : (0 < List.length (heap Examples2.one_object))%nat) by (cbn; lia).
  assert (Hc : cache_silent (Examples.env_of Examples7.busy_once)) by exact Logic.I.
  destruct (@make_request_follows_policy (Examples.env_of Examples7.busy_once) "u" 0
              "json" Examples2.one_object Hp Hc) as (H1 & H2 & H3).
  split; [exact H1 | split; [exact H2 | exact H3]].
Defined.

(** X3. When the cache stays silent, [_make_request] writes to it exactly
    when it obtained a payload from the transport, and then once: under the
    key of the call, the text [json.dumps(result)], with the expiry
    [CACHE_TTL].  A call that fails (returns [None] after its attempts, or
    raises) writes nothing, and so does a call without a cache. *)
Theorem make_request_writes_what_it_fetched (env : Env) (url : string) (params : loc)
        (response_type : string) (st : State) :
  (params < List.length (heap st))%nat ->
  cache_silent env ->
  let d := with_api_key env (nth params (heap st) []) in
  let key := _generate_cache_key url d in
  let answer := fun k => session_get env (count is_http (trace st) + k) url d in
  let run := _make_request env url params response_type st in
  writes (trace (snd run))
  = (writes (trace st)
     ++ match policy response_type answer 0 MAX_RETRIES, redis_client env with
        | Ok (Some v), Some _ => [(key, Json.dumps false v, settings.CACHE_TTL)]
        | _, _ => []
        end)%list.
Proof.
  intros Hp Hcache d key answer run.
  destruct (@make_request_silent env url params response_type st Hp Hcache)
    as (_ & _ & _ & H).
  cbv zeta in H. subst run. rewrite H. reflexivity.
Qed.

(** An empty cache and a 503 followed by a 200: the payload of the 200 is
    written once. *)
Lemma make_request_writes_what_it_fetched_witness :
  writes (trace (snd (_make_request
                        (Examples7.env_with_cache Examples7.cache_empty Examples7.busy_once)
                        "u" 0 "json" Examples2.one_object)))
  = [(_generate_cache_key "u" BASE_PARAMS, Json.dumps false (JStr "ok"),
      settings.CACHE_TTL)].
Proof.
  assert (Hp : (0 < List.length (heap Examples2.one_object))%nat) by (cbn; lia).
  assert (Hc : cache_silent
                 (Examples7.env_with_cache Examples7.cache_empty Examples7.busy_once)).
  { split; intros; exact Logic.I. }
  exact (@make_request_writes_what_it_fetched
           (Examples7.env_with_cache Examples7.cache_empty Examples7.busy_once)
           "u" 0 "json" Examples2.one_object Hp Hc).
Defined.

(** X4. The cache cannot change what a call does apart from the cache
    itself: two worlds with the same credential and the same transport, in
    both of which the cache stays silent (none is configured, it is empty,
    or it is down and fails every operation with a [RedisError]), give the
    same result, the same requests, the same delays and the same parameter
    mappings. *)
Theorem make_request_cache_transparent (env1 env2 : Env) (url : string) (params : loc)
        (response_type : string) (st : State) :
  (params < List.length (heap st))%nat ->
  cache_silent env1 -> cache_silent env2 ->
  NCBI_API_KEY env1 = NCBI_API_KEY env2 ->
  (forall n u p, session_get env1 n u p = session_get env2 n u p) ->
  let run1 := _make_request env1 url params response_type st in
  let run2 := _make_request env2 url params response_type st in
  fst run1 = fst run2
  /\ requests (trace (snd run1)) = requests (trace (snd run2))
  /\ sleeps (trace (snd run1)) = sleeps (trace (snd run2))
  /\ heap (snd run1) = heap (snd run2).
Proof.
  intros Hp Hc1 Hc2 Hkey Hget run1 run2.
  destruct (@make_request_silent env1 url params response_type st Hp Hc1)
    as (A1 & A2 & A3 & _).
  destruct (@make_request_silent env2 url params response_type st Hp Hc2)
    as (B1 & B2 & B3 & _).
  destruct (@make_request_frame env1 url params response_type st Hp) as [F1 _].
  destruct (@make_request_frame env2 url params response_type st Hp) as [F2 _].
  cbv zeta in *. subst run1 run2.
  assert (Ed : with_api_key env1 (nth params (heap st) [])
               = with_api_key env2 (nth params (heap st) []))
    by (unfold with_api_key; now rewrite Hkey).
  assert (Eh : heap_with_api_key env1 params (heap st)
               = heap_with_api_key env2 params (heap st))
    by (unfold heap_with_api_key, with_api_key; now rewrite Hkey).
  rewrite A1, A2, A3, B1, B2, B3, F1, F2, Ed, Eh.
  set (f := fun k => session_get env1 _ url _).
  set (g := fun k => session_get env2 _ url _).
  assert (Hfg : forall k, f k = g k) by (intros k; apply Hget).
  rewrite (@policy_ext response_type f g MAX_RETRIES Hfg 0).
  rewrite (@retries_ext response_type f g MAX_RETRIES Hfg 0).
  auto.
Qed.

(** A cache that is down against no cache at all. *)
Lemma make_request_cache_transparent_witness :
  let run1 := _make_request
                (Examples7.env_with_cache Examples7.cache_down Examples7.busy_once)
                "u" 0 "json" Examples2.one_object in
  let run2 := _make_request (Examples.env_of Examples7.busy_once)
                "u" 0 "json" Examples2.one_object in
  fst run1 = fst run2
  /\ requests (trace (snd run1)) = requests (trace (snd run2))
  /\ sleeps (trace (snd run1)) = sleeps (trace (snd run2))
  /\ heap (snd run1) = heap (snd run2).
Proof.
  apply (@make_request_cache_transparent
           (Examples7.env_with_cache Examples7.cache_down Examples7.busy_once)
           (Examples.env_of Examples7.busy_once) "u" 0 "json" Examples2.one_object).
  - cbn. lia.
  - split; intros; reflexivity.
  - exact Logic.I.
  - reflexivity.
  - reflexivity.
Defined.

(* ===================================================================== *)
(** * The cache in front of the transport                                *)
(* ===================================================================== *)

(** A look-up that finds the non-empty text [s]. *)
Lemma cache_lookup_found (env : Env) (r : Redis) (key s : string) (st : State) :
  redis_client env = Some r ->
  redis_get r (count is_redis_get (trace st)) key = Ok (Some s) ->
  s <> "" ->
  cache_lookup env key st
  = (match json_loads env s with
     | Some v => Ok (Some v)
     | None => Raise JSONDecodeError
     end,
     mkState (EvLog INFO :: EvRedisGet key :: trace st) (heap st)).
Proof.
  intros Hr Hget Hs. unfold cache_lookup. rewrite Hr.
  unfold try_except, bind, do_redis_get, loads, log, emit, ret, raise. cbn [fst snd].
  rewrite Hget. destruct s as [|c s]; [contradiction|].
  cbn [Py.truthy_opt Py.truthy fst snd trace heap].
  destruct (json_loads env (String c s)); reflexivity.
Qed.

(** X5. A cache hit: when the look-up under the key of the call finds a
    non-empty text that [json.loads] decodes to [v], [_make_request]
    returns [v], and all it does besides putting the credential into the
    parameters is that look-up and one INFO record: no request is sent,
    nothing is slept and nothing is written to the cache. *)
Theorem make_request_cache_hit (env : Env) (r : Redis) (url : string) (params : loc)
        (response_type s : string) (v : JSON) (st : State) :
  (params < List.length (heap st))%nat ->
  redis_client env = Some r ->
  let d := with_api_key env (nth params (heap st) []) in
  let key := _generate_cache_key url d in
  redis_get r (count is_redis_get (trace st)) key = Ok (Some s) ->
  s <> "" ->
  json_loads env s = Some v ->
  _make_request env url params response_type st
  = (Ok v, mkState (EvLog INFO :: EvRedisGet key :: trace st)
             (heap_with_api_key env params (heap st))).
Proof.
  intros Hp Hr d key Hget Hs Hv.
  rewrite make_request_run by assumption. fold d. fold key.
  rewrite (@cache_lookup_found env r key s
             (mkState (trace st) (heap_with_api_key env params (heap st))) Hr Hget Hs).
  rewrite Hv. reflexivity.
Qed.

(** The cache holds the text [true]; the transport would time out. *)
Lemma make_request_cache_hit_witness :
  _make_request (Examples7.env_with_cache (Examples7.cache_holding "true")
                   (fun _ => Raise TimeoutError))
    "u" 0 "json" Examples2.one_object
  = (Ok (JBool true),
     mkState [EvLog INFO; EvRedisGet (_generate_cache_key "u" BASE_PARAMS)]
             [BASE_PARAMS]).
Proof.
  apply (@make_request_cache_hit
           (Examples7.env_with_cache (Examples7.cache_holding "true")
              (fun _ => Raise TimeoutError))
           (Examples7.cache_holding "true") "u" 0 "json" "true" (JBool true)
           Examples2.one_object).
  - cbn. lia.
  - reflexivity.
  - reflexivity.
  - discriminate.
  - reflexivity.
Defined.

(** X6. A cache entry that is not valid JSON is not treated as a miss: the
    [JSONDecodeError] of [json.loads] leaves [_make_request] (line 56
    catches [RedisError] only), and the transport is not asked. *)
Theorem make_request_corrupt_cache_entry (env : Env) (r : Redis) (url : string)
        (params : loc) (response_type s : string) (st : State) :
  (params < List.length (heap st))%nat ->
  redis_client env = Some r ->
  let d := with_api_key env (nth params (heap st) []) in
  let key := _generate_cache_key url d in
  redis_get r (count is_redis_get (trace st)) key = Ok (Some s) ->
  s <> "" ->
  json_loads env s = None ->
  _make_request env url params response_type st
  = (Raise JSONDecodeError,
     mkState (EvLog INFO :: EvRedisGet key :: trace st)
             (heap_with_api_key env params (heap st))).
Proof.
  intros Hp Hr d key Hget Hs Hv.
  rewrite make_request_run by assumption. fold d. fold key.
  rewrite (@cache_lookup_found env r key s
             (mkState (trace st) (heap_with_api_key env params (heap st))) Hr Hget Hs).
  rewrite Hv. reflexivity.
Qed.

(** The cache holds a text that [json.loads] rejects; the transport would
    answer. *)
Lemma make_request_corrupt_cache_entry_witness :
  _make_request (Examples7.env_with_cache (Examples7.cache_holding "{")
                   Examples7.busy_once)
    "u" 0 "json" Examples2.one_object
  = (Raise JSONDecodeError,
     mkState [EvLog INFO; EvRedisGet (_generate_cache_key "u" BASE_PARAMS)]
             [BASE_PARAMS]).
Proof.
  apply (@make_request_corrupt_cache_entry
           (Examples7.env_with_cache (Examples7.cache_holding "{") Examples7.busy_once)
           (Examples7.cache_holding "{") "u" 0 "json" "{" Examples2.one_object).
  - cbn. lia.
  - reflexivity.
  - reflexivity.
  - discriminate.
  - reflexivity.
Defined.

(** X7. What one call of [_make_request] leaves alone.  Of the dict objects
    only its argument can change, and only by receiving the credential; no
    dict object appears or disappears.  The events recorded before the call
    stay, and every new one concerns this call: a request goes to the given
    URL with the parameters that hold the credential and a total timeout of
    30 seconds, a cache look-up or write uses the cache key of these
    parameters, and a write expires after [CACHE_TTL]. *)
Theorem make_request_footprint (env : Env) (url : string) (params : loc)
        (response_type : string) (st : State) :
  (params < List.length (heap st))%nat ->
  let d := with_api_key env (nth params (heap st) []) in
  let st' := snd (_make_request env url params response_type st) in
  nth params (heap st') [] = d
  /\ (forall other, other <> params -> nth other (heap st') [] = nth other (heap st) [])
  /\ List.length (heap st') = List.length (heap st)
  /\ grows (request_event url d (_generate_cache_key url d)) (trace st) (trace st').
Proof.
  intros Hp d st'.
  destruct (@make_request_frame env url params response_type st Hp) as [Hh Hg].
  fold d in Hg. fold st' in Hh, Hg. rewrite Hh.
  split; [now apply nth_heap_with_api_key|].
  split; [|split; [|exact Hg]].
  - intros other Ho. unfold heap_with_api_key.
    destruct (NCBI_API_KEY env) as [[|c k]|]; auto.
    apply nth_list_set_other. congruence.
  - unfold heap_with_api_key.
    destruct (NCBI_API_KEY env) as [[|c k]|]; auto.
    apply length_list_set.
Qed.

(** Two dict objects, a credential, and a call on the second object. *)
Lemma make_request_footprint_witness :
  let env := Examples2.env_with_key "K" JNull in
  let st := mkState [] [BASE_PARAMS; BASE_PARAMS] in
  let d := Dict.setitem BASE_PARAMS "api_key" (JStr "K") in
  let st' := snd (_make_request env "u" 1 "json" st) in
  nth 1 (heap st') [] = d
  /\ (forall other, other <> 1%nat -> nth other (heap st') [] = nth other (heap st) [])
  /\ List.length (heap st') = 2%nat
  /\ grows (request_event "u" d (_generate_cache_key "u" d)) [] (trace st').
Proof.
  intros env st d st'.
  apply (@make_request_footprint env "u" 1 "json" st).
  cbn. lia.
Defined.

(* ===================================================================== *)
(** * The gateway operations on an upstream failure                      *)
(* ===================================================================== *)

Lemma idlist_of_falsy (data : JSON) (st : State) :
  Dyn.truthy data = false -> idlist_of data st = (Ok (JList []), st).
Proof. intros H. unfold idlist_of. now rewrite H. Qed.

(** X8. An upstream failure becomes an empty result, not an error.  When
    its call of [_make_request] returns [None] (all attempts failed) or any
    other empty payload, [search_pubmed_ids] returns the empty list,
    [check_spelling] reports the query without a correction,
    [get_summaries] and [find_related_ids] return the empty list (and
    [find_related_ids] sends no second request), and
    [fetch_article_details] returns [None]; none of them does anything
    after the call. *)
Theorem upstream_failure_gives_empty (env : Env) (st st1 : State) (data : JSON) :
  Dyn.truthy data = false ->
  let p := List.length (heap st) in
  let call := fun endpoint d response_type =>
                _make_request env (settings.EUTILS_BASE_URL ++ endpoint) p response_type
                  (with_params st d) in
  (forall query search_field max_results start_date end_date,
      call "esearch.fcgi"
           (search_params (final_query query search_field) max_results start_date end_date)
           "json" = (Ok data, st1) ->
      search_pubmed_ids env query search_field max_results start_date end_date st
      = (Ok (JList []), st1))
  /\ (forall query,
         call "espell.fcgi" (espell_params query) "json" = (Ok data, st1) ->
         check_spelling env query st = (Ok (mkSpellCheckResponse query None false), st1))
  /\ (forall pmids,
         pmids <> [] ->
         call "esummary.fcgi" (esummary_params pmids) "json" = (Ok data, st1) ->
         get_summaries env pmids st = (Ok [], st1))
  /\ (forall source_pmid max_results,
         call "elink.fcgi" (elink_params source_pmid) "json" = (Ok data, st1) ->
         find_related_ids env source_pmid max_results st = (Ok (JList []), st1))
  /\ (forall pmid,
         call "efetch.fcgi" (efetch_params pmid) "text" = (Ok data, st1) ->
         fetch_article_details env pmid st = (Ok None, st1)).
Proof.
  intros Hf p call. subst call. cbv beta. unfold with_params.
  split; [|split; [|split; [|split]]].
  - intros query search_field max_results start_date end_date Hrun.
    rewrite search_pubmed_ids_unfold. unfold bind at 1. fold p. rewrite Hrun.
    now apply idlist_of_falsy.
  - intros query Hrun. unfold check_spelling.
    unfold bind at 1. unfold alloc at 1. cbn [fst snd].
    fold (espell_params query). fold p. unfold bind at 1. rewrite Hrun.
    rewrite Hf. reflexivity.
  - intros pmids Hne Hrun. unfold get_summaries.
    destruct pmids as [|x pmids]; [contradiction|].
    unfold bind at 1. unfold alloc at 1. cbn [fst snd].
    fold (esummary_params (x :: pmids)). fold p. unfold bind at 1. rewrite Hrun.
    unfold bind at 1. rewrite Hf. reflexivity.
  - intros source_pmid max_results Hrun. unfold find_related_ids.
    unfold bind at 1. unfold alloc at 1. cbn [fst snd].
    fold (elink_params source_pmid). fold p. unfold bind at 1. rewrite Hrun.
    unfold bind at 1. rewrite Hf. reflexivity.
  - intros pmid Hrun. unfold fetch_article_details.
    unfold bind at 1. unfold alloc at 1. cbn [fst snd].
    fold (efetch_params pmid). fold p.
    unfold try_except. unfold bind at 1. rewrite Hrun.
    rewrite Hf. reflexivity.
Qed.

(** A transport that answers every request with status 404. *)
Lemma upstream_failure_gives_empty_witness :
  let env := Examples.env_of (fun _ => Ok (Examples.no_payload 404)) in
  fst (search_pubmed_ids env "cancer" None 10 None None initial_state) = Ok (JList [])
  /\ fst (fetch_article_details env "1" initial_state) = Ok None.
Proof.
  intros env. split.
  - set (run := _make_request env (settings.EUTILS_BASE_URL ++ "esearch.fcgi") 0 "json"
                  (with_params initial_state
                     (search_params (final_query "cancer" None) 10 None None))).
    destruct (@upstream_failure_gives_empty env initial_state (snd run) JNull eq_refl)
      as (H & _).
    rewrite (H "cancer" None 10%Z None None); [reflexivity|].
    vm_compute. reflexivity.
  - set (run := _make_request env (settings.EUTILS_BASE_URL ++ "efetch.fcgi") 0 "text"
                  (with_params initial_state (efetch_params "1"))).
    destruct (@upstream_failure_gives_empty env initial_state (snd run) JNull eq_refl)
      as (_ & _ & _ & _ & H).
    rewrite (H "1"); [reflexivity|].
    vm_compute. reflexivity.
Defined.

(* ===================================================================== *)
(** * check_spelling                                                     *)
(* ===================================================================== *)

(** The verdict of lines 111-112 on the value found under [corrected]. *)
Lemma spelling_verdict (query : string) (corrected : JSON) (st st' : State)
      (r : SpellCheckResponse) :
  (differs <- (if Dyn.truthy corrected then
                 match corrected with
                 | JStr c => ret (negb (String.eqb (Py.lower c) (Py.lower query)))
                 | _ => raise AttributeError
                 end
               else ret false) ;;
   corrected_query <- lift (Dyn.as_opt_str corrected) ;;
   ret (mkSpellCheckResponse query corrected_query differs)) st = (Ok r, st') ->
  original_query r = query
  /\ (has_correction r = true
      <-> exists c, corrected_query r = Some c /\ c <> "" /\ Py.lower c <> Py.lower query).
Proof.
  unfold bind, lift, ret, raise.
  destruct corrected as [|b|z|c|l|d]; cbn [Dyn.truthy Dyn.as_opt_str].
  - intros H. injection H as <- _. cbn. split; [reflexivity|].
    split; [discriminate | intros (c & Hc & _); discriminate].
  - destruct b; discriminate.
  - destruct (negb (z =? 0)%Z); discriminate.
  - destruct (Py.truthy c) eqn:Ht; intros H; injection H as <- _;
      cbn [original_query corrected_query has_correction].
    + split; [reflexivity|]. rewrite negb_true_iff, String.eqb_neq. split.
      * intros Hl. exists c. repeat split; [|exact Hl].
        intros ->. discriminate.
      * intros (c' & Hc & _ & Hl). injection Hc as <-. exact Hl.
    + split; [reflexivity|].
      split; [discriminate | intros (c' & Hc & Hne & _)].
      injection Hc as <-. destruct c; [now destruct Hne | discriminate].
  - destruct l; discriminate.
  - destruct d; discriminate.
Qed.

(** X9. Whenever [check_spelling] returns, the response repeats the query
    as [original_query], and [has_correction] is true exactly when
    [corrected_query] is a non-empty string that differs from the query
    after both are put in lower case.  (A suggestion that differs only in
    case is passed on in [corrected_query], with [has_correction] false.) *)
Theorem check_spelling_verdict (env : Env) (query : string) (st : State)
        (r : SpellCheckResponse) :
  fst (check_spelling env query st) = Ok r ->
  original_query r = query
  /\ (has_correction r = true
      <-> exists c, corrected_query r = Some c /\ c <> "" /\ Py.lower c <> Py.lower query).
Proof.
  unfold check_spelling.
  unfold bind at 1. unfold alloc at 1. cbn [fst snd].
  unfold bind at 1.
  match goal with |- context [_make_request ?e ?u ?p ?t ?s] =>
    destruct (_make_request e u p t s) as [[data|e1] st1] end; [|discriminate].
  destruct (Dyn.truthy data); cbn [negb].
  2:{ unfold ret. cbn [fst]. intros H. injection H as <-. cbn. split; [reflexivity|].
      split; [discriminate | intros (c & Hc & _); discriminate]. }
  unfold bind at 1. unfold lift at 1.
  destruct (Dyn.get data "es-result" (JDict [])) as [es|e]; [|discriminate].
  unfold bind at 1. unfold lift at 1.
  destruct (Dyn.get es "corrected" JNull) as [corrected|e]; [|discriminate].
  match goal with |- fst (?m ?s) = _ -> _ => destruct (m s) as [[r'|e] st2] eqn:E end;
    [|discriminate].
  cbn [fst]. intros H. injection H as <-.
  exact (spelling_verdict query corrected st1 E).
Qed.

(** The service suggests [cancer] for [cancr], and [Cancer] for [cancer]. *)
Lemma check_spelling_verdict_witness :
  let suggest := fun c => Examples3.env_answering
                            (JDict [("es-result", JDict [("corrected", JStr c)])]) in
  fst (check_spelling (suggest "cancer") "cancr" initial_state)
  = Ok (mkSpellCheckResponse "cancr" (Some "cancer") true)
  /\ fst (check_spelling (suggest "Cancer") "cancer" initial_state)
     = Ok (mkSpellCheckResponse "cancer" (Some "Cancer") false)
  /\ (has_correction (mkSpellCheckResponse "cancr" (Some "cancer") true) = true
      <-> exists c, Some "cancer" = Some c /\ c <> "" /\ Py.lower c <> Py.lower "cancr").
Proof.
  intros suggest.
  split; [vm_compute; reflexivity | split; [vm_compute; reflexivity|]].
  apply (@check_spelling_verdict (suggest "cancer") "cancr" initial_state
           (mkSpellCheckResponse "cancr" (Some "cancer") true)).
  vm_compute. reflexivity.
Defined.

(* ===================================================================== *)
(** * search_pubmed_ids: the term and the other parameters               *)
(* ===================================================================== *)

(** X10. Wrapping is idempotent for the field tags the router lets through
    (two to four letters in square brackets): the term that
    [search_pubmed_ids] builds from a query and such a tag embeds a field
    tag itself, so building a term from it again, with the same or any
    other field, gives it back unchanged; a query is never wrapped twice. *)
Theorem final_query_idempotent (query field : string) (other : option string) :
  SpecSearch.is_field_tag field ->
  final_query (final_query query (Some field)) other = final_query query (Some field).
Proof.
  intros Htag.
  assert (Hemb : Re.search Re.field_tag (final_query query (Some field)) = true).
  { unfold final_query.
    destruct (Re.search Re.field_tag query) eqn:E.
    - now rewrite andb_false_r.
    - rewrite andb_true_r.
      assert (Hne : Py.truthy_opt (Some field) = true).
      { destruct Htag as (letters & -> & _). reflexivity. }
      rewrite Hne. apply search_field_tag.
      exists ("(" ++ query ++ ")"), field, "". split; [|exact Htag].
      cbn [Parser.or_empty]. rewrite append_empty_r.
      now rewrite !append_assoc. }
  unfold final_query at 1. rewrite Hemb. now rewrite andb_false_r.
Qed.

Lemma final_query_idempotent_witness :
  final_query (final_query "cancer" (Some "[AU]")) (Some "[TI]") = "(cancer)[AU]".
Proof.
  apply (@final_query_idempotent "cancer" "[AU]" (Some "[TI]")).
  exists "AU". repeat split; cbn; lia.
Defined.

(** The requests of [search_pubmed_ids] are those of its call of
    [_make_request]. *)
Lemma search_pubmed_ids_requests (env : Env) (query : string) (search_field : option string)
      (max_results : Z) (start_date end_date : option string) (st : State) :
  let ps := search_params (final_query query search_field) max_results
              start_date end_date in
  let st' := snd (search_pubmed_ids env query search_field max_results
                    start_date end_date st) in
  exists k,
    (k <= MAX_RETRIES)%nat
    /\ requests (trace st')
       = (requests (trace st)
          ++ repeat ((settings.EUTILS_BASE_URL ++ "esearch.fcgi")%string,
                     with_api_key env ps) k)%list.
Proof.
  intros ps st'. subst st'. rewrite search_pubmed_ids_unfold. fold ps.
  set (st0 := mkState (trace st) (heap st ++ [ps])%list).
  assert (Hp : (List.length (heap st) < List.length (heap st0))%nat).
  { unfold st0. cbn [heap]. rewrite length_app. cbn [List.length]. lia. }
  destruct (@make_request_effects env (settings.EUTILS_BASE_URL ++ "esearch.fcgi")
              (List.length (heap st)) "json" st0 Hp) as (k & m & Hkm & _ & R & _).
  assert (Hd : nth (List.length (heap st)) (heap st0) [] = ps)
    by (unfold st0; cbn [heap]; apply nth_alloc).
  rewrite Hd in R. exists k. split; [lia|].
  unfold bind.
  destruct (_make_request env _ (List.length (heap st)) "json" st0) as [[data|e] st2];
    cbn [fst snd] in *; [rewrite idlist_of_state|]; exact R.
Qed.

(** X11. The request of [search_pubmed_ids].  Every request of a call (at
    most [MAX_RETRIES]) goes to esearch with one and the same parameter
    mapping: the one built from the arguments, with the credential added.
    That mapping names the database [pubmed], asks for JSON, carries
    [str(max_results)] as [retmax] and sorts by date; it has [mindate],
    respectively [maxdate], exactly when a non-empty start, respectively
    end, date is given, and [datetype] ([pdat]) exactly when one of them
    is. *)
Theorem search_pubmed_ids_parameters (env : Env) (query : string)
        (search_field : option string) (max_results : Z)
        (start_date end_date : option string) (st : State) :
  let ps := search_params (final_query query search_field) max_results
              start_date end_date in
  let st' := snd (search_pubmed_ids env query search_field max_results
                    start_date end_date st) in
  (exists k,
      (k <= MAX_RETRIES)%nat
      /\ requests (trace st')
         = (requests (trace st)
            ++ repeat ((settings.EUTILS_BASE_URL ++ "esearch.fcgi")%string,
                     with_api_key env ps) k)%list)
  /\ Dict.lookup ps "db" = Some (JStr "pubmed")
  /\ Dict.lookup ps "retmode" = Some (JStr "json")
  /\ Dict.lookup ps "retmax" = Some (JStr (Json.str_of_int max_results))
  /\ Dict.lookup ps "sort" = Some (JStr "date")
  /\ Dict.lookup ps "mindate"
     = match start_date with
       | Some (String c s) => Some (JStr (String c s))
       | _ => None
       end
  /\ Dict.lookup ps "maxdate"
     = match end_date with
       | Some (String c s) => Some (JStr (String c s))
       | _ => None
       end
  /\ Dict.lookup ps "datetype"
     = (if Py.truthy_opt start_date || Py.truthy_opt end_date
        then Some (JStr "pdat") else None).
Proof.
  intros ps st'. split; [apply search_pubmed_ids_requests|].
  subst ps. unfold search_params.
  destruct start_date as [[|c s]|], end_date as [[|c' s']|]; repeat split.
Qed.

(* ===================================================================== *)
(** * get_summaries and find_related_ids: the requests                   *)
(* ===================================================================== *)

Lemma build_summary_quiet (info : JSON) : preserves quiet (build_summary info).
Proof.
  unfold build_summary. repeat quiet_step.
  destruct (Dyn.as_str a), (Dyn.as_str a0), (Dyn.as_str a1), (Dyn.as_str a2),
    (Dyn.as_str_list a5); quiet_step.
Qed.

Lemma summaries_loop_quiet (result : dict) (uids : list JSON) :
  forall summaries, preserves quiet (summaries_loop result uids summaries).
Proof.
  induction uids as [|pmid rest IH]; intros summaries; cbn [summaries_loop].
  - quiet_step.
  - quiet_step; [quiet_step|].
    destruct a; [|apply IH].
    quiet_step; [quiet_step|].
    quiet_step; [|apply IH].
    quiet_step; [|repeat quiet_step].
    quiet_step; [apply build_summary_quiet | quiet_step].
Qed.

Lemma idlist_of_quiet (data : JSON) : preserves quiet (idlist_of data).
Proof. unfold idlist_of. destruct (Dyn.truthy data); repeat quiet_step. Qed.

(** What a gateway operation does after [_make_request] sends nothing: the
    requests of [data <- _make_request ..;; k data] are those of the call. *)
Lemma requests_of_call {A} (env : Env) (url : string) (d : dict) (response_type : string)
      (k : JSON -> M A) (st : State) :
  (forall data, preserves quiet (k data)) ->
  let p := List.length (heap st) in
  let st' := snd ((data <- _make_request env url p response_type ;; k data)
                    (with_params st d)) in
  exists n,
    (n <= MAX_RETRIES)%nat
    /\ requests (trace st') = (requests (trace st) ++ repeat (url, with_api_key env d) n)%list
    /\ (p < List.length (heap st'))%nat.
Proof.
  intros Hk p st'. subst st'.
  set (st0 := with_params st d).
  assert (Hp : (p < List.length (heap st0))%nat).
  { unfold st0, with_params. cbn [heap]. rewrite length_app. cbn [List.length].
    subst p. lia. }
  destruct (@make_request_effects env url p response_type st0 Hp)
    as (n & m & Hnm & _ & R & _).
  destruct (@make_request_frame env url p response_type st0 Hp) as [Hh _].
  assert (Hd : nth p (heap st0) [] = d)
    by (unfold st0, with_params; cbn [heap]; apply nth_alloc).
  rewrite Hd in R. exists n. split; [lia|].
  assert (Hlen : List.length (heap (snd (_make_request env url p response_type st0)))
                 = List.length (heap st0)).
  { rewrite Hh. unfold heap_with_api_key.
    destruct (NCBI_API_KEY env) as [[|c key]|]; auto. apply length_list_set. }
  unfold bind.
  destruct (_make_request env url p response_type st0) as [[data|e] st1];
    cbn [fst snd] in *.
  - destruct (Hk data st1) as (Q1 & _ & _ & Q4).
    rewrite Q1, Q4, Hlen. split; [exact R | exact Hp].
  - rewrite Hlen. split; [exact R | exact Hp].
Qed.

(** The requests of [get_summaries] are those of its call of
    [_make_request], if it makes one. *)
Lemma get_summaries_requests (env : Env) (pmids : list string) (st : State) :
  let url := settings.EUTILS_BASE_URL ++ "esummary.fcgi" in
  let st' := snd (get_summaries env pmids st) in
  exists n,
    (n <= MAX_RETRIES)%nat /\ (pmids = [] -> n = 0%nat)
    /\ requests (trace st')
       = (requests (trace st)
          ++ repeat (url, with_api_key env (esummary_params pmids)) n)%list.
Proof.
  intros url st'.
  destruct pmids as [|x pmids].
  { exists 0%nat. cbn [repeat]. rewrite app_nil_r. repeat split. unfold MAX_RETRIES. lia. }
  subst st'. unfold get_summaries.
  unfold bind at 1. unfold alloc at 1. cbn [fst snd].
  fold (esummary_params (x :: pmids)). fold (with_params st (esummary_params (x :: pmids))).
  fold url.
  match goal with |- context [bind (_make_request _ _ _ _) ?k] =>
    destruct (@requests_of_call _ env url (esummary_params (x :: pmids)) "json" k st)
      as (n & Hn & R & _) end.
  - intros data. quiet_step.
    { destruct (Dyn.truthy data); repeat quiet_step. }
    destruct (negb a); [quiet_step|].
    repeat quiet_step.
    destruct a0; try quiet_step. apply summaries_loop_quiet.
  - exists n. split; [exact Hn | split; [discriminate | exact R]].
Qed.

(** X12. [get_summaries] asks for all ids at once: every request of a call
    (at most [MAX_RETRIES]) goes to esummary with the parameters that name
    the database, ask for JSON and carry the ids joined with commas, plus
    the credential; for the empty list nothing is asked at all. *)
Theorem get_summaries_one_batch (env : Env) (pmids : list string) (st : State) :
  let url := settings.EUTILS_BASE_URL ++ "esummary.fcgi" in
  let st' := snd (get_summaries env pmids st) in
  (exists n,
      (n <= MAX_RETRIES)%nat /\ (pmids = [] -> n = 0%nat)
      /\ requests (trace st')
         = (requests (trace st)
            ++ repeat (url, with_api_key env (esummary_params pmids)) n)%list)
  /\ esummary_params pmids
     = [("db", JStr "pubmed"); ("id", JStr (Py.join "," pmids)); ("retmode", JStr "json")].
Proof.
  intros url st'. split; [apply get_summaries_requests | reflexivity].
Qed.

(** X13. The second request of [find_related_ids].  When the answer of
    elink is an object whose first link set has a first [linksetdbs] entry,
    the operation goes on with one call of [_make_request] to esearch on a
    new parameter mapping that carries the [querykey] of that entry as
    [query_key] and the [webenv] of the link set as [WebEnv] ([None] for a
    missing one), asks for JSON and at most [str(max_results)] ids; what it
    returns is the id list of that call, and every further request (at most
    [MAX_RETRIES]) goes to esearch with these parameters. *)
Theorem find_related_ids_second_request (env : Env) (source_pmid : string)
        (max_results : Z) (st st1 : State) (data linkset db : dict) (rest rest' : list JSON) :
  _make_request env (settings.EUTILS_BASE_URL ++ "elink.fcgi") (List.length (heap st))
    "json" (with_params st (elink_params source_pmid)) = (Ok (JDict data), st1) ->
  Dict.lookup data "linksets" = Some (JList (JDict linkset :: rest)) ->
  Dict.lookup linkset "linksetdbs" = Some (JList (JDict db :: rest')) ->
  let webenv := match Dict.lookup linkset "webenv" with Some w => w | None => JNull end in
  let query_key := match Dict.lookup db "querykey" with Some q => q | None => JNull end in
  let ps := history_params query_key webenv max_results in
  let url := settings.EUTILS_BASE_URL ++ "esearch.fcgi" in
  let run := find_related_ids env source_pmid max_results st in
  run = (fetch_data <- _make_request env url (List.length (heap st1)) "json" ;;
         idlist_of fetch_data) (with_params st1 ps)
  /\ exists n,
      (n <= MAX_RETRIES)%nat
      /\ requests (trace (snd run))
         = (requests (trace st1) ++ repeat (url, with_api_key env ps) n)%list.
Proof.
  intros Hrun Hls Hdbs webenv query_key ps url run.
  assert (E : run = (fetch_data <- _make_request env url (List.length (heap st1)) "json" ;;
                     idlist_of fetch_data) (with_params st1 ps)).
  { subst run. unfold find_related_ids.
    unfold bind at 1. unfold alloc at 1. cbn [fst snd].
    fold (elink_params source_pmid). fold (with_params st (elink_params source_pmid)).
    unfold bind at 1. rewrite Hrun.
    assert (Ht : Dyn.truthy (JDict data) = true)
      by (destruct data; [discriminate Hls | reflexivity]).
    unfold bind at 1. rewrite Ht.
    unfold bind at 1. unfold lift at 1. unfold Dyn.get at 1. rewrite Hls.
    unfold ret at 1. cbn [Dyn.truthy negb].
    unfold bind at 1. unfold lift at 1. unfold Dyn.getitem_str at 1. rewrite Hls.
    unfold bind at 1. unfold lift at 1. cbn [Dyn.getitem_0].
    unfold bind at 1. unfold lift at 1. unfold Dyn.get at 1. fold webenv.
    unfold bind at 1. unfold lift at 1. unfold Dyn.getitem_str at 1. rewrite Hdbs.
    unfold bind at 1. unfold lift at 1. cbn [Dyn.getitem_0].
    unfold bind at 1. unfold lift at 1. unfold Dyn.get at 1. fold query_key.
    unfold bind at 1. unfold alloc at 1. cbn [fst snd].
    reflexivity. }
  split; [exact E|]. rewrite E.
  destruct (@requests_of_call _ env url ps "json" idlist_of st1 idlist_of_quiet)
    as (n & Hn & R & _).
  exists n. split; [exact Hn | exact R].
Qed.

(** A link set with the history entry [1] on [W], then the ids [2], [3]. *)
Lemma find_related_ids_second_request_witness :
  let env := Examples8.env_answering_twice Examples8.linkset_with_history
               Examples8.idlist_2_3 in
  fst (find_related_ids env "7" 5 initial_state) = Ok (JList [JStr "2"; JStr "3"])
  /\ requests (trace (snd (find_related_ids env "7" 5 initial_state)))
     = [("https://eutils.ncbi.nlm.nih.gov/entrez/eutils/elink.fcgi", elink_params "7");
        ("https://eutils.ncbi.nlm.nih.gov/entrez/eutils/esearch.fcgi",
         history_params (JStr "1") (JStr "W") 5)].
Proof.
  intros env.
  set (first := _make_request env (settings.EUTILS_BASE_URL ++ "elink.fcgi") 0 "json"
                  (with_params initial_state (elink_params "7"))).
  destruct (@find_related_ids_second_request env "7" 5 initial_state (snd first)
              [("linksets",
                JList [JDict [("dbfrom", JStr "pubmed");
                              ("linksetdbhistories", JList []);
                              ("linksetdbs", JList [JDict [("querykey", JStr "1")]]);
                              ("webenv", JStr "W")]])]
              [("dbfrom", JStr "pubmed");
               ("linksetdbhistories", JList []);
               ("linksetdbs", JList [JDict [("querykey", JStr "1")]]);
               ("webenv", JStr "W")]
              [("querykey", JStr "1")] [] []) as [E _].
  - vm_compute. reflexivity.
  - reflexivity.
  - reflexivity.
  - rewrite E. split; vm_compute; reflexivity.
Defined.

(* ===================================================================== *)
(** * fetch_article_details: no article, and the fields of an article    *)
(* ===================================================================== *)

(** [fetch_article_details] after its call of [_make_request] returned a
    non-empty text. *)
Lemma fetch_article_details_run (env : Env) (pmid xml : string) (st st1 : State) :
  _make_request env (settings.EUTILS_BASE_URL ++ "efetch.fcgi") (List.length (heap st))
    "text" (with_params st (efetch_params pmid)) = (Ok (JStr xml), st1) ->
  xml <> "" ->
  let logged := mkState (EvLog ERROR :: trace st1) (heap st1) in
  fetch_article_details env pmid st
  = match fromstring env xml with
    | None => (Ok None, logged)
    | Some root =>
        match ElementTree.find root Parser.p_PubmedArticle with
        | None => (Ok None, st1)
        | Some article_node =>
            if url_valid env ("https://pubmed.ncbi.nlm.nih.gov/" ++ pmid ++ "/")
            then (Ok (Some (article_of pmid article_node)), st1)
            else (Ok None, logged)
        end
    end.
Proof.
  intros Hrun Hne logged. unfold fetch_article_details.
  unfold bind at 1. unfold alloc at 1. cbn [fst snd].
  fold (efetch_params pmid). fold (with_params st (efetch_params pmid)).
  unfold try_except. unfold bind at 1. rewrite Hrun.
  assert (Ht : Dyn.truthy (JStr xml) = true) by (destruct xml; [contradiction | reflexivity]).
  rewrite Ht. cbn [negb]. unfold bind at 1. unfold parse_xml at 1.
  destruct (fromstring env xml) as [root|]; [|reflexivity].
  unfold ret at 1.
  destruct (ElementTree.find root Parser.p_PubmedArticle) as [node|]; [|reflexivity].
  unfold bind at 1. unfold make_url at 1.
  destruct (url_valid env _); reflexivity.
Qed.

(** X14. When no article can be built, [fetch_article_details] returns
    [None] and raises nothing.  Given that [_make_request] returned a
    non-empty text: if the text is not well-formed XML, or the link built
    from the id is rejected by [HttpUrl], the error is caught, one ERROR
    record is written and the result is [None]; if the document has no
    [PubmedArticle] element below its root, the result is [None] without
    any record. *)
Theorem fetch_article_details_absent (env : Env) (pmid xml : string) (st st1 : State) :
  _make_request env (settings.EUTILS_BASE_URL ++ "efetch.fcgi") (List.length (heap st))
    "text" (with_params st (efetch_params pmid)) = (Ok (JStr xml), st1) ->
  xml <> "" ->
  let logged := mkState (EvLog ERROR :: trace st1) (heap st1) in
  (fromstring env xml = None -> fetch_article_details env pmid st = (Ok None, logged))
  /\ (forall root,
         fromstring env xml = Some root ->
         ElementTree.find root Parser.p_PubmedArticle = None ->
         fetch_article_details env pmid st = (Ok None, st1))
  /\ (forall root article_node,
         fromstring env xml = Some root ->
         ElementTree.find root Parser.p_PubmedArticle = Some article_node ->
         url_valid env ("https://pubmed.ncbi.nlm.nih.gov/" ++ pmid ++ "/") = false ->
         fetch_article_details env pmid st = (Ok None, logged)).
Proof.
  intros Hrun Hne logged.
  pose proof (fetch_article_details_run env pmid st Hrun Hne) as E. cbv zeta in E.
  split; [|split].
  - intros H. now rewrite E, H.
  - intros root H1 H2. now rewrite E, H1, H2.
  - intros root node H1 H2 H3. now rewrite E, H1, H2, H3.
Qed.

(** A text that does not parse. *)
Lemma fetch_article_details_absent_witness :
  let env := mkEnv None None (fun _ _ _ => Ok (Examples.ok_text "<a>"))
               (fun _ => None) (fun _ => None) (fun _ => true) in
  fst (fetch_article_details env "1" initial_state) = Ok None
  /\ hd_error (trace (snd (fetch_article_details env "1" initial_state)))
     = Some (EvLog ERROR).
Proof.
  intros env.
  set (run := _make_request env (settings.EUTILS_BASE_URL ++ "efetch.fcgi") 0 "text"
                (with_params initial_state (efetch_params "1"))).
  destruct (@fetch_article_details_absent env "1" "<a>" initial_state (snd run))
    as [H _].
  - vm_compute. reflexivity.
  - discriminate.
  - rewrite H; [|reflexivity]. split; reflexivity.
Defined.

Lemma lstrip_starts (s : string) : starts_with_space (Py.lstrip s) = false.
Proof.
  induction s as [|c s IH]; cbn [Py.lstrip]; [reflexivity|].
  destruct (Py.isspace c) eqn:E; [exact IH|].
  cbn [starts_with_space]. exact E.
Qed.

Lemma rstrip_ends (s : string) : ends_with_space (Py.rstrip s) = false.
Proof.
  induction s as [|c s IH]; cbn [Py.rstrip]; [reflexivity|].
  destruct (Py.rstrip s) as [|d r].
  - destruct (Py.isspace c) eqn:E; [reflexivity|].
    cbn [ends_with_space]. exact E.
  - exact IH.
Qed.

Lemma rstrip_starts (s : string) :
  starts_with_space s = false -> starts_with_space (Py.rstrip s) = false.
Proof.
  destruct s as [|c s]; cbn [starts_with_space Py.rstrip]; [reflexivity|].
  intros E. destruct (Py.rstrip s); [rewrite E|]; exact E.
Qed.

(** [s.strip()] has no white space at either end. *)
Lemma strip_trimmed (s : string) : trimmed (Py.strip s).
Proof.
  unfold Py.strip. split; [apply rstrip_starts, lstrip_starts | apply rstrip_ends].
Qed.

(** How a returned article came about: the call of [_make_request]
    returned a text, the text parsed, and the record is built from the
    first [PubmedArticle] node of that document. *)
Lemma fetch_article_details_payload (env : Env) (pmid : string) (st : State) (a : Article) :
  fst (fetch_article_details env pmid st) = Ok (Some a) ->
  exists xml root article_node,
    fst (_make_request env (settings.EUTILS_BASE_URL ++ "efetch.fcgi")
           (List.length (heap st)) "text" (with_params st (efetch_params pmid)))
    = Ok (JStr xml)
    /\ fromstring env xml = Some root
    /\ ElementTree.find root Parser.p_PubmedArticle = Some article_node
    /\ a = article_of pmid article_node.
Proof.
  unfold fetch_article_details.
  unfold bind at 1. unfold alloc at 1. cbn [fst snd].
  fold (efetch_params pmid). fold (with_params st (efetch_params pmid)).
  unfold try_except. unfold bind at 1.
  destruct (_make_request env _ (List.length (heap st)) "text" _)
    as [[xml_data|e1] st1].
  2:{ destruct (is_ParseError_or_ValidationError e1); cbn; discriminate. }
  destruct (Dyn.truthy xml_data); cbn [negb]; [|discriminate].
  unfold bind at 1. unfold parse_xml at 1.
  destruct xml_data as [| | |xml| |]; try (cbn; discriminate).
  destruct (fromstring env xml) as [root|] eqn:Hroot; [|cbn; discriminate].
  unfold ret at 1.
  destruct (ElementTree.find root Parser.p_PubmedArticle) as [node|] eqn:Hnode;
    [|discriminate].
  unfold bind at 1. unfold make_url at 1.
  destruct (url_valid env _); [|cbn; discriminate].
  unfold ret. cbn [fst]. intros H. injection H as <-.
  exists xml, root, node. auto.
Qed.

(** X15. Every article [fetch_article_details] returns carries the
    requested id as [pmid]; its title and each of its author names have no
    white space at either end; none of its MeSH terms is empty; its
    abstract is never empty; and, for the document parsed from the text
    that the call of [_make_request] returned, it has one author entry for
    each [Author] element that [.//AuthorList/Author] matches under the
    first [PubmedArticle] node, also for one without a last name. *)
Theorem fetch_article_details_fields (env : Env) (requested : string) (st : State)
        (a : Article) :
  fst (fetch_article_details env requested st) = Ok (Some a) ->
  pmid a = requested
  /\ trimmed (title a)
  /\ Forall trimmed (authors a)
  /\ Forall (fun term => term <> "") (mesh_terms a)
  /\ abstract a <> ""
  /\ exists xml root article_node,
      fst (_make_request env (settings.EUTILS_BASE_URL ++ "efetch.fcgi")
             (List.length (heap st)) "text" (with_params st (efetch_params requested)))
      = Ok (JStr xml)
      /\ fromstring env xml = Some root
      /\ ElementTree.find root Parser.p_PubmedArticle = Some article_node
      /\ List.length (authors a)
         = List.length (ElementTree.findall article_node Parser.p_Author).
Proof.
  intros H. apply fetch_article_details_payload in H.
  destruct H as (xml & root & node & H0 & H1 & H2 & ->).
  unfold article_of. cbn [pmid title authors mesh_terms abstract].
  split; [reflexivity|].
  split; [apply strip_trimmed|].
  split; [|split; [|split]].
  - unfold Parser.parse_authors. apply Forall_map, Forall_forall.
    intros x _. apply strip_trimmed.
  - unfold Parser.parse_mesh_terms. apply Forall_flat_map, Forall_forall.
    intros term _. destruct (ElementTree.text term) as [[|c t]|]; constructor;
      [discriminate | constructor].
  - unfold Parser.parse_abstract, Py.or_else.
    destruct (Py.join _ _) as [|c r]; discriminate.
  - exists xml, root, node. repeat split; auto.
    unfold Parser.parse_authors. apply length_map.
Qed.

(** The article of [Examples9]: the title is [A b c], the authors are
    [Doe J] and [K], the only MeSH term is [Humans]. *)
Lemma fetch_article_details_fields_witness :
  let env := Examples.env_xml Examples9.doc in
  let a := article_of "1" Examples9.article in
  (title a = "A b c" /\ authors a = ["Doe J"; "K"] /\ mesh_terms a = ["Humans"])
  /\ pmid a = "1"
  /\ trimmed (title a)
  /\ Forall trimmed (authors a)
  /\ Forall (fun term => term <> "") (mesh_terms a)
  /\ abstract a <> ""
  /\ exists xml root article_node,
      fst (_make_request env (settings.EUTILS_BASE_URL ++ "efetch.fcgi") 0 "text"
             (with_params initial_state (efetch_params "1")))
      = Ok (JStr xml)
      /\ fromstring env xml = Some root
      /\ ElementTree.find root Parser.p_PubmedArticle = Some article_node
      /\ List.length (authors a)
         = List.length (ElementTree.findall article_node Parser.p_Author).
Proof.
  intros env a. split; [repeat split; vm_compute; reflexivity|].
  apply (@fetch_article_details_fields env "1" initial_state a).
  vm_compute. reflexivity.
Defined.

(* ===================================================================== *)
(** * The citation: title and authors                                    *)
(* ===================================================================== *)

Lemma join_contains (sep x : string) (l : list string) :
  In x l -> exists before after, Py.join sep l = before ++ x ++ after.
Proof.
  unfold Py.join. induction l as [|y l IH]; intros Hin; [contradiction|].
  rewrite concat_cons. destruct Hin as [-> | Hin].
  - exists "". eexists. reflexivity.
  - destruct l as [|z l]; [contradiction|].
    destruct (IH Hin) as (before & after & E).
    exists (y ++ sep ++ before), after. rewrite E. now rewrite !append_assoc.
Qed.

Lemma contains_char_append (c : ascii) (s t : string) :
  contains_char c (s ++ t) = contains_char c s || contains_char c t.
Proof.
  induction s as [|d s IH]; cbn [append contains_char]; [reflexivity|].
  now rewrite IH, orb_assoc.
Qed.

Lemma replace_removes (c : ascii) (s : string) : contains_char c (Py.replace c "" s) = false.
Proof.
  induction s as [|d s IH]; cbn [Py.replace]; [reflexivity|].
  destruct (Ascii.eqb c d) eqn:E; cbn [append contains_char]; [exact IH|].
  now rewrite E, IH.
Qed.

Lemma lstrip_contains (c : ascii) (s : string) :
  contains_char c s = false -> contains_char c (Py.lstrip s) = false.
Proof.
  induction s as [|d s IH]; cbn [Py.lstrip contains_char]; [reflexivity|].
  intros H. apply orb_false_iff in H. destruct H as [H1 H2].
  destruct (Py.isspace d); [now apply IH|].
  cbn [contains_char]. now rewrite H1, H2.
Qed.

Lemma rstrip_contains (c : ascii) (s : string) :
  contains_char c s = false -> contains_char c (Py.rstrip s) = false.
Proof.
  induction s as [|d s IH]; cbn [Py.rstrip contains_char]; [reflexivity|].
  intros H. apply orb_false_iff in H. destruct H as [H1 H2].
  specialize (IH H2).
  destruct (Py.rstrip s) as [|e r].
  - destruct (Py.isspace d); [reflexivity|].
    cbn [contains_char]. now rewrite H1.
  - cbn [contains_char] in *. now rewrite H1, IH.
Qed.

Lemma endswith_append (s : string) (c : ascii) :
  Py.endswith (s ++ String c "") c = true.
Proof.
  induction s as [|d s IH]; cbn [append Py.endswith].
  - apply Ascii.eqb_refl.
  - destruct (s ++ String c "") eqn:E; [destruct s; discriminate | exact IH].
Qed.

(** The title part ends with a period and holds no asterisk. *)
Lemma ama_title_shape (t : string) :
  Py.endswith (ama_title t) "." = true /\ contains_char "*" (ama_title t) = false.
Proof.
  unfold ama_title. cbv zeta.
  assert (Hno : contains_char "*" (Py.strip (Py.replace "*" "" t)) = false).
  { unfold Py.strip. apply rstrip_contains, lstrip_contains, replace_removes. }
  destruct (Py.endswith (Py.strip (Py.replace "*" "" t)) ".") eqn:E.
  - split; assumption.
  - split; [apply endswith_append|].
    rewrite contains_char_append, Hno. reflexivity.
Qed.

(** X16. A citation always holds the title part: the title with every
    asterisk removed, trimmed, and closed by a period unless it ends with
    one already.  That part ends with a period and holds no asterisk, so a
    citation is never empty; and when the article has no authors the
    citation begins with it. *)
Theorem to_ama_citation_title (a : Article) :
  let part := ama_title (title a) in
  (exists before after,
      to_ama_citation a = before ++ part ++ after
      /\ (authors a = [] -> before = ""))
  /\ Py.endswith part "." = true
  /\ contains_char "*" part = false
  /\ to_ama_citation a <> "".
Proof.
  intros part. destruct (ama_title_shape (title a)) as [Hend Hno]. fold part in Hend, Hno.
  assert (Ht : Py.truthy part = true) by (destruct part; [discriminate Hend | reflexivity]).
  assert (Hex : exists before after,
             to_ama_citation a = before ++ part ++ after
             /\ (authors a = [] -> before = "")).
  { unfold to_ama_citation. cbv zeta. fold (ama_title (title a)). fold part.
    cbn [filter]. rewrite Ht.
    destruct (Py.truthy (authors_str a)) eqn:Ha.
    - destruct (@join_contains " " part
                  (authors_str a
                   :: part :: filter Py.truthy
                        [if Py.truthy (journal a) then "*" ++ Py.strip (journal a) ++ "*." else "";
                         if Py.truthy (pub_date a) then pub_date a ++ ";" else "";
                         cit_details a]))
        as (before & after & E); [right; now left|].
      exists before, after. split; [exact E|].
      intros Hau. unfold authors_str in Ha. rewrite Hau in Ha. discriminate.
    - exists "". eexists. split; [|reflexivity].
      unfold Py.join. rewrite concat_cons. reflexivity. }
  split; [exact Hex|]. split; [exact Hend|]. split; [exact Hno|].
  destruct Hex as (before & after & E & _). rewrite E.
  destruct before; cbn [append]; [|discriminate].
  destruct part; [discriminate Ht | discriminate].
Qed.

(** A citation is the author part, a space, and the citation of the same
    article without authors; or the latter alone when the author part is
    empty. *)
Lemma to_ama_citation_split (a : Article) :
  to_ama_citation a
  = if Py.truthy (authors_str a)
    then authors_str a ++ " " ++ to_ama_citation (without_authors a)
    else to_ama_citation (without_authors a).
Proof.
  destruct (ama_title_shape (title a)) as [Hend _].
  assert (Ht : Py.truthy (ama_title (title a)) = true)
    by (destruct (ama_title (title a)); [discriminate Hend | reflexivity]).
  unfold to_ama_citation. cbv zeta.
  change (authors_str (without_authors a)) with "".
  change (title (without_authors a)) with (title a).
  change (journal (without_authors a)) with (journal a).
  change (pub_date (without_authors a)) with (pub_date a).
  change (cit_details (without_authors a)) with (cit_details a).
  fold (ama_title (title a)).
  cbn [filter Py.truthy]. rewrite Ht.
  destruct (authors_str a) as [|c s]; [reflexivity|].
  cbn [Py.truthy]. unfold Py.join. now rewrite concat_cons.
Qed.

(** X17. The author rule of the citation.  With more than six authors the
    citation is the first three, joined with comma and space, followed by
    [, et al], one space, and the rest of the citation (what the same
    article gives without authors); with at most six it is all of them
    joined the same way, one space, and the rest; and when that author text
    is empty (no authors, or a single empty name) the citation is the rest
    alone. *)
Theorem to_ama_citation_authors (a : Article) :
  let rest := to_ama_citation (without_authors a) in
  ((6 < List.length (authors a))%nat ->
   to_ama_citation a = Py.join ", " (firstn 3 (authors a)) ++ ", et al" ++ " " ++ rest)
  /\ ((List.length (authors a) <= 6)%nat ->
      Py.join ", " (authors a) <> "" ->
      to_ama_citation a = Py.join ", " (authors a) ++ " " ++ rest)
  /\ ((List.length (authors a) <= 6)%nat ->
      Py.join ", " (authors a) = "" ->
      to_ama_citation a = rest).
Proof.
  intros rest. subst rest. rewrite to_ama_citation_split.
  split; [|split].
  - intros H. rewrite authors_str_more_than_six by assumption.
    destruct (Py.join ", " (firstn 3 (authors a))) as [|c s] eqn:E;
      cbn [append Py.truthy]; [reflexivity|].
    now rewrite !append_assoc.
  - intros H Hne. rewrite authors_str_at_most_six by assumption.
    destruct (Py.join ", " (authors a)); [contradiction | reflexivity].
  - intros H He. rewrite authors_str_at_most_six by assumption.
    now rewrite He.
Qed.

(** Seven authors, and six. *)
Lemma to_ama_citation_authors_witness :
  to_ama_citation (Examples9.cited 7) = "A, A, A, et al Foo. *J*. 2020; 5(2):10-20."
  /\ to_ama_citation (Examples9.cited 6) = "A, A, A, A, A, A Foo. *J*. 2020; 5(2):10-20.".
Proof.
  split.
  - destruct (to_ama_citation_authors (Examples9.cited 7)) as (H & _).
    rewrite H; [reflexivity | cbn; lia].
  - destruct (to_ama_citation_authors (Examples9.cited 6)) as (_ & H & _).
    rewrite H; [reflexivity | cbn; lia | discriminate].
Defined.

(** A title with emphasis marks and trailing white space, no authors. *)
Lemma to_ama_citation_title_witness :
  let a := mkArticle "1" "A *new* hope " "" "" [] "" [] None (HttpUrl "") None None None in
  to_ama_citation a = "A new hope."
  /\ exists before after,
      to_ama_citation a = before ++ ama_title (title a) ++ after
      /\ (authors a = [] -> before = "").
Proof.
  intros a. split; [reflexivity|].
  apply (to_ama_citation_title a).
Defined.

(* ===================================================================== *)
(** * main.py: the summary route and the related ids                     *)
(* ===================================================================== *)

Lemma map_result_strings (pmids : list string) :
  map_result (fun v => match v with JStr s => Ok s | _ => Raise TypeError end)
             (map JStr pmids) = Ok pmids.
Proof. induction pmids as [|x l IH]; cbn [map map_result]; [|rewrite IH]; reflexivity. Qed.

(** On a list of strings the dynamic call is the call. *)
Lemma get_summaries_of_strings (env : Env) (pmids : list string) (st : State) :
  Main.get_summaries_of env (JList (map JStr pmids)) st = get_summaries env pmids st.
Proof.
  unfold Main.get_summaries_of.
  destruct pmids as [|x l]; [reflexivity|].
  cbn [map Dyn.truthy negb Dyn.iterate].
  unfold bind at 1. unfold lift at 1.
  unfold bind at 1. unfold lift at 1.
  change (JStr x :: map JStr l) with (map JStr (x :: l)).
  now rewrite map_result_strings.
Qed.

(** X18. The route [search_summaries] composes the two client operations:
    when the search returns the ids [pmids], the route is [get_summaries]
    on these ids, run after the search.  All its requests (at most
    [MAX_RETRIES] each) go first to esearch with the search parameters,
    then to esummary with the found ids joined by commas; when the search
    finds nothing, esummary is not asked.  An exception of the search
    leaves the route. *)
Theorem search_summaries_composes (env : Env) (query : string) (search_field : option string)
        (max_results : Z) (start_date end_date : option string) (st : State) :
  let search := search_pubmed_ids env query search_field max_results
                  start_date end_date st in
  let run := Main.search_summaries env query search_field max_results
               start_date end_date st in
  let ps := search_params (final_query query search_field) max_results
              start_date end_date in
  (forall pmids,
      fst search = Ok (JList (map JStr pmids)) ->
      run = get_summaries env pmids (snd search)
      /\ exists k1 k2,
          (k1 <= MAX_RETRIES)%nat /\ (k2 <= MAX_RETRIES)%nat /\ (pmids = [] -> k2 = 0%nat)
          /\ requests (trace (snd run))
             = (requests (trace st)
                ++ repeat ((settings.EUTILS_BASE_URL ++ "esearch.fcgi")%string,
                           with_api_key env ps) k1
                ++ repeat ((settings.EUTILS_BASE_URL ++ "esummary.fcgi")%string,
                           with_api_key env (esummary_params pmids)) k2)%list)
  /\ (forall e, fst search = Raise e -> run = (Raise e, snd search)).
Proof.
  intros search run ps.
  destruct (@search_pubmed_ids_requests env query search_field max_results
              start_date end_date st) as (k1 & Hk1 & R1).
  fold search in R1. fold ps in R1.
  subst run. unfold Main.search_summaries, bind. fold search.
  destruct search as [[v|e] st1]; cbn [fst snd] in *.
  - split; [|discriminate].
    intros pmids E. injection E as ->.
    rewrite get_summaries_of_strings. split; [reflexivity|].
    destruct (@get_summaries_requests env pmids st1) as (k2 & Hk2 & Hz & R2).
    exists k1, k2. rewrite R2, R1, <- app_assoc. auto.
  - split; [discriminate|].
    intros e' E. injection E as ->. reflexivity.
Qed.

(** The search finds the ids [2] and [3]; esummary is asked for [2,3]. *)
Lemma search_summaries_composes_witness :
  let env := Examples8.env_answering_twice Examples8.idlist_2_3 JNull in
  requests (trace (snd (Main.search_summaries env "cancer" None 10 None None
                          initial_state)))
  = [("https://eutils.ncbi.nlm.nih.gov/entrez/eutils/esearch.fcgi",
      search_params "cancer" 10 None None);
     ("https://eutils.ncbi.nlm.nih.gov/entrez/eutils/esummary.fcgi",
      [("db", JStr "pubmed"); ("id", JStr "2,3"); ("retmode", JStr "json")])].
Proof.
  intros env.
  destruct (@search_summaries_composes env "cancer" None 10 None None initial_state)
    as [H _].
  destruct (H ["2"; "3"]) as [E _]; [vm_compute; reflexivity|].
  rewrite E. vm_compute. reflexivity.
Defined.

Lemma firstn_subset {A} (n : nat) (l : list A) (x : A) : In x (firstn n l) -> In x l.
Proof.
  revert n. induction l as [|y l IH]; intros [|n] H; cbn [firstn] in H;
    try contradiction.
  destruct H as [-> | H]; [now left | right; eauto].
Qed.

(** X19. The ids the route [semantic_search] goes on with: whenever line
    214 yields a list, the source id is not in it, every id in it is one of
    the related ids, and for a limit that is not negative (the route admits
    1 to 100) it has at most [max_results] entries. *)
Theorem similar_pmids_excludes_source (similar : JSON) (pmid : string) (max_results : Z)
        (ids : list JSON) :
  Main.similar_pmids similar pmid max_results = Ok ids ->
  ~ In (JStr pmid) ids
  /\ (exists items, Dyn.iterate similar = Ok items /\ incl ids items)
  /\ ((0 <= max_results)%Z -> (List.length ids <= Z.to_nat max_results)%nat).
Proof.
  unfold Main.similar_pmids.
  destruct (Dyn.iterate similar) as [items|e]; [|discriminate].
  intros H. injection H as <-.
  assert (Hsub : forall x, In x (Main.slice_to max_results
                                   (filter (fun r => negb (Dyn.eqb_str r pmid)) items)) ->
                           In x items /\ Dyn.eqb_str x pmid = false).
  { intros x Hin. unfold Main.slice_to in Hin.
    destruct (max_results <? 0)%Z; apply firstn_subset in Hin;
      apply filter_In in Hin; destruct Hin as [H1 H2];
      now rewrite negb_true_iff in H2. }
  split; [|split].
  - intros Hin. apply Hsub in Hin. destruct Hin as [_ Hneq].
    cbn [Dyn.eqb_str] in Hneq. now rewrite String.eqb_refl in Hneq.
  - exists items. split; [reflexivity|]. intros x Hin. now apply Hsub in Hin.
  - intros Hmax. unfold Main.slice_to.
    destruct (Z.ltb_spec max_results 0); [lia|].
    apply firstn_le_length.
Qed.

(** Five related ids, the source among them, and a limit of three. *)
Lemma similar_pmids_excludes_source_witness :
  Main.similar_pmids (JList [JStr "7"; JStr "1"; JStr "2"; JStr "3"; JStr "4"]) "7" 3
  = Ok [JStr "1"; JStr "2"; JStr "3"]
  /\ ~ In (JStr "7") [JStr "1"; JStr "2"; JStr "3"].
Proof.
  split; [reflexivity|].
  apply (@similar_pmids_excludes_source
           (JList [JStr "7"; JStr "1"; JStr "2"; JStr "3"; JStr "4"]) "7" 3
           [JStr "1"; JStr "2"; JStr "3"]).
  reflexivity.
Defined.

(* ===================================================================== *)
(** * A second call on the same parameters                               *)
(* ===================================================================== *)

Lemma string_of_uint_nonempty (d : Decimal.uint) : NilZero.string_of_uint d <> "".
Proof. destruct d; discriminate. Qed.

(** [json.dumps] never yields the empty text, which the look-up would take
    for a miss. *)
Lemma dumps_nonempty (sort_keys : bool) (v : JSON) : Json.dumps sort_keys v <> "".
Proof.
  destruct v as [|b|z|s|l|d]; cbn [Json.dumps]; try discriminate.
  - destruct b; discriminate.
  - unfold Json.str_of_int, NilZero.string_of_int.
    destruct (Z.to_int z); [apply string_of_uint_nonempty | discriminate].
Qed.

Lemma setitem_idempotent (d : dict) (k : string) (v : JSON) :
  Dict.setitem (Dict.setitem d k v) k v = Dict.setitem d k v.
Proof.
  induction d as [|[k' v'] d IH]; cbn [Dict.setitem].
  - now rewrite String.eqb_refl.
  - destruct (String.eqb k' k) eqn:E; cbn [Dict.setitem]; rewrite E; [reflexivity|].
    now rewrite IH.
Qed.

(** Adding the credential twice is adding it once. *)
Lemma with_api_key_idempotent (env : Env) (d : dict) :
  with_api_key env (with_api_key env d) = with_api_key env d.
Proof.
  unfold with_api_key. destruct (NCBI_API_KEY env) as [[|c k]|]; auto.
  apply setitem_idempotent.
Qed.

Lemma heap_with_api_key_idempotent (env : Env) (params : loc) (h : list dict) :
  (params < List.length h)%nat ->
  heap_with_api_key env params (heap_with_api_key env params h)
  = heap_with_api_key env params h.
Proof.
  intros Hp.
  pose proof (@nth_heap_with_api_key env params h Hp) as Hn.
  pose proof (with_api_key_idempotent env (nth params h [])) as Hi.
  unfold heap_with_api_key in *.
  destruct (NCBI_API_KEY env) as [[|c k]|]; auto.
  rewrite Hn, list_set_twice, Hi. reflexivity.
Qed.

(** X20. The cache round trip.  A second call of [_make_request] on the
    same URL and the same params object looks up the very key of the first
    call (the credential, already in place, is set again to the same
    value).  If the cache then returns the text [json.dumps(v)], which is
    what a first call that obtained [v] stored and is never empty, and
    [json.loads] gives [v] back for it, the second call returns [v]
    without sending a request, and leaves every parameter mapping as it
    is. *)
Theorem make_request_round_trip (env : Env) (r : Redis) (url : string) (params : loc)
        (response_type : string) (st : State) (v : JSON) :
  (params < List.length (heap st))%nat ->
  redis_client env = Some r ->
  let d := with_api_key env (nth params (heap st) []) in
  let key := _generate_cache_key url d in
  let st1 := snd (_make_request env url params response_type st) in
  redis_get r (count is_redis_get (trace st1)) key = Ok (Some (Json.dumps false v)) ->
  json_loads env (Json.dumps false v) = Some v ->
  _make_request env url params response_type st1
  = (Ok v, mkState (EvLog INFO :: EvRedisGet key :: trace st1) (heap st1)).
Proof.
  intros Hp Hr d key st1 Hget Hv.
  destruct (@make_request_frame env url params response_type st Hp) as [Hh _].
  fold st1 in Hh.
  assert (Hp1 : (params < List.length (heap st1))%nat).
  { rewrite Hh. unfold heap_with_api_key.
    destruct (NCBI_API_KEY env) as [[|c k]|]; auto. now rewrite length_list_set. }
  assert (Hd1 : with_api_key env (nth params (heap st1) []) = d).
  { rewrite Hh, nth_heap_with_api_key by assumption. apply with_api_key_idempotent. }
  assert (Hh1 : heap_with_api_key env params (heap st1) = heap st1).
  { rewrite Hh. now apply heap_with_api_key_idempotent. }
  rewrite make_request_run by assumption. rewrite Hd1, Hh1. fold key.
  rewrite (@cache_lookup_found env r key (Json.dumps false v)
             (mkState (trace st1) (heap st1)) Hr Hget (dumps_nonempty false v)).
  rewrite Hv. reflexivity.
Qed.

(** The first call misses, fetches [true] and stores it; the second call
    finds it. *)
Lemma make_request_round_trip_witness :
  let env := Examples7.env_with_cache (Examples7.cache_filling "true")
               (fun _ => Ok (Examples.ok_json (JBool true))) in
  let first := _make_request env "u" 0 "json" Examples2.one_object in
  let second := _make_request env "u" 0 "json" (snd first) in
  writes (trace (snd first)) = [(_generate_cache_key "u" BASE_PARAMS, "true", 3600%Z)]
  /\ fst second = Ok (JBool true)
  /\ requests (trace (snd second)) = requests (trace (snd first)).
Proof.
  intros env first second. subst first second.
  split; [vm_compute; reflexivity|].
  rewrite (@make_request_round_trip env (Examples7.cache_filling "true") "u" 0 "json"
             Examples2.one_object (JBool true)).
  - split; [reflexivity|]. cbn [snd trace]. now rewrite !requests_cons, !app_nil_r.
  - cbn. lia.
  - reflexivity.
  - vm_compute. reflexivity.
  - reflexivity.
Defined.

(* ===================================================================== *)
(** * The endpoints of check_spelling, fetch_article_details and
      find_related_ids                                                   *)
(* ===================================================================== *)

Lemma requests_try {A} (m : M A) (class : exn -> bool) (h : exn -> M A) (st : State) :
  (forall e, preserves quiet (h e)) ->
  requests (trace (snd (try_except m class h st))) = requests (trace (snd (m st))).
Proof.
  intros Hh. unfold try_except.
  destruct (m st) as [[a|e] st1]; cbn [snd]; [reflexivity|].
  destruct (class e); [|reflexivity].
  now destruct (Hh e st1) as (Q & _).
Qed.

(** X21. [check_spelling] and [fetch_article_details] each talk to one
    endpoint only.  Every request of a [check_spelling] call (at most
    [MAX_RETRIES]) goes to espell with the query, unchanged, as [term] and
    [retmode] [json]; every request of a [fetch_article_details] call goes
    to efetch with the id as [id], [retmode] [xml] and [rettype]
    [abstract]; both mappings name the database [pubmed] and receive the
    credential. *)
Theorem spelling_and_fetch_requests (env : Env) (st : State) :
  (forall query,
      espell_params query
      = [("db", JStr "pubmed"); ("term", JStr query); ("retmode", JStr "json")]
      /\ exists n,
          (n <= MAX_RETRIES)%nat
          /\ requests (trace (snd (check_spelling env query st)))
             = (requests (trace st)
                ++ repeat ((settings.EUTILS_BASE_URL ++ "espell.fcgi")%string,
                           with_api_key env (espell_params query)) n)%list)
  /\ (forall pmid,
         efetch_params pmid
         = [("db", JStr "pubmed"); ("id", JStr pmid); ("retmode", JStr "xml");
            ("rettype", JStr "abstract")]
         /\ exists n,
             (n <= MAX_RETRIES)%nat
             /\ requests (trace (snd (fetch_article_details env pmid st)))
                = (requests (trace st)
                   ++ repeat ((settings.EUTILS_BASE_URL ++ "efetch.fcgi")%string,
                              with_api_key env (efetch_params pmid)) n)%list).
Proof.
  split.
  - intros query. split; [reflexivity|].
    unfold check_spelling.
    unfold bind at 1. unfold alloc at 1. cbn [fst snd].
    fold (espell_params query). fold (with_params st (espell_params query)).
    match goal with |- context [bind (_make_request _ ?u _ _) ?k] =>
      destruct (@requests_of_call _ env u (espell_params query) "json" k st)
        as (n & Hn & R & _) end.
    + intros data. destruct (negb (Dyn.truthy data)); [quiet_step|].
      repeat quiet_step.
      destruct (Dyn.truthy a0); [|quiet_step].
      destruct a0; quiet_step.
    + exists n. split; [exact Hn | exact R].
  - intros pmid. split; [reflexivity|].
    unfold fetch_article_details.
    unfold bind at 1. unfold alloc at 1. cbn [fst snd].
    fold (efetch_params pmid). fold (with_params st (efetch_params pmid)).
    rewrite requests_try by (intros e; repeat quiet_step).
    match goal with |- context [bind (_make_request _ ?u _ _) ?k] =>
      destruct (@requests_of_call _ env u (efetch_params pmid) "text" k st)
        as (n & Hn & R & _) end.
    + intros data. destruct (negb (Dyn.truthy data)); [quiet_step|].
      quiet_step.
      { unfold parse_xml. destruct data; try quiet_step.
        destruct (fromstring env s); quiet_step. }
      destruct (ElementTree.find a Parser.p_PubmedArticle); [|quiet_step].
      quiet_step; [|quiet_step].
      unfold make_url. destruct (url_valid env _); quiet_step.
    + exists n. split; [exact Hn | exact R].
Qed.

Ltac no_more_requests :=
  exists 0%nat, (@nil (string * JSON)); cbn [snd repeat]; rewrite app_nil_r;
  split; [unfold MAX_RETRIES; lia | reflexivity].

Ltac lift_step :=
  unfold bind at 1; unfold lift at 1;
  match goal with
  | |- context [match ?r with Ok _ => _ | Raise _ => _ end] =>
      destruct r; [|no_more_requests]
  end.

(** What [find_related_ids] does after its first call sends requests to
    esearch only, with one parameter mapping. *)
Lemma find_related_ids_requests_after (env : Env) (source_pmid : string) (max_results : Z)
      (st : State) :
  let url1 := settings.EUTILS_BASE_URL ++ "elink.fcgi" in
  let url2 := settings.EUTILS_BASE_URL ++ "esearch.fcgi" in
  let first := _make_request env url1 (List.length (heap st)) "json"
                 (with_params st (elink_params source_pmid)) in
  exists n2 ps2,
    (n2 <= MAX_RETRIES)%nat
    /\ requests (trace (snd (find_related_ids env source_pmid max_results st)))
       = (requests (trace (snd first)) ++ repeat (url2, with_api_key env ps2) n2)%list.
Proof.
  intros url1 url2 first. unfold find_related_ids.
  unfold bind at 1. unfold alloc at 1. cbn [fst snd].
  fold (elink_params source_pmid). fold (with_params st (elink_params source_pmid)).
  fold url1. fold url2. unfold bind at 1. fold first.
  destruct first as [[data|e] st1]; [|no_more_requests].
  cbn [snd]. unfold bind at 1.
  destruct (Dyn.truthy data).
  2:{ unfold ret at 1. cbn [negb]. no_more_requests. }
  lift_step. unfold ret at 1.
  destruct (Dyn.truthy a); cbn [negb]; [|no_more_requests].
  do 6 lift_step.
  unfold bind at 1. unfold alloc at 1. cbn [fst snd].
  match goal with |- context [(heap st1 ++ [?d])%list] =>
    fold (with_params st1 d);
    destruct (@requests_of_call _ env url2 d "json" idlist_of st1 idlist_of_quiet)
      as (n & Hn & R & _);
    exists n, d; split; [exact Hn | exact R]
  end.
Qed.

(** X22. [find_related_ids] sends at most [MAX_RETRIES] requests to elink,
    all with the same parameters (the source id as [id], the link name
    [pubmed_pubmed], the command [neighbor_history], the database and the
    credential), and after them at most [MAX_RETRIES] requests to esearch,
    all with one parameter mapping; it talks to no other endpoint, whatever
    the answers are. *)
Theorem find_related_ids_requests (env : Env) (source_pmid : string) (max_results : Z)
        (st : State) :
  let url1 := settings.EUTILS_BASE_URL ++ "elink.fcgi" in
  let url2 := settings.EUTILS_BASE_URL ++ "esearch.fcgi" in
  elink_params source_pmid
  = [("db", JStr "pubmed"); ("id", JStr source_pmid);
     ("linkname", JStr "pubmed_pubmed"); ("cmd", JStr "neighbor_history")]
  /\ exists n1 n2 ps2,
      (n1 <= MAX_RETRIES)%nat /\ (n2 <= MAX_RETRIES)%nat
      /\ requests (trace (snd (find_related_ids env source_pmid max_results st)))
         = (requests (trace st)
            ++ repeat (url1, with_api_key env (elink_params source_pmid)) n1
            ++ repeat (url2, with_api_key env ps2) n2)%list.
Proof.
  intros url1 url2. split; [reflexivity|].
  destruct (find_related_ids_requests_after env source_pmid max_results st)
    as (n2 & ps2 & Hn2 & R2).
  set (st0 := with_params st (elink_params source_pmid)) in *.
  assert (Hp : (List.length (heap st) < List.length (heap st0))%nat).
  { unfold st0, with_params. cbn [heap]. rewrite length_app. cbn [List.length]. lia. }
  destruct (@make_request_effects env url1 (List.length (heap st)) "json" st0 Hp)
    as (n1 & m & Hnm & _ & R1 & _).
  assert (Hd : nth (List.length (heap st)) (heap st0) [] = elink_params source_pmid)
    by (unfold st0, with_params; cbn [heap]; apply nth_alloc).
  rewrite Hd in R1.
  exists n1, n2, ps2. fold url1 url2 in R2. rewrite R2, R1, <- app_assoc.
  repeat split; auto; lia.
Qed.

(* ===================================================================== *)
(** * The shape of a cache key                                           *)
(* ===================================================================== *)

Lemma hex_digit_is_hex (n : Z) :
  (0 <= n < 16)%Z -> is_hex_digit (Hashlib.hex_digit n) = true.
Proof.
  intros H. unfold is_hex_digit, Hashlib.hex_digit.
  destruct (Z.ltb_spec n 10); rewrite N_ascii_embedding by lia; cbv zeta.
  - apply orb_true_iff. left. apply andb_true_iff. split; apply N.leb_le; lia.
  - apply orb_true_iff. right. apply andb_true_iff. split; apply N.leb_le; lia.
Qed.

Lemma all_chars_append (p : ascii -> bool) (s t : string) :
  SpecSearch.all_chars p (s ++ t) = SpecSearch.all_chars p s && SpecSearch.all_chars p t.
Proof.
  induction s as [|c s IH]; cbn [append SpecSearch.all_chars]; [reflexivity|].
  now rewrite IH, andb_assoc.
Qed.

Lemma hex_byte_is_hex (b : Z) :
  (0 <= b < 256)%Z -> SpecSearch.all_chars is_hex_digit (Hashlib.hex_byte b) = true.
Proof.
  intros H. unfold Hashlib.hex_byte. cbn [SpecSearch.all_chars].
  rewrite !hex_digit_is_hex; [reflexivity | |].
  - change 0xf%Z with (Z.ones 4). rewrite Z.land_ones by lia.
    apply Z.mod_pos_bound. lia.
  - rewrite Z.shiftr_div_pow2 by lia. change (2 ^ 4)%Z with 16%Z.
    split; [apply Z.div_pos; lia | apply Z.div_lt_upper_bound; lia].
Qed.

Lemma hexdigest_is_hex (bytes : list Z) :
  Forall (fun b => 0 <= b < 256)%Z bytes ->
  SpecSearch.all_chars is_hex_digit (String.concat "" (map Hashlib.hex_byte bytes)) = true.
Proof.
  induction 1 as [|b l Hb Hl IH]; [reflexivity|].
  cbn [map]. rewrite concat_empty_cons, all_chars_append, IH, hex_byte_is_hex by assumption.
  reflexivity.
Qed.

(** X23. Every cache key is the text [pubmed_cache:] followed by exactly 32
    lower-case hexadecimal digits, 45 characters in all, whatever the URL
    and the parameters are. *)
Theorem generate_cache_key_format (url : string) (params : dict) :
  exists digest,
    _generate_cache_key url params = "pubmed_cache:" ++ digest
    /\ String.length digest = 32%nat
    /\ SpecSearch.all_chars is_hex_digit digest = true
    /\ String.length (_generate_cache_key url params) = 45%nat.
Proof.
  exists (Hashlib.md5_hexdigest (Hashlib.encode (key_string url params))).
  unfold _generate_cache_key.
  split; [reflexivity|]. split; [apply length_md5_hexdigest|].
  split.
  - unfold Hashlib.md5_hexdigest. apply hexdigest_is_hex, md5_digest_range.
  - rewrite length_append, length_md5_hexdigest. reflexivity.
Qed.

(* ===================================================================== *)
(** * The abstract of the fetched document                               *)
(* ===================================================================== *)

(** C5, amended. The abstract of the article [fetch_article_details]
    returns is built from the document parsed from the very text its call
    of [_make_request] returned: from the nodes that
    [.//Abstract/AbstractText] matches under the first [PubmedArticle] node
    of that document, in the order of the match.  Every node whose trimmed
    text is empty is skipped, a node with a non-empty [Label] renders as
    [**Label:** text] (label trimmed), any other as its text, the
    renderings are joined with a blank line, and when none remains the
    abstract is [Abstract not available.].  This holds of every article
    that is returned; and an article is returned for every non-empty text
    that parses to a document with a [PubmedArticle] node, when the link
    is accepted. *)
Theorem fetch_article_details_abstract (env : Env) (pmid : string) (st : State) :
  let payload := fst (_make_request env (settings.EUTILS_BASE_URL ++ "efetch.fcgi")
                        (List.length (heap st)) "text"
                        (with_params st (efetch_params pmid))) in
  (forall a,
      fst (fetch_article_details env pmid st) = Ok (Some a) ->
      exists xml root article_node,
        payload = Ok (JStr xml)
        /\ fromstring env xml = Some root
        /\ ElementTree.find root Parser.p_PubmedArticle = Some article_node
        /\ abstract a = Spec.abstract_of "Abstract not available." article_node)
  /\ (forall xml root article_node,
         payload = Ok (JStr xml) -> xml <> "" ->
         fromstring env xml = Some root ->
         ElementTree.find root Parser.p_PubmedArticle = Some article_node ->
         url_valid env ("https://pubmed.ncbi.nlm.nih.gov/" ++ pmid ++ "/") = true ->
         exists a,
           fst (fetch_article_details env pmid st) = Ok (Some a)
           /\ abstract a = Spec.abstract_of "Abstract not available." article_node).
Proof.
  intros payload. split.
  - intros a H. apply fetch_article_details_payload in H.
    destruct H as (xml & root & node & H0 & H1 & H2 & ->).
    exists xml, root, node. repeat split; auto.
    unfold article_of. cbn [abstract]. apply parse_abstract_spec.
  - intros xml root node Hpay Hne Hroot Hnode Hurl. subst payload.
    destruct (_make_request env (settings.EUTILS_BASE_URL ++ "efetch.fcgi")
                (List.length (heap st)) "text" (with_params st (efetch_params pmid)))
      as [r st1] eqn:Hrun.
    cbn [fst] in Hpay. subst r.
    pose proof (fetch_article_details_run env pmid st Hrun Hne) as E. cbv zeta in E.
    rewrite Hroot, Hnode, Hurl in E.
    exists (article_of pmid node). rewrite E. split; [reflexivity|].
    unfold article_of. cbn [abstract]. apply parse_abstract_spec.
Qed.

(** The example of the specification: a section labelled Methods with text
    [We did X] followed by an unlabelled section [Y]. *)
Lemma fetch_article_details_abstract_witness :
  let env := Examples.env_xml Examples.methods_doc in
  fst (fetch_article_details env "1" initial_state)
  = Ok (Some (Examples.methods_record "1"))
  /\ abstract (Examples.methods_record "1")
     = "**Methods:** We did X" ++ Parser.newline ++ Parser.newline ++ "Y"
  /\ exists xml root article_node,
      fst (_make_request env (settings.EUTILS_BASE_URL ++ "efetch.fcgi") 0 "text"
             (with_params initial_state (efetch_params "1")))
      = Ok (JStr xml)
      /\ fromstring env xml = Some root
      /\ ElementTree.find root Parser.p_PubmedArticle = Some article_node
      /\ abstract (Examples.methods_record "1")
         = Spec.abstract_of "Abstract not available." article_node.
Proof.
  intros env.
  split; [vm_compute; reflexivity | split; [reflexivity|]].
  apply (proj1 (fetch_article_details_abstract env "1" initial_state)).
  vm_compute. reflexivity.
Defined.

(* ===================================================================== *)
(** * The term that search_pubmed_ids sends                              *)
(* ===================================================================== *)

(** The requests of [search_pubmed_ids]; at least one is sent when the
    cache stays silent. *)
Lemma search_pubmed_ids_sends (env : Env) (query : string) (search_field : option string)
      (max_results : Z) (start_date end_date : option string) (st : State) :
  let ps := search_params (final_query query search_field) max_results
              start_date end_date in
  let st' := snd (search_pubmed_ids env query search_field max_results
                    start_date end_date st) in
  nth (List.length (heap st)) (heap st') [] = with_api_key env ps
  /\ grows (request_event (settings.EUTILS_BASE_URL ++ "esearch.fcgi")
              (with_api_key env ps)
              (_generate_cache_key (settings.EUTILS_BASE_URL ++ "esearch.fcgi")
                 (with_api_key env ps)))
           (trace st) (trace st')
  /\ exists k,
      (k <= MAX_RETRIES)%nat
      /\ requests (trace st')
         = (requests (trace st)
            ++ repeat ((settings.EUTILS_BASE_URL ++ "esearch.fcgi")%string,
                       with_api_key env ps) k)%list
      /\ (cache_silent env -> (1 <= k)%nat).
Proof.
  intros ps st'. subst st'. rewrite search_pubmed_ids_unfold. fold ps.
  set (url := settings.EUTILS_BASE_URL ++ "esearch.fcgi").
  set (st0 := mkState (trace st) (heap st ++ [ps])%list).
  assert (Hp : (List.length (heap st) < List.length (heap st0))%nat).
  { unfold st0. cbn [heap]. rewrite length_app. cbn [List.length]. lia. }
  assert (Hd : nth (List.length (heap st)) (heap st0) [] = ps)
    by (unfold st0; cbn [heap]; apply nth_alloc).
  assert (Hst : snd ((data <- _make_request env url (List.length (heap st)) "json" ;;
                      idlist_of data) st0)
                = snd (_make_request env url (List.length (heap st)) "json" st0)).
  { unfold bind.
    destruct (_make_request env url (List.length (heap st)) "json" st0) as [[data|e] st2];
      cbn [fst snd]; [apply idlist_of_state | reflexivity]. }
  rewrite Hst. clear Hst.
  destruct (@make_request_frame env url (List.length (heap st)) "json" st0 Hp)
    as [Hheap Hgrows].
  destruct (@make_request_effects env url (List.length (heap st)) "json" st0 Hp)
    as (k & m & Hkm & _ & R & _).
  rewrite Hd in Hgrows, R.
  split; [|split].
  - rewrite Hheap, nth_heap_with_api_key by assumption. now rewrite Hd.
  - exact Hgrows.
  - exists k. split; [lia|]. split; [exact R|].
    intros Hsilent.
    destruct (@make_request_silent env url (List.length (heap st)) "json" st0 Hp Hsilent)
      as (_ & R2 & _).
    cbv zeta in R2. rewrite Hd in R2. rewrite R in R2.
    apply app_inv_head in R2. apply (f_equal (@List.length _)) in R2.
    rewrite !repeat_length in R2. unfold MAX_RETRIES in *. lia.
Qed.

(** C8. [search_pubmed_ids] sends its requests to esearch with one
    parameter mapping, the one it builds and hands to [_make_request], with
    the credential added; at least one request is sent whenever the cache
    stays silent (nothing is served from it), and at most [MAX_RETRIES].
    The search term of that mapping, which every request of the call
    carries, is [(query)field] when a (non-empty) field is given and the
    query embeds no bracketed tag of two to four letters, and the query
    itself otherwise. *)
Theorem search_pubmed_ids_term (env : Env) (query : string) (search_field : option string)
        (max_results : Z) (start_date end_date : option string) (st : State) :
  let st' := snd (search_pubmed_ids env query search_field max_results
                    start_date end_date st) in
  let url := settings.EUTILS_BASE_URL ++ "esearch.fcgi" in
  exists term,
    let sent := with_api_key env (search_params term max_results start_date end_date) in
    nth (List.length (heap st)) (heap st') [] = sent
    /\ Dict.lookup sent "term" = Some (JStr term)
    /\ (exists k,
           (k <= MAX_RETRIES)%nat
           /\ requests (trace st') = (requests (trace st) ++ repeat (url, sent) k)%list
           /\ (cache_silent env -> (1 <= k)%nat))
    /\ grows (carries_term term) (trace st) (trace st')
    /\ (forall field, search_field = Some field -> field <> "" ->
        ~ SpecSearch.embeds_field_tag query ->
        term = "(" ++ query ++ ")" ++ field)
    /\ (search_field = None \/ search_field = Some ""
        \/ SpecSearch.embeds_field_tag query ->
        term = query).
Proof.
  intros st' url. exists (final_query query search_field). cbv zeta.
  destruct (search_pubmed_ids_sends env query search_field max_results
              start_date end_date st) as (Hheap & Hgrows & Hreq).
  fold st' in Hheap, Hgrows, Hreq. fold url in Hgrows, Hreq.
  assert (Hterm : Dict.lookup
                    (with_api_key env
                       (search_params (final_query query search_field) max_results
                          start_date end_date)) "term"
                  = Some (JStr (final_query query search_field))).
  { rewrite with_api_key_term. apply search_params_term. }
  split; [exact Hheap|]. split; [exact Hterm|]. split; [exact Hreq|].
  split; [|split].
  - eapply grows_weaken; [|exact Hgrows].
    intros [k|k v t|u d' t|z|l] He; try exact Logic.I.
    destruct He as (_ & -> & _). exact Hterm.
  - intros field -> Hne Hno. unfold final_query.
    assert (Hs : Re.search Re.field_tag query = false).
    { destruct (Re.search Re.field_tag query) eqn:E; auto.
      apply search_field_tag in E. contradiction. }
    rewrite Hs. destruct field; [contradiction | reflexivity].
  - unfold final_query. intros [-> | [-> | Htag]]; try reflexivity.
    apply search_field_tag in Htag. rewrite Htag.
    now rewrite andb_false_r.
Qed.

(** The example of the specification in a world without cache: the query
    [cancer] with the field [[AU]] is sent, at least once, as
    [(cancer)[AU]]. *)
Lemma search_pubmed_ids_term_witness :
  let env := Examples.env_of (fun _ => Ok (Examples.ok_json JNull)) in
  let st' := snd (search_pubmed_ids env "cancer" (Some "[AU]") 10 None None
                    initial_state) in
  exists k,
    (1 <= k <= MAX_RETRIES)%nat
    /\ requests (trace st')
       = repeat ("https://eutils.ncbi.nlm.nih.gov/entrez/eutils/esearch.fcgi",
                 search_params "(cancer)[AU]" 10 None None) k.
Proof.
  intros env st'.
  destruct (search_pubmed_ids_term env "cancer" (Some "[AU]") 10 None None initial_state)
    as (term & _ & _ & (k & Hk & Hreq & Hsilent) & _ & Hwrap & _).
  assert (Hterm : term = "(cancer)[AU]").
  { apply (Hwrap "[AU]" eq_refl); [discriminate|].
    intros H. apply search_field_tag in H. vm_compute in H. discriminate. }
  subst term. exists k. split; [split; [apply Hsilent; exact Logic.I | exact Hk]|].
  exact Hreq.
Defined.

(* ===================================================================== *)
(** * get_summaries: records that are skipped and records that are not   *)
(* ===================================================================== *)

(** Collecting the names stops at the first author that is not an object. *)
Lemma names_of_authors_crash (l : list JSON) :
  forallb SpecSummaries.is_dict l = false ->
  map_result (fun a => Dyn.get a "name" (JStr "")) l = Raise AttributeError.
Proof.
  induction l as [|a l IH]; cbn [forallb map_result]; intros H; [discriminate|].
  destruct a as [| | | | |ad]; cbn [SpecSummaries.is_dict andb] in H;
    try reflexivity.
  cbn [Dyn.get]. now rewrite (IH H).
Qed.

(** What [authors_crash] announces is an AttributeError or a TypeError. *)
Lemma record_crash_class (info : JSON) (e : exn) :
  SpecSummaries.record_crash info = Some e ->
  e = AttributeError \/ e = TypeError.
Proof.
  destruct info as [| | | | |i]; cbn [SpecSummaries.record_crash];
    try (intros [= <-]; now left).
  destruct (Dict.lookup i "authors") as [auths|]; [|discriminate].
  destruct auths as [|b|z|s|l|d]; cbn [SpecSummaries.authors_crash];
    try (intros [= <-]; now right).
  - destruct s; [discriminate | intros [= <-]; now left].
  - destruct (forallb SpecSummaries.is_dict l); [discriminate | intros [= <-]; now left].
  - destruct d; [discriminate | intros [= <-]; now left].
Qed.

(** Reading such a record raises, and leaves the state alone. *)
Lemma build_summary_crash (info : JSON) (e : exn) (st : State) :
  SpecSummaries.record_crash info = Some e ->
  build_summary info st = (Raise e, st).
Proof.
  unfold build_summary, bind, lift, ret, raise.
  destruct info as [| | | | |i]; cbn [SpecSummaries.record_crash Dyn.get];
    try (intros [= <-]; reflexivity).
  destruct (Dict.lookup i "authors") as [auths|]; [|discriminate].
  destruct auths as [|b|z|s|l|d]; cbn [SpecSummaries.authors_crash Dyn.iterate];
    try (intros [= <-]; reflexivity).
  - destruct s as [|c s]; [discriminate | intros [= <-]; reflexivity].
  - destruct (forallb SpecSummaries.is_dict l) eqn:Hl; [discriminate|].
    intros [= <-]. now rewrite (names_of_authors_crash l Hl).
  - destruct d as [|[k v] d]; [discriminate | intros [= <-]; reflexivity].
Qed.

(** The loop stops at the first uid whose visit raises; the records before
    it have been judged as usual. *)
Lemma summaries_loop_crash (result : dict) (pre : list JSON) (uid : JSON)
      (post : list JSON) (e : exn) :
  forallb (SpecSummaries.uid_shape result) pre = true ->
  SpecSummaries.uid_crash result uid = Some e ->
  forall summaries st,
    summaries_loop result (pre ++ uid :: post)%list summaries st
    = (Raise e,
       mkState (repeat (EvLog WARNING) (List.length (SpecSummaries.skipped result pre))
                  ++ trace st)%list (heap st)).
Proof.
  intros Hpre Hcrash.
  induction pre as [|p pre IH]; intros summaries st.
  - cbn [app SpecSummaries.skipped filter List.length repeat summaries_loop].
    unfold bind at 1. unfold lift at 1.
    destruct uid as [|b|z|s|l|d]; cbn [SpecSummaries.uid_crash] in Hcrash;
      try discriminate; cbn [Dyn.dict_contains].
    + unfold Dict.mem.
      destruct (Dict.lookup result s) as [info|] eqn:Hinfo; [|discriminate].
      unfold bind at 1. unfold lift at 1. cbn [Dyn.getitem_str]. rewrite Hinfo.
      unfold bind at 1. unfold try_except at 1. unfold bind at 1.
      rewrite (build_summary_crash info st Hcrash).
      destruct (record_crash_class info Hcrash) as [-> | ->];
        cbn [is_ValidationError]; now destruct st.
    + injection Hcrash as <-. now destruct st.
    + injection Hcrash as <-. now destruct st.
  - cbn [forallb] in Hpre. apply andb_true_iff in Hpre. destruct Hpre as [Hp Hpre].
    specialize (IH Hpre).
    change ((p :: pre) ++ uid :: post)%list with (p :: (pre ++ uid :: post))%list.
    cbn [summaries_loop SpecSummaries.skipped filter].
    fold (SpecSummaries.skipped result pre).
    unfold bind at 1. unfold lift at 1.
    destruct p as [|b|z|s|l|d]; cbn [Dyn.dict_contains SpecSummaries.record_of];
      try discriminate; try (rewrite IH; reflexivity).
    unfold Dict.mem. cbn [SpecSummaries.uid_shape] in Hp.
    destruct (Dict.lookup result s) as [info|] eqn:Hinfo; [|rewrite IH; reflexivity].
    destruct info as [| | | | |info]; try discriminate.
    unfold bind at 1. unfold lift at 1. cbn [Dyn.getitem_str]. rewrite Hinfo.
    unfold bind at 1. unfold try_except at 1. unfold bind at 1.
    rewrite build_summary_spec by assumption.
    destruct (SpecSummaries.summary_of info) as [sm|]; cbn [is_ValidationError].
    + unfold ret at 1. rewrite IH. reflexivity.
    + unfold bind at 1, log, emit, ret. cbn [fst snd].
      rewrite IH. cbn [trace heap List.length repeat app].
      change (EvLog WARNING :: trace st) with ([EvLog WARNING] ++ trace st)%list.
      rewrite app_assoc, <- repeat_cons. reflexivity.
Qed.

(** From the answer of esummary to the loop over its uids. *)
Lemma get_summaries_loop (env : Env) (pmids : list string) (st st1 : State)
      (data result : dict) (uids : list JSON) :
  pmids <> [] ->
  _make_request env (settings.EUTILS_BASE_URL ++ "esummary.fcgi")
    (List.length (heap st)) "json"
    (mkState (trace st) (heap st ++ [esummary_params pmids])%list)
  = (Ok (JDict data), st1) ->
  Dict.lookup data "result" = Some (JDict result) ->
  Dict.lookup result "uids" = Some (JList uids) ->
  get_summaries env pmids st = summaries_loop result uids [] st1.
Proof.
  intros Hne Hrun Hres Huids.
  unfold get_summaries. destruct pmids as [|x pmids]; [contradiction|].
  unfold bind at 1. unfold alloc at 1. cbn [fst snd].
  fold (esummary_params (x :: pmids)).
  unfold bind at 1. rewrite Hrun.
  assert (Hdata : Dyn.truthy (JDict data) = true).
  { destruct data; [discriminate | reflexivity]. }
  rewrite Hdata.
  unfold bind at 1. unfold lift at 1. cbn [Dyn.contains_str].
  unfold Dict.mem. rewrite Hres. cbn [negb].
  unfold bind at 1. unfold lift at 1. cbn [Dyn.getitem_str]. rewrite Hres.
  unfold bind at 1. unfold lift at 1. cbn [Dyn.get]. rewrite Huids.
  unfold bind at 1. unfold lift at 1. cbn [Dyn.iterate].
  reflexivity.
Qed.

(** A record whose reading does not raise is built or fails validation;
    the state stays as it is. *)
Lemma build_summary_verdict (info : JSON) (st : State) :
  SpecSummaries.record_crash info = None ->
  exists r, build_summary info st = (r, st)
            /\ match r with Ok _ => True | Raise e => e = ValidationError end.
Proof.
  destruct info as [| | | | |i]; cbn [SpecSummaries.record_crash]; try discriminate.
  destruct (Dict.lookup i "authors") as [auths|] eqn:Hauth.
  - destruct auths as [|b|z|s|l|d]; cbn [SpecSummaries.authors_crash]; try discriminate.
    + destruct s; [|discriminate]. intros _.
      unfold build_summary, bind, lift, ret, raise. cbn [Dyn.get]. rewrite Hauth.
      cbn [Dyn.iterate list_ascii_of_string map map_result Dyn.as_str_list].
      rewrite !as_str_field.
      destruct (SpecSummaries.str_field i "uid" ""),
        (SpecSummaries.str_field i "title" "No Title"),
        (SpecSummaries.str_field i "pubdate" ""),
        (SpecSummaries.str_field i "source" "");
        eexists; (split; [reflexivity|]); cbv beta iota; auto.
    + destruct (forallb SpecSummaries.is_dict l) eqn:Hl; [|discriminate]. intros _.
      rewrite build_summary_spec by (cbn [SpecSummaries.record_shape]; now rewrite Hauth).
      eexists. split; [reflexivity|].
      now destruct (SpecSummaries.summary_of i).
    + destruct d; [|discriminate]. intros _.
      unfold build_summary, bind, lift, ret, raise. cbn [Dyn.get]. rewrite Hauth.
      cbn [Dyn.iterate Dict.keys map map_result Dyn.as_str_list].
      rewrite !as_str_field.
      destruct (SpecSummaries.str_field i "uid" ""),
        (SpecSummaries.str_field i "title" "No Title"),
        (SpecSummaries.str_field i "pubdate" ""),
        (SpecSummaries.str_field i "source" "");
        eexists; (split; [reflexivity|]); cbv beta iota; auto.
  - intros _.
    rewrite build_summary_spec by (cbn [SpecSummaries.record_shape]; now rewrite Hauth).
    eexists. split; [reflexivity|].
    now destruct (SpecSummaries.summary_of i).
Qed.

(** After a uid whose visit does not raise, the loop goes on with the
    rest. *)
Lemma summaries_loop_step (result : dict) (uid : JSON) (rest : list JSON)
      (summaries : list ArticleSummary) (st : State) :
  SpecSummaries.uid_crash result uid = None ->
  exists summaries' st',
    summaries_loop result (uid :: rest) summaries st
    = summaries_loop result rest summaries' st'.
Proof.
  intros Hcrash. cbn [summaries_loop].
  unfold bind at 1. unfold lift at 1.
  destruct uid as [|b|z|s|l|d]; cbn [SpecSummaries.uid_crash] in Hcrash;
    try discriminate; cbn [Dyn.dict_contains]; try (eexists _, _; reflexivity).
  unfold Dict.mem.
  destruct (Dict.lookup result s) as [info|] eqn:Hinfo; [|eexists _, _; reflexivity].
  unfold bind at 1. unfold lift at 1. cbn [Dyn.getitem_str]. rewrite Hinfo.
  unfold bind at 1. unfold try_except at 1. unfold bind at 1.
  destruct (build_summary_verdict info st Hcrash) as ([sm|e] & -> & Hr).
  - unfold ret at 1. eexists _, _. reflexivity.
  - subst e. cbn [is_ValidationError]. unfold bind at 1, log, emit, ret. cbn [fst snd].
    eexists _, _. reflexivity.
Qed.

(** The loop raises what the first uid raises whose visit raises. *)
Lemma summaries_loop_first_crash (result : dict) (uids : list JSON) (e : exn) :
  SpecSummaries.first_crash result uids = Some e ->
  forall summaries st, fst (summaries_loop result uids summaries st) = Raise e.
Proof.
  induction uids as [|uid rest IH]; cbn [SpecSummaries.first_crash]; [discriminate|].
  destruct (SpecSummaries.uid_crash result uid) as [e'|] eqn:Hcrash.
  - intros [= ->] summaries st.
    change (uid :: rest) with ([] ++ uid :: rest)%list.
    now rewrite (@summaries_loop_crash result [] uid rest e eq_refl Hcrash summaries st).
  - intros Hrest summaries st.
    destruct (summaries_loop_step result uid rest summaries st Hcrash)
      as (summaries' & st' & ->).
    now apply IH.
Qed.

Lemma first_crash_class (result : dict) (uids : list JSON) (e : exn) :
  SpecSummaries.first_crash result uids = Some e ->
  e = AttributeError \/ e = TypeError.
Proof.
  induction uids as [|uid rest IH]; cbn [SpecSummaries.first_crash]; [discriminate|].
  destruct (SpecSummaries.uid_crash result uid) as [e'|] eqn:Hcrash; [|exact IH].
  intros [= ->].
  destruct uid as [|b|z|s|l|d]; cbn [SpecSummaries.uid_crash] in Hcrash;
    try discriminate; try (injection Hcrash as <-; now right).
  destruct (Dict.lookup result s) as [info|]; [|discriminate].
  exact (record_crash_class info Hcrash).
Qed.



(* ===================================================================== *)
(** * The cache key as a function of the mapping                         *)
(* ===================================================================== *)

(** X24. The cache key does not depend on the insertion order of the
    parameters: two parameter dicts (their keys distinct, as in every
    Python dict) with the same items in any order get the same key for the
    same url. *)
Theorem generate_cache_key_order_invariant (url : string) (p1 p2 : dict) :
  NoDup (Dict.keys p1) -> Permutation p1 p2 ->
  _generate_cache_key url p1 = _generate_cache_key url p2.
Proof.
  intros Hnd Hp. unfold _generate_cache_key, key_string.
  now rewrite (dumps_sorted_permutation Hp Hnd).
Qed.

(** The parameters of a search in two insertion orders. *)
Lemma generate_cache_key_order_invariant_witness :
  _generate_cache_key "https://eutils.ncbi.nlm.nih.gov/entrez/eutils/esearch.fcgi"
    [("db", JStr "pubmed"); ("term", JStr "cancer"); ("retmode", JStr "json")]
  = _generate_cache_key "https://eutils.ncbi.nlm.nih.gov/entrez/eutils/esearch.fcgi"
      [("retmode", JStr "json"); ("term", JStr "cancer"); ("db", JStr "pubmed")].
Proof.
  apply generate_cache_key_order_invariant.
  - unfold Dict.keys. cbn [map fst].
    repeat (apply NoDup_cons; [cbn [In]; intuition discriminate|]). apply NoDup_nil.
  - apply perm_trans with [("db", JStr "pubmed"); ("retmode", JStr "json");
                           ("term", JStr "cancer")].
    + apply perm_skip. apply perm_swap.
    + apply perm_trans with [("retmode", JStr "json"); ("db", JStr "pubmed");
                             ("term", JStr "cancer")].
      * apply perm_swap.
      * apply perm_skip. apply perm_swap.
Defined.

(** X25. What a coincidence of two keys means.  For one url and two
    mappings of strings, equal keys leave two possibilities: the mappings
    have the same items, or MD5 gives one digest to the two different byte
    strings hashed for them.  The keys are not constant: the searches for
    [cancer] and for [asthma] get the keys computed here, which differ. *)
Theorem generate_cache_key_coincidence :
  (forall url p1 p2,
      Flat.flat p1 = true -> Flat.flat p2 = true ->
      _generate_cache_key url p1 = _generate_cache_key url p2 ->
      Permutation p1 p2
      \/ (Hashlib.encode (key_string url p1) <> Hashlib.encode (key_string url p2)
          /\ Hashlib.md5_digest (Hashlib.encode (key_string url p1))
             = Hashlib.md5_digest (Hashlib.encode (key_string url p2))))
  /\ _generate_cache_key "https://eutils.ncbi.nlm.nih.gov/entrez/eutils/esearch.fcgi"
       [("db", JStr "pubmed"); ("term", JStr "cancer")]
     = "pubmed_cache:a5b2e92ab0df6990f6e83439c8e10253"
  /\ _generate_cache_key "https://eutils.ncbi.nlm.nih.gov/entrez/eutils/esearch.fcgi"
       [("db", JStr "pubmed"); ("term", JStr "asthma")]
     = "pubmed_cache:7bbe6425113acbda391fca6f46bf8b20".
Proof.
  split; [|split; vm_compute; reflexivity].
  intros url p1 p2 H1 H2 Hk.
  destruct (list_eq_dec Z.eq_dec (Hashlib.encode (key_string url p1))
              (Hashlib.encode (key_string url p2))) as [E|E].
  - left. apply encode_injective in E.
    eapply key_string_determines_mapping; eassumption.
  - right. split; [exact E|]. now apply cache_key_equal_iff.
Qed.

(** Two insertion orders of one search: the keys coincide, and so do the
    items. *)
Lemma generate_cache_key_coincidence_witness :
  Permutation [("db", JStr "pubmed"); ("term", JStr "cancer")]
              [("term", JStr "cancer"); ("db", JStr "pubmed")]
  \/ (Hashlib.encode (key_string "u" [("db", JStr "pubmed"); ("term", JStr "cancer")])
      <> Hashlib.encode (key_string "u" [("term", JStr "cancer"); ("db", JStr "pubmed")])
      /\ Hashlib.md5_digest
           (Hashlib.encode (key_string "u" [("db", JStr "pubmed"); ("term", JStr "cancer")]))
         = Hashlib.md5_digest
             (Hashlib.encode (key_string "u" [("term", JStr "cancer"); ("db", JStr "pubmed")]))).
Proof.
  apply (proj1 generate_cache_key_coincidence);
    [reflexivity | reflexivity | vm_compute; reflexivity].
Defined.

(* ===================================================================== *)
(** * The no-raise boundary                                              *)
(* ===================================================================== *)

Lemma sendable_setitem (d : dict) (k : string) (v : JSON) :
  sendable d = true -> query_value v = true -> sendable (Dict.setitem d k v) = true.
Proof.
  unfold sendable. intros Hd Hv.
  induction d as [|[k' v'] d IH]; cbn [Dict.setitem forallb snd] in *.
  - now rewrite Hv.
  - apply andb_true_iff in Hd. destruct Hd as [H1 H2].
    destruct (String.eqb k' k); cbn [forallb snd].
    + now rewrite Hv, H2.
    + now rewrite H1, IH.
Qed.

(** The credential is a string: adding it keeps the mapping sendable. *)
Lemma sendable_with_api_key (env : Env) (d : dict) :
  sendable d = true -> sendable (with_api_key env d) = true.
Proof.
  intros H. unfold with_api_key.
  destruct (NCBI_API_KEY env) as [[|c k]|]; auto.
  now apply sendable_setitem.
Qed.

(** The mappings the gateway operations build hold strings only. *)
Lemma sendable_search_params (term : string) (max_results : Z)
      (start_date end_date : option string) :
  sendable (search_params term max_results start_date end_date) = true.
Proof.
  unfold search_params.
  destruct (Py.truthy_opt start_date), (Py.truthy_opt end_date); reflexivity.
Qed.

Lemma sendable_history_params (query_key webenv : JSON) (max_results : Z) :
  query_value query_key = true -> query_value webenv = true ->
  sendable (history_params query_key webenv max_results) = true.
Proof.
  intros Hq Hw. unfold history_params, sendable. cbn.
  now rewrite Hq, Hw.
Qed.

Section NoRaise.
Variable env : Env.
Hypothesis Hcivil : civil env.

(** A cache hit is the decoded entry held under the key of the request. *)
Lemma returns_cache_lookup (url : string) (d : dict) (response_type : string) :
  returns_or never
    (fun hit => match hit with
                | Some v => delivers env url d response_type v
                | None => True
                end)
    (cache_lookup env (_generate_cache_key url d)).
Proof.
  unfold cache_lookup.
  destruct Hcivil as (_ & _ & Hredis).
  destruct (redis_client env) as [r|] eqn:Hr; [|now apply returns_ret].
  destruct Hredis as (Hget & _ & Hloads).
  eapply returns_try with (C1 := is_RedisError).
  - eapply returns_bind
      with (P := fun c => exists n, redis_get r n (_generate_cache_key url d) = Ok c).
    + intros st. unfold do_redis_get.
      destruct (redis_get r (count is_redis_get (trace st)) (_generate_cache_key url d))
        as [c|e] eqn:E.
      * left. eexists _, _. split; [reflexivity|]. eauto.
      * right. eexists _, _. split; [reflexivity|]. eapply Hget; eassumption.
    + intros [s|] (n & Hc); cbn [Py.truthy_opt]; [|now apply returns_ret].
      destruct s as [|c s]; cbn [Py.truthy]; [now apply returns_ret|].
      eapply returns_bind; [apply returns_log|]. intros _ _.
      unfold loads.
      destruct (json_loads env (String c s)) as [v|] eqn:E.
      * eapply returns_bind with (P := fun x => x = v);
          [now apply returns_ret | intros ? ->].
        apply returns_ret.
        eapply delivers_cached; try eassumption. discriminate.
      * exfalso. eapply Hloads; eauto. discriminate.
  - intros e He. now left.
  - intros e. eapply returns_bind; [apply returns_log|]. intros _ _.
    now apply returns_ret.
Qed.

Lemma returns_store (key : string) (v : JSON) :
  returns_or is_ClientError (fun _ => True)
    match redis_client env with
    | Some r =>
        try_except
          (do_redis_set r key (Json.dumps false v) settings.CACHE_TTL ;;; log INFO)
          is_RedisError (fun _ => log ERROR)
    | None => ret tt
    end.
Proof.
  destruct Hcivil as (_ & _ & Hredis).
  destruct (redis_client env) as [r|]; [|now apply returns_ret].
  destruct Hredis as (_ & Hset & _).
  eapply returns_try with (C1 := is_RedisError).
  - eapply returns_bind with (P := fun _ => True); [|intros _ _; apply returns_log].
    intros st. unfold do_redis_set.
    destruct (redis_set r (count is_redis_set (trace st)) key _ _) as [[]|e] eqn:E.
    + left. eexists _, _. split; [reflexivity | exact Logic.I].
    + right. eexists _, _. split; [reflexivity|]. eapply Hset; eassumption.
  - intros e He. now left.
  - intros e. apply returns_log.
Qed.

(** What follows the request in the body of an attempt: the payload of the
    response, or a [ClientError]. *)
Lemma returns_after_request (url : string) (d : dict) (response_type key : string)
      (n : nat) (resp : response) :
  sendable d = true -> session_get env n url d = Ok resp ->
  returns_or is_ClientError (delivers env url d response_type)
    (raise_for_status resp ;;;
     result <- (if String.eqb response_type "json" then lift (json resp)
                else (t <- lift (text resp) ;; ret (JStr t))) ;;
     match redis_client env with
     | Some r =>
         try_except
           (do_redis_set r key (Json.dumps false result) settings.CACHE_TTL ;;; log INFO)
           is_RedisError (fun _ => log ERROR)
     | None => ret tt
     end ;;;
     ret result).
Proof.
  intros Hs Hr. destruct Hcivil as (_ & Hdecode & _).
  unfold raise_for_status.
  destruct (400 <=? status resp)%Z eqn:Hst.
  { eapply returns_bind with (P := fun _ => False); [|intros ? []].
    now apply returns_raise. }
  apply Z.leb_gt in Hst.
  eapply returns_bind with (P := fun _ => True); [now apply returns_ret|].
  intros _ _.
  eapply returns_bind with (P := delivers env url d response_type).
  { destruct (String.eqb response_type "json") eqn:Ert.
    - intros st. unfold lift. destruct (json resp) as [v|e] eqn:E.
      + left. eexists _, _. split; [reflexivity|]. eapply delivers_json; eassumption.
      + right. eexists _, _. split; [reflexivity|]. eapply Hdecode; eauto.
    - intros st. unfold bind, lift, ret. destruct (text resp) as [t|e] eqn:E.
      + left. eexists _, _. split; [reflexivity|]. eapply delivers_text; eassumption.
      + right. eexists _, _. split; [reflexivity|]. eapply Hdecode; eauto. }
  intros v Hv.
  eapply returns_bind; [apply returns_store|]. intros _ _.
  now apply returns_ret.
Qed.

Variables (url : string) (params : loc) (d : dict) (response_type key : string).
Hypothesis Hsendable : sendable d = true.

(** The body of an attempt, run where the dict object holds a mapping the
    transport accepts. *)
Lemma attempt_body_returns (st : State) :
  nth params (heap st) [] = d ->
  (exists v st', attempt_body env url params response_type key st = (Ok v, st')
                 /\ delivers env url d response_type v)
  \/ (exists e st', attempt_body env url params response_type key st = (Raise e, st')
                    /\ is_ClientError e = true).
Proof.
  intros Hd.
  remember (attempt_body env url params response_type key st) as run eqn:Hrun.
  unfold attempt_body in Hrun.
  unfold bind at 1 in Hrun. unfold deref at 1 in Hrun. cbn [fst snd] in Hrun.
  rewrite Hd in Hrun.
  unfold bind at 1 in Hrun. unfold do_session_get at 1 in Hrun. cbn [fst snd] in Hrun.
  destruct (session_get env (count is_http (trace st)) url d) as [resp|e] eqn:E.
  - rewrite Hrun.
    apply (@returns_after_request url d response_type key _ resp Hsendable E).
  - right. subst run. eexists _, _. split; [reflexivity|].
    destruct Hcivil as (Hget & _). eapply Hget; eassumption.
Qed.

(** An attempt ends the loop with a payload, or goes on, or breaks. *)
Lemma attempt_once_returns (attempt : nat) (st : State) :
  nth params (heap st) [] = d ->
  exists f st',
    attempt_once env url params response_type key attempt st = (Ok f, st')
    /\ nth params (heap st') [] = d
    /\ match f with Return v => delivers env url d response_type v | _ => True end.
Proof.
  intros Hd.
  pose proof (@attempt_once_effects env url params d response_type key attempt st Hd)
    as (_ & _ & _ & Hheap).
  cbv zeta in Hheap. revert Hheap. rewrite attempt_once_run.
  destruct (attempt_body_returns st Hd) as [(v & st' & -> & Hv) | (e & st' & -> & He)].
  - cbn [snd]. intros Hheap. eexists _, _. split; [reflexivity|].
    split; [congruence | exact Hv].
  - rewrite He. destruct (retryable e); cbn [snd]; intros Hheap;
      eexists _, _; (split; [reflexivity|]); (split; [congruence | exact Logic.I]).
Qed.

Lemma retry_loop_returns (attempts : list nat) :
  forall st,
    nth params (heap st) [] = d ->
    exists v st',
      retry_loop env url params response_type key attempts st = (Ok v, st')
      /\ delivers env url d response_type v.
Proof.
  induction attempts as [|attempt rest IH]; intros st Hd.
  - cbn [retry_loop]. unfold after_loop, bind, log, emit, ret. cbn [fst snd].
    eexists _, _. split; [reflexivity | apply delivers_none].
  - rewrite retry_loop_cons.
    destruct (attempt_once_returns attempt st Hd) as ([v| |] & st1 & -> & Hd1 & Hf).
    + eexists _, _. split; [reflexivity | exact Hf].
    + apply IH. exact Hd1.
    + unfold after_loop, bind, log, emit, ret. cbn [fst snd].
      eexists _, _. split; [reflexivity | apply delivers_none].
Qed.

End NoRaise.

(** In a civil world [_make_request], called on a dict object that holds a
    mapping the transport accepts, returns: [None], the payload of a
    response to its request or the cached entry of its request. *)
Lemma make_request_returns (env : Env) (url : string) (params : loc)
      (response_type : string) (st : State) :
  civil env ->
  (params < List.length (heap st))%nat ->
  sendable (nth params (heap st) []) = true ->
  exists v st',
    _make_request env url params response_type st = (Ok v, st')
    /\ delivers env url (with_api_key env (nth params (heap st) [])) response_type v.
Proof.
  intros Hcivil Hp Hs.
  rewrite make_request_run by assumption.
  set (d := with_api_key env (nth params (heap st) [])).
  set (st0 := mkState (trace st) (heap_with_api_key env params (heap st))).
  assert (Hd0 : nth params (heap st0) [] = d)
    by (unfold st0; cbn [heap]; now apply nth_heap_with_api_key).
  assert (Hsd : sendable d = true) by now apply sendable_with_api_key.
  destruct (cache_lookup_quiet env (_generate_cache_key url d) st0) as (_ & _ & _ & Q).
  destruct (@returns_cache_lookup env Hcivil url d response_type st0)
    as [(hit & st1 & E & Hhit) | (e & st1 & _ & He)]; [|discriminate].
  rewrite E in *. cbn [snd] in Q. destruct hit as [v|].
  - eexists _, _. split; [reflexivity | exact Hhit].
  - apply (@retry_loop_returns env Hcivil url params d response_type
             (_generate_cache_key url d) Hsd).
    cbn [heap]. congruence.
Qed.

Section Gateway.
Variable env : Env.
Hypothesis Hcivil : civil env.

(** A call of [_make_request] on a mapping that was just built, followed by
    what the operation does with the value. *)
Lemma request_then_run {B} (C : exn -> bool) (url response_type : string) (ps : dict)
      (f : JSON -> M B) (st : State) :
  sendable ps = true ->
  (forall v, delivers env url (with_api_key env ps) response_type v ->
             returns_or C (fun _ => True) (f v)) ->
  let run := (data <- _make_request env url (List.length (heap st)) response_type ;;
              f data) (with_params st ps) in
  (exists b st2, run = (Ok b, st2) /\ True)
  \/ (exists e st2, run = (Raise e, st2) /\ C e = true).
Proof.
  intros Hs Hf run.
  destruct (@make_request_returns env url (List.length (heap st)) response_type
              (with_params st ps) Hcivil) as (v & st1 & E & Hv).
  - unfold with_params. cbn [heap]. rewrite length_app. cbn [List.length]. lia.
  - unfold with_params. cbn [heap]. now rewrite nth_alloc.
  - unfold with_params in Hv. cbn [heap] in Hv. rewrite nth_alloc in Hv.
    assert (Hrun : run = f v st1) by (subst run; unfold bind; now rewrite E).
    rewrite Hrun. apply (Hf v Hv st1).
Qed.

Lemma returns_request_then {B} (C : exn -> bool) (url response_type : string) (ps : dict)
      (f : JSON -> M B) :
  sendable ps = true ->
  (forall v, delivers env url (with_api_key env ps) response_type v ->
             returns_or C (fun _ => True) (f v)) ->
  returns_or C (fun _ => True)
    (p <- alloc ps ;; data <- _make_request env url p response_type ;; f data).
Proof.
  intros Hs Hf st. unfold bind at 1. unfold alloc at 1. cbn [fst snd].
  apply (@request_then_run B C url response_type ps f st Hs Hf).
Qed.

Lemma returns_idlist_of (data : JSON) :
  Shape.esearch data = true -> returns_or never (fun _ => True) (idlist_of data).
Proof.
  unfold Shape.esearch, Shape.falsy, idlist_of. intros H.
  destruct (Dyn.truthy data); [|now apply returns_ret].
  cbn [negb orb] in H.
  destruct data as [| | | | |d]; try discriminate.
  cbn [Dyn.get].
  destruct (Dict.lookup d "esearchresult") as [[| | | | |r]|]; try discriminate.
  - eapply returns_bind with (P := fun x => x = JDict r);
      [now apply returns_lift_ok | intros ? ->; now apply returns_lift_ok].
  - eapply returns_bind with (P := fun x => x = JDict []);
      [now apply returns_lift_ok | intros ? ->; now apply returns_lift_ok].
Qed.

Lemma returns_search_pubmed_ids (query : string) (search_field : option string)
      (max_results : Z) (start_date end_date : option string) :
  (forall v,
      delivers env (settings.EUTILS_BASE_URL ++ "esearch.fcgi")
        (with_api_key env (search_params (final_query query search_field) max_results
                             start_date end_date)) "json" v ->
      Shape.esearch v = true) ->
  returns_or never (fun _ => True)
    (search_pubmed_ids env query search_field max_results start_date end_date).
Proof.
  intros Hshape st. rewrite search_pubmed_ids_unfold.
  apply (@request_then_run _ never (settings.EUTILS_BASE_URL ++ "esearch.fcgi") "json"
           (search_params (final_query query search_field) max_results start_date end_date)
           idlist_of st).
  - apply sendable_search_params.
  - intros v Hv. apply returns_idlist_of. now apply Hshape.
Qed.

Lemma returns_spelling_verdict (query : string) (corrected : JSON) :
  match corrected with JNull | JStr _ => True | _ => False end ->
  returns_or never (fun _ : SpellCheckResponse => True)
    (differs <- (if Dyn.truthy corrected then
                   match corrected with
                   | JStr c => ret (negb (String.eqb (Py.lower c) (Py.lower query)))
                   | _ => raise AttributeError
                   end
                 else ret false) ;;
     corrected_query <- lift (Dyn.as_opt_str corrected) ;;
     ret (mkSpellCheckResponse query corrected_query differs)).
Proof.
  intros H. destruct corrected as [| | |c| |]; try contradiction.
  - eapply returns_bind with (P := fun _ => True); [now apply returns_ret|].
    intros ? _.
    eapply returns_bind with (P := fun _ => True); [now apply returns_lift_ok|].
    intros ? _. now apply returns_ret.
  - eapply returns_bind with (P := fun _ => True).
    { destruct (Dyn.truthy (JStr c)); now apply returns_ret. }
    intros ? _.
    eapply returns_bind with (P := fun _ => True); [now apply returns_lift_ok|].
    intros ? _. now apply returns_ret.
Qed.

Lemma returns_check_spelling (query : string) :
  (forall v,
      delivers env (settings.EUTILS_BASE_URL ++ "espell.fcgi")
        (with_api_key env (espell_params query)) "json" v ->
      Shape.espell v = true) ->
  returns_or never (fun _ => True) (check_spelling env query).
Proof.
  intros Hshape. unfold check_spelling. fold (espell_params query).
  apply returns_request_then; [reflexivity|].
  intros data Hdata. apply Hshape in Hdata.
  unfold Shape.espell, Shape.falsy in Hdata.
  destruct (Dyn.truthy data); cbn [negb orb] in *; [|now apply returns_ret].
  destruct data as [| | | | |d]; try discriminate.
  cbn [Dyn.get].
  destruct (Dict.lookup d "es-result") as [[| | | | |r]|]; try discriminate.
  - eapply returns_bind with (P := fun x => x = JDict r);
      [now apply returns_lift_ok | intros ? ->].
    cbn [Dyn.get].
    eapply returns_bind
      with (P := fun x => match x with JNull | JStr _ => True | _ => False end).
    + apply returns_lift_ok.
      destruct (Dict.lookup r "corrected") as [[| | |c| |]|];
        try discriminate; exact Logic.I.
    + intros corrected Hc. apply (returns_spelling_verdict query corrected). exact Hc.
  - eapply returns_bind with (P := fun x => x = JDict []);
      [now apply returns_lift_ok | intros ? ->].
    cbn [Dyn.get Dict.lookup].
    eapply returns_bind with (P := fun x => x = JNull);
      [now apply returns_lift_ok | intros ? ->].
    apply (returns_spelling_verdict query JNull). exact Logic.I.
Qed.

Lemma returns_get_summaries (pmids : list string) :
  (forall v,
      delivers env (settings.EUTILS_BASE_URL ++ "esummary.fcgi")
        (with_api_key env (esummary_params pmids)) "json" v ->
      Shape.esummary v = true) ->
  returns_or never (fun _ => True) (get_summaries env pmids).
Proof.
  intros Hshape. unfold get_summaries.
  destruct pmids as [|x pmids]; [now apply returns_ret|].
  fold (esummary_params (x :: pmids)).
  apply returns_request_then; [reflexivity|].
  intros data Hdata. apply Hshape in Hdata.
  unfold Shape.esummary, Shape.falsy in Hdata.
  destruct (Dyn.truthy data); cbn [negb orb] in *.
  2:{ eapply returns_bind with (P := fun x => x = false);
        [now apply returns_ret | intros ? ->]. now apply returns_ret. }
  destruct data as [| | | | |d]; try discriminate.
  cbn [Dyn.contains_str]. unfold Dict.mem.
  destruct (Dict.lookup d "result") as [res|] eqn:Hres.
  2:{ eapply returns_bind with (P := fun x => x = false);
        [now apply returns_lift_ok | intros ? ->]. now apply returns_ret. }
  destruct res as [| | | | |res]; try discriminate.
  eapply returns_bind with (P := fun x => x = true);
    [now apply returns_lift_ok | intros ? ->]. cbn [negb].
  cbn [Dyn.getitem_str]. rewrite Hres.
  eapply returns_bind with (P := fun x => x = JDict res);
    [now apply returns_lift_ok | intros ? ->].
  cbn [Dyn.get].
  assert (Hloop : forall uids,
             forallb (SpecSummaries.uid_shape res) uids = true ->
             returns_or never (fun _ : list ArticleSummary => True)
               (summaries_loop res uids [])).
  { intros uids Hu st. left. rewrite summaries_loop_spec by assumption.
    eexists _, _. split; [reflexivity | exact Logic.I]. }
  destruct (Dict.lookup res "uids") as [[| | | |us|]|]; try discriminate.
  - eapply returns_bind with (P := fun x => x = JList us);
      [now apply returns_lift_ok | intros ? ->]. cbn [Dyn.iterate].
    eapply returns_bind with (P := fun x => x = us);
      [now apply returns_lift_ok | intros ? ->].
    now apply Hloop.
  - eapply returns_bind with (P := fun x => x = JList []);
      [now apply returns_lift_ok | intros ? ->]. cbn [Dyn.iterate].
    eapply returns_bind with (P := fun x => x = []);
      [now apply returns_lift_ok | intros ? ->].
    now apply Hloop.
Qed.

Lemma returns_find_related_ids (source_pmid : string) (max_results : Z) :
  (forall v,
      delivers env (settings.EUTILS_BASE_URL ++ "elink.fcgi")
        (with_api_key env (elink_params source_pmid)) "json" v ->
      Shape.elink v = true) ->
  (forall query_key webenv v,
      delivers env (settings.EUTILS_BASE_URL ++ "esearch.fcgi")
        (with_api_key env (history_params query_key webenv max_results)) "json" v ->
      Shape.esearch v = true) ->
  returns_or never (fun _ => True) (find_related_ids env source_pmid max_results).
Proof.
  intros Hshape Hshape2. unfold find_related_ids. fold (elink_params source_pmid).
  apply returns_request_then; [reflexivity|].
  intros data Hdata. apply Hshape in Hdata.
  unfold Shape.elink, Shape.falsy in Hdata.
  destruct (Dyn.truthy data); cbn [negb orb] in *.
  2:{ eapply returns_bind with (P := fun x => x = false);
        [now apply returns_ret | intros ? ->]. now apply returns_ret. }
  destruct data as [| | | | |d]; try discriminate.
  cbn [Dyn.get Dyn.getitem_str].
  destruct (Dict.lookup d "linksets") as [ls|] eqn:Hls.
  2:{ eapply returns_bind with (P := fun x => x = false).
      - eapply returns_bind with (P := fun x => x = JNull);
          [now apply returns_lift_ok | intros ? ->]. now apply returns_ret.
      - intros ? ->. now apply returns_ret. }
  destruct (Dyn.truthy ls) eqn:Htru; cbn [negb orb] in Hdata.
  2:{ eapply returns_bind with (P := fun x => x = false).
      - eapply returns_bind with (P := fun x => x = ls);
          [now apply returns_lift_ok | intros ? ->]. rewrite Htru.
        now apply returns_ret.
      - intros ? ->. now apply returns_ret. }
  eapply returns_bind with (P := fun x => x = true).
  { eapply returns_bind with (P := fun x => x = ls);
      [now apply returns_lift_ok | intros ? ->]. rewrite Htru.
    now apply returns_ret. }
  intros ? ->. cbn [negb].
  destruct ls as [| | | |[|[| | | | |linkset] ls]|]; try discriminate.
  destruct (Dict.lookup linkset "webenv") as [webenv|] eqn:Hweb; [|discriminate].
  destruct (Dict.lookup linkset "linksetdbs")
    as [[| | | |[|[| | | | |db] dbs]|]|] eqn:Hdbs; try discriminate.
  apply andb_true_iff in Hdata. destruct Hdata as [Hw Hq].
  destruct (Dict.lookup db "querykey") as [query_key|] eqn:Hqk; [|discriminate].
  eapply returns_bind with (P := fun x => x = JList (JDict linkset :: ls));
    [now apply returns_lift_ok | intros ? ->]. cbn [Dyn.getitem_0].
  eapply returns_bind with (P := fun x => x = JDict linkset);
    [now apply returns_lift_ok | intros ? ->]. cbn [Dyn.get Dyn.getitem_str].
  rewrite Hweb.
  eapply returns_bind with (P := fun x => x = webenv);
    [now apply returns_lift_ok | intros ? ->].
  rewrite Hdbs.
  eapply returns_bind with (P := fun x => x = JList (JDict db :: dbs));
    [now apply returns_lift_ok | intros ? ->]. cbn [Dyn.getitem_0].
  eapply returns_bind with (P := fun x => x = JDict db);
    [now apply returns_lift_ok | intros ? ->]. cbn [Dyn.get]. rewrite Hqk.
  eapply returns_bind with (P := fun x => x = query_key);
    [now apply returns_lift_ok | intros ? ->].
  fold (history_params query_key webenv max_results).
  apply returns_request_then; [now apply sendable_history_params|].
  intros fetch_data Hfetch. apply returns_idlist_of. eapply Hshape2. exact Hfetch.
Qed.

Lemma returns_fetch_article_details (pmid : string) :
  (forall v,
      delivers env (settings.EUTILS_BASE_URL ++ "efetch.fcgi")
        (with_api_key env (efetch_params pmid)) "text" v ->
      Shape.efetch v = true) ->
  returns_or never (fun _ => True) (fetch_article_details env pmid).
Proof.
  intros Hshape st. unfold fetch_article_details. fold (efetch_params pmid).
  unfold bind at 1. unfold alloc at 1. cbn [fst snd]. cbv zeta.
  fold (with_params st (efetch_params pmid)).
  unfold try_except.
  match goal with
  | |- context [bind (_make_request env ?u ?p ?rt) ?f] =>
      destruct (@request_then_run _ is_ParseError_or_ValidationError u rt
                  (efetch_params pmid) f st eq_refl)
        as [(b & st2 & E & _) | (e & st2 & E & He)]
  end.
  - intros xml_data Hdata. apply Hshape in Hdata.
    unfold Shape.efetch, Shape.falsy in Hdata.
    destruct (Dyn.truthy xml_data); cbn [negb orb] in *; [|now apply returns_ret].
    destruct xml_data as [| | |xml| |]; try discriminate.
    eapply returns_bind with (P := fun _ => True).
    { unfold parse_xml. destruct (fromstring env xml);
        [now apply returns_ret | now apply returns_raise]. }
    intros root _.
    destruct (ElementTree.find root Parser.p_PubmedArticle); [|now apply returns_ret].
    eapply returns_bind with (P := fun _ => True).
    { unfold make_url. destruct (url_valid env _);
        [now apply returns_ret | now apply returns_raise]. }
    intros l _. now apply returns_ret.
  - cbv zeta in E. rewrite E. left. eexists _, _. split; [reflexivity | exact Logic.I].
  - cbv zeta in E. rewrite E, He. left. unfold bind, log, emit, ret. cbn [fst snd].
    eexists _, _. split; [reflexivity | exact Logic.I].
Qed.

End Gateway.

Lemma returns_never {A} (Q : A -> Prop) (m : M A) :
  returns_or never Q m -> forall st, exists a, returned (m st) = Some a.
Proof.
  intros H st. unfold returned.
  destruct (H st) as [(a & st' & -> & _) | (e & st' & _ & He)].
  - exists a. reflexivity.
  - discriminate.
Qed.



(** A link set without [webenv] puts [None] into the parameters of the
    second request of [find_related_ids]; a transport that rejects such a
    mapping with [TypeError], as [aiohttp] does, makes the operation raise
    it. *)
Lemma find_related_ids_needs_webenv :
  fst (find_related_ids (Examples10.world_of None Examples10.linkset_without_webenv)
         "7" 5 initial_state)
  = Raise TypeError.
Proof. vm_compute. reflexivity. Qed.



(** The example world is civil. *)
Lemma world_is_civil : civil Examples10.world.
Proof.
  unfold civil, Examples10.world, Examples10.world_of.
  cbn [session_get redis_client json_loads].
  split; [|split; [|split; [|split]]].
  - intros n url d e ->. destruct (n <? 1)%nat; discriminate.
  - intros n url d r e ->. destruct (n <? 1)%nat; intros [= <-].
    + cbn [status Examples.no_payload]. lia.
    + unfold Examples10.page, Examples10.json_page, Examples10.xml_page,
        Examples.no_payload.
      repeat match goal with
             | |- context [if String.eqb url ?u then _ else _] =>
                 destruct (String.eqb url u)
             end; cbn [status json text]; intros Hst [H | H];
        try discriminate; try lia.
      injection H as <-. reflexivity.
  - intros n key e. cbn [redis_get Examples10.cache].
    destruct (n <? 1)%nat; discriminate.
  - intros n key v ttl e. cbn [redis_set Examples10.cache]. now intros [= <-].
  - intros n key s. cbn [redis_get Examples10.cache].
    destruct (n <? 1)%nat; [discriminate|]. intros [= <-] _. discriminate.
Qed.

(** What the example world delivers for a request to [url]: nothing, the
    page of [url], or the empty object of the cache. *)
Lemma world_delivers (url : string) (d : dict) (response_type : string) (v : JSON) :
  delivers Examples10.world url d response_type v ->
  v = JNull \/ v = JDict []
  \/ json (Examples10.page Examples8.linkset_with_history url) = Ok v
  \/ exists t, text (Examples10.page Examples8.linkset_with_history url) = Ok t
               /\ v = JStr t /\ String.eqb response_type "json" = false.
Proof.
  intros H.
  inversion H as [|n r v' Hrt Hget Hst Hdec|n r t Hrt Hget Hst Hdec
                  |c n s v' Hc Hget Hne Hloads]; subst.
  - now left.
  - right. right. left.
    unfold Examples10.world, Examples10.world_of in Hget. cbn [session_get] in Hget.
    destruct (sendable d); [|discriminate].
    destruct (n <? 1)%nat; injection Hget as <-; [|exact Hdec].
    cbn [status Examples.no_payload] in Hst. lia.
  - right. right. right. exists t.
    unfold Examples10.world, Examples10.world_of in Hget. cbn [session_get] in Hget.
    destruct (sendable d); [|discriminate].
    destruct (n <? 1)%nat; injection Hget as <-; [|auto].
    cbn [status Examples.no_payload] in Hst. lia.
  - right. left.
    unfold Examples10.world, Examples10.world_of in Hc, Hloads.
    cbn [redis_client json_loads] in Hc, Hloads. injection Hc as <-.
    cbn [redis_get Examples10.cache] in Hget.
    destruct (n <? 1)%nat; [discriminate|]. injection Hget as <-.
    cbn in Hloads. now injection Hloads as <-.
Qed.

